(** * Mental Wellness API: the insights engine of [main.py]

    The development embeds the three operations of [main.py] that carry
    derived logic, [compute_insights], [get_suggestions] and [insights],
    together with the constant [SUGGESTION_LIBRARY], and proves the
    properties of the specification over them.  The four handlers that
    write through [create_document], [add_mood_log], [add_journal],
    [track_engagement] and [track_event], and [get_profile] follow with
    the models of [schemas.py] they take.

    Modelling conventions.
    - Python [int] is [Z].  Python [float] is an IEEE 754 binary64 value:
      [spec_float] with precision 53 and maximal exponent 1024; [a / b],
      [a + b] and [round(x, 2)] are the correctly rounded operations of
      CPython.
    - A [datetime.date] is its proleptic Gregorian ordinal
      ([date.toordinal()], day 1 is 0001-01-01); a naive
      [datetime.datetime] is that ordinal with the second of the day and
      the microsecond.  [isoformat] goes through [_ord2ymd] of the
      [datetime] module.  Python keeps dates within the years 1..9999:
      [valid_datetime] marks that range, and the operations that leave it
      raise as in CPython 3.11 ([timedelta] arithmetic with
      [OverflowError], [timestamp] and [fromtimestamp] with [ValueError]).
    - The documents of the store carry naive datetimes.
      [datetime.timestamp()] and [datetime.fromtimestamp()] go through the
      local time zone of the server process, a parameter [tz] that gives
      the offset from UTC at every POSIX time, as [time.localtime] does;
      [timestamp()] follows [_mktime] with its probes a day back, and its
      result is the double [s + microsecond / 1e6].  The platform's
      [localtime] is taken to answer for every time asked (64-bit
      [time_t]), and to count no leap seconds.
    - The [moodlog] collection is outside [main.py]; the one query the
      engine issues on it is a parameter of type [store].  The collection
      is one of MongoDB ([schemas.py]), whose dates carry milliseconds:
      the statements about the day of a record are made for records with a
      whole number of milliseconds ([regular]).  The two
      readings of the clock in [compute_insights] are the parameters
      [now0] (for [since]) and [now] (for [today]).
    - [None] as a result stands for a raised exception.
    - [database.py] is not among the sources: the write handlers are
      functions of the state of the database and of [create_document],
      both parameters, and [get_profile] is a function of the answer of
      [find_one].  The handlers whose result is what MongoDB does with a
      query or an update ([upsert_profile], [list_mood_logs],
      [list_journal], [export_data], [test_database]) are left out. *)

From Stdlib Require Import ZArith Lia List String Ascii Bool.
From Stdlib Require Import Floats.SpecFloat.
From Stdlib Require Import DecimalString.
From Stdlib Require DecimalPos DecimalZ.
From stdpp Require Import base gmap sets list strings sorting.
Import ListNotations.
Local Open Scope Z_scope.

(** ** Calendar arithmetic of the [datetime] module *)

Module Calendar.

Definition is_leap (year : Z) : bool :=
  (year mod 4 =? 0) && (negb (year mod 100 =? 0) || (year mod 400 =? 0)).

Definition days_before_year (year : Z) : Z :=
  let y := year - 1 in y * 365 + y / 4 - y / 100 + y / 400.

Definition DAYS_IN_MONTH (month : Z) : Z :=
  match month with
  | 1 => 31 | 2 => 28 | 3 => 31 | 4 => 30 | 5 => 31 | 6 => 30
  | 7 => 31 | 8 => 31 | 9 => 30 | 10 => 31 | 11 => 30 | 12 => 31
  | _ => -1
  end.

Definition DAYS_BEFORE_MONTH (month : Z) : Z :=
  match month with
  | 1 => 0 | 2 => 31 | 3 => 59 | 4 => 90 | 5 => 120 | 6 => 151
  | 7 => 181 | 8 => 212 | 9 => 243 | 10 => 273 | 11 => 304 | 12 => 334
  | _ => -1
  end.

Definition days_before_month (year month : Z) : Z :=
  DAYS_BEFORE_MONTH month + (if (2 <? month) && is_leap year then 1 else 0).

(** [date(year, month, day).toordinal()] *)
Definition ymd2ord (year month day : Z) : Z :=
  days_before_year year + days_before_month year month + day.

Definition DI400Y : Z := 146097.
Definition DI100Y : Z := 36524.
Definition DI4Y : Z := 1461.

(** The part of [_ord2ymd] after the 400-year cycle is split off: [n] is the
    zero-based day in the cycle, the year returned is counted from the
    start of the cycle (1..400). *)
Definition ord2ymd_cycle (n : Z) : Z * Z * Z :=
  let '(n100, n) := Z.div_eucl n DI100Y in
  let '(n4, n) := Z.div_eucl n DI4Y in
  let '(n1, n) := Z.div_eucl n 365 in
  let year := 1 + n100 * 100 + n4 * 4 + n1 in
  if (n1 =? 4) || (n100 =? 4) then (year - 1, 12, 31)
  else
    let leapyear := (n1 =? 3) && (negb (n4 =? 24) || (n100 =? 3)) in
    let month := Z.shiftr (n + 50) 5 in
    let preceding :=
      DAYS_BEFORE_MONTH month + (if (2 <? month) && leapyear then 1 else 0) in
    let '(month, preceding) :=
      if n <? preceding
      then (month - 1,
            preceding - (DAYS_IN_MONTH (month - 1)
                         + (if (month - 1 =? 2) && leapyear then 1 else 0)))
      else (month, preceding) in
    (year, month, n - preceding + 1).

(** [_ord2ymd]: ordinal to (year, month, day); [Z.div_eucl] is [divmod]. *)
Definition ord2ymd (n : Z) : Z * Z * Z :=
  let n := n - 1 in
  let '(n400, n) := Z.div_eucl n DI400Y in
  let '(y, m, d) := ord2ymd_cycle n in
  (n400 * 400 + y, m, d).

(** [str(n)] for an integer. *)
Definition str_of_int (n : Z) : string := NilZero.string_of_int (Z.to_int n).

Fixpoint repeat_zero (k : nat) (s : string) : string :=
  match k with
  | O => s
  | S k' => String "0" (repeat_zero k' s)
  end.

(** ["%0<width>d" % n] for [0 <= n]. *)
Definition zero_pad (width : nat) (n : Z) : string :=
  let s := str_of_int n in
  repeat_zero (width - String.length s) s.

(** [date.isoformat()]: ["%04d-%02d-%02d" % (year, month, day)]. *)
Definition isoformat (ordinal : Z) : string :=
  let '(y, m, d) := ord2ymd ordinal in
  (zero_pad 4 y ++ "-" ++ zero_pad 2 m ++ "-" ++ zero_pad 2 d)%string.

(** The ordinals of [date.min] and [date.max], and of 1970-01-01. *)
Definition MINORDINAL : Z := 1.
Definition MAXORDINAL : Z := 3652059.
Definition EPOCH_ORDINAL : Z := 719163.

Definition valid_ordinal (n : Z) : Prop := MINORDINAL <= n <= MAXORDINAL.

End Calendar.

(** ** Floats *)

Definition float : Type := spec_float.
Definition prec : Z := 53.
Definition emax : Z := 1024.

(** An integer as an exact (unrounded) operand of a float operation. *)
Definition exact_of_int (z : Z) : float :=
  match z with
  | Z0 => S754_zero false
  | Zpos p => S754_finite false p 0
  | Zneg p => S754_finite true p 0
  end.

(** [a / b] on Python integers: the quotient rounded once to the nearest
    double, ties to even.  ([b = 0] raises in Python; every divisor in
    [main.py] is the length of a non-empty list.) *)
Definition int_true_div (a b : Z) : float :=
  SFdiv prec emax (exact_of_int a) (exact_of_int b).

(** [float(z)] *)
Definition float_of_int (z : Z) : float := binary_normalize prec emax z 0 false.

(** The integer nearest to [m * 2^e * 10^ndigits], ties to even. *)
Definition nearest_scaled (m : positive) (e : Z) (ndigits : Z) : Z :=
  let n := Zpos m * 10 ^ ndigits in
  if 0 <=? e then n * 2 ^ e
  else
    let d := 2 ^ (- e) in
    let q := n / d in
    let r := n mod d in
    match 2 * r ?= d with
    | Lt => q
    | Eq => if Z.even q then q else q + 1
    | Gt => q + 1
    end.

(** [round(x, ndigits)] for a float [x] and [0 <= ndigits]: CPython prints
    [x] to [ndigits] decimals, correctly rounded from its exact binary
    value with ties to even, and reads the decimal string back as the
    nearest double; zeros, infinities and nans round to themselves. *)
Definition py_round (x : float) (ndigits : Z) : float :=
  match x with
  | S754_finite s m e =>
      let h := nearest_scaled m e ndigits in
      SFdiv prec emax
        (match h with Zpos p => S754_finite s p 0 | _ => S754_zero s end)
        (exact_of_int (10 ^ ndigits))
  | _ => x
  end.

(** [x < z] for a float [x] and an integer [z] that a double holds exactly. *)
Definition float_lt_int (x : float) (z : Z) : bool :=
  SFltb x (float_of_int z).

(** The double nearest to the decimal [h / 100]. *)
Definition decimal2 (h : Z) : float := int_true_div h 100.

(** ** Dates and times *)

(** A naive [datetime]: the ordinal of its date, the second of the day
    ([hour*3600 + minute*60 + second]) and the microsecond. *)
Record datetime : Type := mk_datetime {
  ordinal : Z;
  second_of_day : Z;
  microsecond : Z
}.

Definition valid_datetime (dt : datetime) : Prop :=
  Calendar.valid_ordinal (ordinal dt)
  /\ 0 <= second_of_day dt < 86400
  /\ 0 <= microsecond dt < 1000000.

(** [datetime(year, month, day, hour, minute, second, microsecond)] *)
Definition datetime_of (year month day hour minute second micro : Z) : datetime :=
  mk_datetime (Calendar.ymd2ord year month day)
              (hour * 3600 + minute * 60 + second) micro.

(** [dt.date()], as an ordinal. *)
Definition date (dt : datetime) : Z := ordinal dt.

(** [dt - timedelta(days=days)]: [timedelta] takes at most 999999999 days
    and the difference has to be a date of the years 1..9999; [None] is
    the [OverflowError] of either. *)
Definition sub_days (dt : datetime) (days : Z) : option datetime :=
  if Z.abs days <=? 999999999 then
    let o := ordinal dt - days in
    if (Calendar.MINORDINAL <=? o) && (o <=? Calendar.MAXORDINAL)
    then Some (mk_datetime o (second_of_day dt) (microsecond dt))
    else None
  else None.

(** Whole seconds from 1970-01-01T00:00:00 to the naive reading [dt]. *)
Definition naive_seconds (dt : datetime) : Z :=
  (ordinal dt - Calendar.EPOCH_ORDINAL) * 86400 + second_of_day dt.

(** A naive reading, given in seconds from 1970-01-01T00:00:00, lies in
    the years 1..9999. *)
Definition in_range (x : Z) : bool :=
  let o := Calendar.EPOCH_ORDINAL + x / 86400 in
  (Calendar.MINORDINAL <=? o) && (o <=? Calendar.MAXORDINAL).

(** The time zone of the server process: the offset of local time from
    UTC, in seconds, at every POSIX time [u]
    ([time.localtime(u).tm_gmtoff]). *)
Definition zone : Type := Z -> Z.

(** [local(u)] of [datetime._mktime]: the local reading at the POSIX time
    [u], in seconds from 1970-01-01T00:00:00; [None] is the [ValueError]
    of a reading outside the years 1..9999. *)
Definition local (tz : zone) (u : Z) : option Z :=
  let r := u + tz u in
  if in_range r then Some r else None.

(** [dt._mktime()] of a naive datetime ([fold = 0]): a POSIX time whose
    local reading is [dt], found with the offsets at [t] and a day
    before; the later of the two candidates when [dt] falls into a gap. *)
Definition mktime (tz : zone) (dt : datetime) : option Z :=
  let t := naive_seconds dt in
  if in_range t then
    lt ← local tz t;
    let a := lt - t in
    let u1 := t - a in
    t1 ← local tz u1;
    let finish (b : Z) : option Z :=
      let u2 := t - b in
      t2 ← local tz u2;
      if t2 =? t then Some u2
      else if t1 =? t then Some u1
      else Some (Z.max u1 u2) in
    if t1 =? t then
      let u2 := u1 - 86400 in
      lt2 ← local tz u2;
      let b := lt2 - u2 in
      if a =? b then Some u1 else finish b
    else finish (t1 - u1)
  else None.

(** [dt.timestamp()] of a naive datetime: [s + dt.microsecond / 1e6] with
    [s = dt._mktime()], a quotient and a sum of doubles. *)
Definition timestamp (tz : zone) (dt : datetime) : option float :=
  s ← mktime tz dt;
  Some (SFadd prec emax (float_of_int s)
          (SFdiv prec emax (float_of_int (microsecond dt)) (float_of_int 1000000))).

(** [int(x)] of a float: truncation toward zero; [None] for an infinity
    or a nan, where Python raises. *)
Definition int_of_float (x : float) : option Z :=
  match x with
  | S754_zero _ => Some 0
  | S754_finite s m e =>
      Some (cond_Zopp s (if 0 <=? e then Zpos m * 2 ^ e else Zpos m / 2 ^ (- e)))
  | _ => None
  end.

(** [datetime.fromtimestamp(t)] for an integer [t]: the local reading at
    [t]; the readings a day before, and at the transition found there,
    are taken too (to set [fold]) and must lie in the years 1..9999 as
    well. *)
Definition fromtimestamp (tz : zone) (t : Z) : option datetime :=
  let r := t + tz t in
  let result := mk_datetime (Calendar.EPOCH_ORDINAL + r / 86400) (r mod 86400) 0 in
  if in_range r then
    probe ← local tz (t - 86400);
    let transition := r - probe - 86400 in
    if transition <? 0
    then _ ← local tz (t + transition); Some result
    else Some result
  else None.

(** ** Documents *)

(** [schemas.MoodLog], a document of the [moodlog] collection.  The schema
    requires [mood] and [logged_at], so [l.get("mood", 0)], [l["mood"]] and
    [l["logged_at"]] read the fields. *)
Record MoodLog : Type := mk_MoodLog {
  anonymous_id : string;
  mood : Z;
  emoji : string;
  note : option string;
  tags : list string;
  logged_at : datetime
}.

(** The moods of [schemas.MoodLog] are 1..5. *)
Definition valid_mood (l : MoodLog) : Prop := 1 <= mood l <= 5.

(** An entry of [SUGGESTION_LIBRARY], with its keys [id], [title],
    [duration] and [type]. *)
Record Suggestion : Type := mk_Suggestion {
  sg_id : string;
  sg_title : string;
  sg_duration : Z;
  sg_type : string
}.

Definition SUGGESTION_LIBRARY : list Suggestion :=
  [ mk_Suggestion "breath-2" "Try this quick breathing reset" 2 "breathing";
    mk_Suggestion "meditate-5" "Mini meditation" 5 "meditation";
    mk_Suggestion "walk-5" "Micro-walk" 5 "walk";
    mk_Suggestion "affirm-1" "Affirmation card" 1 "affirmation" ].

(** An element of [by_day], with its keys [date] and [avg]. *)
Record DayAvg : Type := mk_DayAvg {
  da_date : string;
  da_avg : float
}.

(** The dictionary [compute_insights] returns. *)
Record Insights : Type := mk_Insights {
  avg_mood : option float;
  entries : Z;
  streak : Z;
  by_day : list DayAvg
}.

(** The [moodlog] collection as the engine sees it:
    [db["moodlog"].find({"anonymous_id": a, "logged_at": {"$gte": since}})]
    as a list, for the arguments [a] and [since]. *)
Definition store : Type := string -> datetime -> list MoodLog.

(** ** [compute_insights] *)

(** [datetime.fromtimestamp(int(l["logged_at"].timestamp())).date()];
    [None] when one of the three calls raises. *)
Definition log_date (tz : zone) (l : MoodLog) : option Z :=
  ts ← timestamp tz (logged_at l);
  t ← int_of_float ts;
  dt ← fromtimestamp tz t;
  Some (date dt).

(** [sum(xs)] *)
Definition sum (xs : list Z) : Z := fold_left Z.add xs 0.

(** [len(xs)] *)
Definition len {A : Type} (xs : list A) : Z := Z.of_nat (length xs).

(** [round(sum(v) / len(v), 2)] *)
Definition mean2 (v : list Z) : float := py_round (int_true_div (sum v) (len v)) 2.

(** The loop
    [while d in days_set: streak += 1; d = d - timedelta(days=1)].
    A date cannot go below [date.min]: [room] is the number of days [d] is
    above it, and [None] is the [OverflowError] of the subtraction at
    [date.min]. *)
Fixpoint streak_loop (room : nat) (days_set : gset Z) (d : Z) (streak : Z)
  : option Z :=
  if decide (d ∈ days_set)
  then
    match room with
    | O => None
    | S room' => streak_loop room' days_set (d - 1) (streak + 1)
    end
  else Some streak.

(** [by.setdefault(d, []).append(m)] *)
Definition setdefault_append (by_ : gmap string (list Z)) (d : string) (m : Z)
  : gmap string (list Z) :=
  <[d := default [] (by_ !! d) ++ [m]]> by_.

(** The dictionary [by] after the loop over [logs]; the order in which the
    keys were inserted is not kept, [sorted] makes it immaterial. *)
Definition group_by_day (tz : zone) (logs : list MoodLog)
  : option (gmap string (list Z)) :=
  fold_left
    (fun acc l =>
       by_ ← acc;
       d ← log_date tz l;
       Some (setdefault_append by_ (Calendar.isoformat d) (mood l)))
    logs (Some ∅).

(** The order [sorted] uses on the items of a dictionary: the keys are
    pairwise different, so two items always compare by their keys. *)
Definition item_le (a b : string * list Z) : Prop :=
  String.leb (fst a) (fst b) = true.

#[global] Instance item_le_dec : RelDecision item_le.
Proof. intros a b. unfold item_le. apply _. Defined.

(** [sorted(by.items())] *)
Definition sorted_items (by_ : gmap string (list Z)) : list (string * list Z) :=
  merge_sort item_le (map_to_list by_).

(** The body of [compute_insights] once the store has answered with [logs];
    [now] is the clock reading that gives [today].  [None] stands for a
    raised exception. *)
Definition compute_insights_on (tz : zone) (now : datetime)
    (logs : list MoodLog) : option Insights :=
  match logs with
  | [] => Some (mk_Insights None 0 0 [])
  | _ :: _ =>
      let avg := py_round (int_true_div (sum (map mood logs)) (len logs)) 2 in
      dates ← mapM (log_date tz) logs;
      let days_set : gset Z := list_to_set dates in
      let today := date now in
      streak ← streak_loop (Z.to_nat (today - Calendar.MINORDINAL)) days_set today 0;
      by_ ← group_by_day tz logs;
      let by_day :=
        map (fun kv => mk_DayAvg (fst kv) (mean2 (snd kv))) (sorted_items by_) in
      Some (mk_Insights (Some avg) (len logs) streak by_day)
  end.

(** [compute_insights(anonymous_id, days)]: [now0] is the clock reading
    taken for [since], [now] the one taken for [today]. *)
Definition compute_insights (tz : zone) (db : store) (now0 now : datetime)
    (anonymous_id : string) (days : Z) : option Insights :=
  since ← sub_days now0 days;
  compute_insights_on tz now (db anonymous_id since).

(** ** [get_suggestions] *)

(** The response of [/api/suggestions]. *)
Record SuggestionResponse : Type := mk_SuggestionResponse {
  reason : string;
  items : list Suggestion;
  sr_insights : Insights
}.

(** The module-level state the handlers can reach. *)
Record Globals : Type := mk_Globals {
  library : list Suggestion
}.

Definition initial_globals : Globals := mk_Globals SUGGESTION_LIBRARY.

(** The rule table of [get_suggestions] on the library [lib]: the reason and
    the picks; [None] stands for an [IndexError]. *)
Definition select_suggestions (lib : list Suggestion) (ins : Insights)
  : option (string * list Suggestion) :=
  match avg_mood ins with
  | None =>
      Some ("Suggested to help you start your routine"%string, take 2 lib)
  | Some avg =>
      if float_lt_int avg 3 && (3 <=? entries ins)
      then
        match lib !! 0%nat, lib !! 1%nat with
        | Some a, Some b =>
            Some ("Suggested because your average mood has been low this week"%string,
                  [a; b])
        | _, _ => None
        end
      else
        match lib !! 2%nat, lib !! 3%nat with
        | Some a, Some b =>
            Some ("Suggested based on your recent logs"%string, [a; b])
        | _, _ => None
        end
  end.

(** [get_suggestions(anonymous_id, days)] as a transformer of the module
    state: the response and the state after the call. *)
Definition get_suggestions (tz : zone) (db : store) (now0 now : datetime)
    (anonymous_id : string) (days : Z) (g : Globals)
  : option SuggestionResponse * Globals :=
  match compute_insights tz db now0 now anonymous_id days with
  | None => (None, g)
  | Some ins =>
      match select_suggestions (library g) ins with
      | None => (None, g)
      | Some (r, picks) => (Some (mk_SuggestionResponse r picks ins), g)
      end
  end.

(** ** [insights] *)

(** The response of [/api/insights]. *)
Record InsightsResponse : Type := mk_InsightsResponse {
  kpis : Insights;
  ai_summary : list string;
  suggested_actions : list string
}.

(** [days = 7 if range == "7d" else 30] *)
Definition window_days (range : string) : Z :=
  if String.eqb range "7d" then 7 else 30.

(** [f"Nice streak: {streak} days in a row."] *)
Definition streak_sentence (n : Z) : string :=
  ("Nice streak: " ++ Calendar.str_of_int n ++ " days in a row.")%string.

(** The summary and the actions built from [data]. *)
Definition summarize (data : Insights) : list string * list string :=
  let summary := [] in
  let actions := [] in
  match avg_mood data with
  | None =>
      (summary ++ ["No logs yet. Start with a 2-minute breathing reset."%string],
       actions ++ ["Set a daily reminder at a calm time."%string])
  | Some avg =>
      let '(summary, actions) :=
        if float_lt_int avg 3
        then (summary ++ ["Mood has been on the lower side recently."%string],
              actions ++ ["Try a daily 5-minute mini meditation for 3 days."%string])
        else (summary ++ ["You're maintaining a stable mood trend."%string],
              actions ++ ["Keep up the short check-ins and a micro-walk."%string]) in
      let summary :=
        if 3 <=? streak data
        then summary ++ [streak_sentence (streak data)]
        else summary in
      (summary, actions)
  end.

(** [insights(anonymous_id, range)] as a transformer of the module state. *)
Definition insights (tz : zone) (db : store) (now0 now : datetime)
    (anonymous_id : string) (range : string) (g : Globals)
  : option InsightsResponse * Globals :=
  let days := window_days range in
  match compute_insights tz db now0 now anonymous_id days with
  | None => (None, g)
  | Some data =>
      let '(summary, actions) := summarize data in
      (Some (mk_InsightsResponse data summary actions), g)
  end.

(** ** The two endpoints as requests against the module state *)

Inductive Request : Type :=
| GetSuggestions (anonymous_id : string) (days : Z)
| GetInsights (anonymous_id : string) (range : string).

(** One request: the state after the handler has run. *)
Definition handle (tz : zone) (db : store) (now0 now : datetime)
    (rq : Request) (g : Globals) : Globals :=
  match rq with
  | GetSuggestions a days => snd (get_suggestions tz db now0 now a days g)
  | GetInsights a range => snd (insights tz db now0 now a range g)
  end.

(** A sequence of requests, each under its own store answer and clock. *)
Fixpoint serve (tz : zone)
    (rqs : list (store * datetime * datetime * Request)) (g : Globals) : Globals :=
  match rqs with
  | [] => g
  | (db, now0, now, rq) :: rest =>
      serve tz rest (handle tz db now0 now rq g)
  end.

(** ** The write handlers *)

(** The values the handlers put into a document.  The text of a journal
    entry is kept as the list of its Unicode code points, [str.strip] looks
    at them one by one; the other strings are only passed on. *)
#[warnings="-register-all"] Inductive value : Type :=
| VNone
| VBool (b : bool)
| VInt (z : Z)
| VStr (s : string)
| VText (t : list Z)
| VDate (d : datetime)
| VList (vs : list value)
| VDict (kvs : list (string * value)).

(** A dictionary with string keys, in the order of insertion. *)
Definition dict : Type := list (string * value).

(** [d.get(k, default)] *)
Fixpoint dict_get (d : dict) (k : string) (default : value) : value :=
  match d with
  | [] => default
  | (k', v) :: d' => if String.eqb k' k then v else dict_get d' k default
  end.

(** [None] or the value. *)
Definition optional {A : Type} (f : A -> value) (o : option A) : value :=
  match o with
  | Some a => f a
  | None => VNone
  end.

(** [schemas.SuggestionEngagement] *)
Record SuggestionEngagement : Type := mk_SuggestionEngagement {
  se_anonymous_id : string;
  se_suggestion_id : string;
  se_action : string;
  se_reason : option string;
  se_created_at : datetime
}.

(** [schemas.JournalEntry] *)
Record JournalEntry : Type := mk_JournalEntry {
  je_anonymous_id : string;
  je_text : list Z;
  je_mood_at_time : option Z;
  je_voice_note_url : option string;
  je_created_at : datetime
}.

(** [schemas.AppEvent] *)
Record AppEvent : Type := mk_AppEvent {
  ae_anonymous_id : string;
  ae_event : string;
  ae_meta : option dict;
  ae_created_at : datetime
}.

(** The values of [AppEvent.event]. *)
Definition APP_EVENTS : list string :=
  [ "mood_logged"; "suggestion_viewed"; "suggestion_completed"; "journal_saved";
    "onboarding_completed"; "daily_active_user"; "retention7"; "retention30" ]%string.

Definition valid_AppEvent (e : AppEvent) : Prop := In (ae_event e) APP_EVENTS.

(** [payload.model_dump()] for a [MoodLog] and for a [JournalEntry]. *)
Definition dump_MoodLog (p : MoodLog) : dict :=
  [ ("anonymous_id", VStr (anonymous_id p));
    ("mood", VInt (mood p));
    ("emoji", VStr (emoji p));
    ("note", optional VStr (note p));
    ("tags", VList (map VStr (tags p)));
    ("logged_at", VDate (logged_at p)) ]%string.

Definition dump_JournalEntry (p : JournalEntry) : dict :=
  [ ("anonymous_id", VStr (je_anonymous_id p));
    ("text", VText (je_text p));
    ("mood_at_time", optional VInt (je_mood_at_time p));
    ("voice_note_url", optional VStr (je_voice_note_url p));
    ("created_at", VDate (je_created_at p)) ]%string.

(** What a handler hands to [create_document]: a dictionary or the
    validated model itself. *)
Inductive document : Type :=
| Dict (d : dict)
| EngagementModel (p : SuggestionEngagement)
| EventModel (e : AppEvent).

(** [c.isspace()] for a code point, the test [str.strip()] applies
    (CPython 3.11). *)
Definition py_isspace (c : Z) : bool :=
  ((9 <=? c) && (c <=? 13)) || ((28 <=? c) && (c <=? 32))
  || (c =? 133) || (c =? 160) || (c =? 5760)
  || ((8192 <=? c) && (c <=? 8202))
  || (c =? 8232) || (c =? 8233) || (c =? 8239) || (c =? 8287) || (c =? 12288).

Fixpoint lstrip (t : list Z) : list Z :=
  match t with
  | [] => []
  | c :: t' => if py_isspace c then lstrip t' else t
  end.

Definition rstrip (t : list Z) : list Z := rev (lstrip (rev t)).

(** [t.strip()] *)
Definition strip (t : list Z) : list Z := rstrip (lstrip t).

(** [v.strip()] on a value; [None] stands for an [AttributeError]. *)
Definition value_strip (v : value) : option (list Z) :=
  match v with
  | VText t => Some (strip t)
  | _ => None
  end.

(** How a handler ends: it returns, raises an [HTTPException], lets an
    exception of [create_document] through, or fails on an attribute. *)
Inductive outcome (Exn A : Type) : Type :=
| Return (a : A)
| HTTPException (status_code : Z) (detail : string)
| Raised (e : Exn)
| AttributeError.

Arguments Return {Exn A} a.
Arguments HTTPException {Exn A} status_code detail.
Arguments Raised {Exn A} e.
Arguments AttributeError {Exn A}.

(** [{"id": _id, "status": ...}] *)
Record Written (Id : Type) : Type := mk_Written {
  wr_id : Id;
  wr_status : string
}.

Arguments mk_Written {Id} wr_id wr_status.
Arguments wr_id {Id} w.
Arguments wr_status {Id} w.

(** The body of a request to one of the four writing endpoints. *)
Inductive PostRequest : Type :=
| PostMoodLog (payload : MoodLog)
| PostJournal (payload : JournalEntry)
| PostEngagement (payload : SuggestionEngagement)
| PostEvent (evt : AppEvent).

Section Handlers.

(** [database.create_document] is not part of the sources at hand: the
    handlers are written against any state [DB] of the database and any
    [create_document] that answers with an identifier or raises. *)
Context {DB Exn Id : Type}.
Variable create_document : string -> document -> DB -> (Exn + Id) * DB.
(** [str(e)] *)
Variable str : Exn -> string.

(** [add_mood_log(payload)]; [now] is [datetime.now(timezone.utc)]. *)
Definition add_mood_log (now : datetime) (payload : MoodLog) (db : DB)
  : outcome Exn (Written Id) * DB :=
  let data := dump_MoodLog payload in
  match create_document "moodlog" (Dict data) db with
  | (inl e, db) => (HTTPException 500 (str e), db)
  | (inr _id, db) =>
      match create_document "appevent"
              (Dict [ ("anonymous_id", VStr (anonymous_id payload));
                      ("event", VStr "mood_logged");
                      ("meta", VDict [ ("mood", VInt (mood payload));
                                       ("tags", VList (map VStr (tags payload))) ]);
                      ("created_at", VDate now) ]%string) db with
      | (inl e, db) => (HTTPException 500 (str e), db)
      | (inr _, db) => (Return (mk_Written _id "ok"), db)
      end
  end.

(** [add_journal(payload)] *)
Definition add_journal (now : datetime) (payload : JournalEntry) (db : DB)
  : outcome Exn (Written Id) * DB :=
  let data := dump_JournalEntry payload in
  match value_strip (dict_get data "text" (VText [])) with
  | None => (AttributeError, db)
  | Some stripped =>
      if len stripped =? 0
      then (HTTPException 400 "Text required", db)
      else
        match create_document "journalentry" (Dict data) db with
        | (inl e, db) => (Raised e, db)
        | (inr _id, db) =>
            match create_document "appevent"
                    (Dict [ ("anonymous_id", VStr (je_anonymous_id payload));
                            ("event", VStr "journal_saved");
                            ("meta", VNone);
                            ("created_at", VDate now) ]%string) db with
            | (inl e, db) => (Raised e, db)
            | (inr _, db) => (Return (mk_Written _id "ok"), db)
            end
        end
  end.

(** [track_engagement(payload)] *)
Definition track_engagement (now : datetime) (payload : SuggestionEngagement)
    (db : DB) : outcome Exn (Written Id) * DB :=
  match create_document "suggestionengagement" (EngagementModel payload) db with
  | (inl e, db) => (Raised e, db)
  | (inr _id, db) =>
      if existsb (String.eqb (se_action payload)) ["viewed"; "completed"]%string
      then
        match create_document "appevent"
                (Dict [ ("anonymous_id", VStr (se_anonymous_id payload));
                        ("event", VStr ("suggestion_" ++ se_action payload));
                        ("meta", VDict [ ("suggestion_id",
                                          VStr (se_suggestion_id payload)) ]);
                        ("created_at", VDate now) ]%string) db with
        | (inl e, db) => (Raised e, db)
        | (inr _, db) => (Return (mk_Written _id "ok"), db)
        end
      else (Return (mk_Written _id "ok"), db)
  end.

(** [track_event(evt)] *)
Definition track_event (evt : AppEvent) (db : DB)
  : outcome Exn (Written Id) * DB :=
  match create_document "appevent" (EventModel evt) db with
  | (inl e, db) => (Raised e, db)
  | (inr _id, db) => (Return (mk_Written _id "ok"), db)
  end.

(** One request to a writing endpoint. *)
Definition handle_post (now : datetime) (rq : PostRequest) (db : DB)
  : outcome Exn (Written Id) * DB :=
  match rq with
  | PostMoodLog payload => add_mood_log now payload db
  | PostJournal payload => add_journal now payload db
  | PostEngagement payload => track_engagement now payload db
  | PostEvent evt => track_event evt db
  end.

End Handlers.

(** ** [get_profile] *)

(** [schemas.UserProfile] *)
Record UserProfile : Type := mk_UserProfile {
  up_anonymous_id : string;
  up_name : option string;
  up_language : string;
  up_goals : list string;
  up_notify_enabled : bool;
  up_notify_times : list string;
  up_privacy_anonymous_mode : bool;
  up_reduced_motion : bool
}.

(** [UserProfile(anonymous_id=a)]: every other field at the default its
    [Field] declares. *)
Definition new_UserProfile (a : string) : UserProfile :=
  mk_UserProfile a None "en" [] true ["09:00"%string] true false.

(** [payload.model_dump()] for a [UserProfile]. *)
Definition dump_UserProfile (p : UserProfile) : dict :=
  [ ("anonymous_id", VStr (up_anonymous_id p));
    ("name", optional VStr (up_name p));
    ("language", VStr (up_language p));
    ("goals", VList (map VStr (up_goals p)));
    ("notify_enabled", VBool (up_notify_enabled p));
    ("notify_times", VList (map VStr (up_notify_times p)));
    ("privacy_anonymous_mode", VBool (up_privacy_anonymous_mode p));
    ("reduced_motion", VBool (up_reduced_motion p)) ]%string.

Section Profiles.

(** [db] is [None] or a database; [find_one collection filter projection]
    is [db[collection].find_one(filter, projection)], with [None] for no
    document. *)
Context {DB Exn : Type}.
Variable find_one : string -> dict -> dict -> DB -> option dict.

(** [get_profile(anonymous_id)]; a dictionary is false when it is empty. *)
Definition get_profile (db : option DB) (anonymous_id : string)
  : outcome Exn dict :=
  match db with
  | None => HTTPException 500 "Database not configured"
  | Some d =>
      match find_one "userprofile" [("anonymous_id", VStr anonymous_id)]%string
              [("_id", VInt 0)]%string d with
      | Some (kv :: doc) => Return (kv :: doc)
      | _ =>
          Return [ ("anonymous_id", VStr anonymous_id);
                   ("language", VStr "en");
                   ("goals", VList []);
                   ("notify_enabled", VBool true);
                   ("notify_times", VList [VStr "09:00"]);
                   ("privacy_anonymous_mode", VBool true);
                   ("reduced_motion", VBool false) ]%string
      end
  end.

End Profiles.

(** ** Auxiliary definitions of the proofs *)

Module CalendarAux.
Import Calendar.

(** A date as one number, [yyyymmdd]. *)
Definition datekey (ymd : Z * Z * Z) : Z :=
  let '(y, m, d) := ymd in y * 10000 + m * 100 + d.

(** The month and the day of day [n] (zero-based) of a year, as [_ord2ymd]
    finds them. *)
Definition month_day (n : Z) (leapyear : bool) : Z * Z :=
  let month := Z.shiftr (n + 50) 5 in
  let preceding :=
    DAYS_BEFORE_MONTH month + (if (2 <? month) && leapyear then 1 else 0) in
  let '(month, preceding) :=
    if n <? preceding
    then (month - 1,
          preceding - (DAYS_IN_MONTH (month - 1)
                       + (if (month - 1 =? 2) && leapyear then 1 else 0)))
    else (month, preceding) in
  (month, n - preceding + 1).

Definition mdkey (md : Z * Z) : Z := fst md * 100 + snd md.

(** What holds of day [n] of a year: month and day are in range and the
    next day of the year has a larger key. *)
Definition month_day_ok (leapyear : bool) (n : Z) : bool :=
  let '(m, d) := month_day n leapyear in
  (1 <=? m) && (m <=? 12) && (1 <=? d) && (d <=? 31)
  && (if n + 1 <? 365
      then mdkey (m, d) <? mdkey (month_day (n + 1) leapyear)
      else true).

(** [f z && f (z+1) && ...] over [n] consecutive integers. *)
Fixpoint all_from (f : Z -> bool) (n : nat) (z : Z) : bool :=
  match n with
  | O => true
  | S k => f z && all_from f k (z + 1)
  end.

(** The character of a decimal digit. *)
Definition digit (k : Z) : ascii := ascii_of_N (48 + Z.to_N k).

Definition digits2 (n : Z) (rest : string) : string :=
  String (digit (n / 10)) (String (digit (n mod 10)) rest).

Definition digits4 (n : Z) (rest : string) : string :=
  String (digit (n / 1000)) (String (digit (n / 100 mod 10))
    (String (digit (n / 10 mod 10)) (String (digit (n mod 10)) rest))).

Definition pad4_ok (n : Z) : bool := String.eqb (zero_pad 4 n) (digits4 n EmptyString).
Definition pad2_ok (n : Z) : bool := String.eqb (zero_pad 2 n) (digits2 n EmptyString).

End CalendarAux.

(** Notions the statements below are written with. *)

Import Calendar.

(** The days [d, d-1, ..., d-(k-1)] are in the set and [d-k] is not. *)
Definition run_of (days_set : gset Z) (d k : Z) : Prop :=
  0 <= k /\ (forall i, 0 <= i < k -> d - i ∈ days_set) /\ d - k ∉ days_set.

(** The number of listed days that are not after [d]. *)
Definition days_upto (dates : list Z) (d : Z) : nat :=
  length (filter (fun x => x <= d) dates).

(** The record is filed: none of the calls that date it raises. *)
Definition filed (tz : zone) (l : MoodLog) : Prop := is_Some (log_date tz l).

(** The day a record is filed under (day 0 stands in for a record that is
    not filed). *)
Definition log_day (tz : zone) (l : MoodLog) : Z := default 0 (log_date tz l).

(** The record is filed under a day that is not after [d]. *)
Definition filed_upto (tz : zone) (d : Z) (l : MoodLog) : Prop :=
  match log_date tz l with
  | Some x => x <= d
  | None => False
  end.

#[global] Instance filed_upto_dec (tz : zone) (d : Z) (l : MoodLog) :
  Decision (filed_upto tz d l).
Proof. unfold filed_upto. destruct (log_date tz l); apply _. Defined.

(** The key a record is filed under in [by]. *)
Definition day_key (tz : zone) (l : MoodLog) : string :=
  isoformat (log_day tz l).

(** The moods of the records filed under [k], in the order of [logs]. *)
Definition moods_on (tz : zone) (k : string) (logs : list MoodLog) : list Z :=
  map mood (filter (fun l => day_key tz l = k) logs).

(** A list of strings in strictly ascending order. *)
Definition ascending (ks : list string) : Prop :=
  StronglySorted (fun a b => String.ltb a b = true) ks.

(** The dictionary [by] built from records that are all filed. *)
Definition group_of (tz : zone) (logs : list MoodLog) : gmap string (list Z) :=
  fold_left (fun by_ l => setdefault_append by_ (day_key tz l) (mood l)) logs ∅.

(** The list [by_day] built from [logs]. *)
Definition by_day_of (tz : zone) (logs : list MoodLog) : list DayAvg :=
  map (fun kv => mk_DayAvg (fst kv) (mean2 (snd kv)))
      (sorted_items (group_of tz logs)).

(** The set [days_set] built from [logs]. *)
Definition days_of (tz : zone) (logs : list MoodLog) : gset Z :=
  list_to_set (map (log_day tz) logs).


(** Some record of [logs] was logged on the day [d]. *)
Definition logged_on (logs : list MoodLog) (d : Z) : Prop :=
  exists l, l ∈ logs /\ date (logged_at l) = d.

(** A zone that keeps the offset [c] from UTC at all times. *)
Definition fixed_offset (tz : zone) (c : Z) : Prop := forall u, tz u = c.

(** The zones of the examples: UTC, and Nuuk around the start of summer
    time on 2026-03-29T01:00Z, from two to one hour behind UTC. *)
Definition utc : zone := fun _ => 0.

Definition nuuk_2026 : zone :=
  fun u => if u <? 1774746000 then -7200 else -3600.

(** A record as the store keeps it, in a zone with the offset [c]: a
    datetime of Python with a whole number of milliseconds, not on
    0001-01-01, not so late on 9999-12-31 that the reading moved by [c]
    leaves the years 1..9999, and logged at or after
    1970-01-01T00:00:00Z, or on a whole second, or not in the last second
    of a day. *)
Definition regular (c : Z) (l : MoodLog) : Prop :=
  valid_datetime (logged_at l)
  /\ MINORDINAL < ordinal (logged_at l)
  /\ in_range (naive_seconds (logged_at l) + c) = true
  /\ microsecond (logged_at l) mod 1000 = 0
  /\ (0 <= naive_seconds (logged_at l) - c
      \/ microsecond (logged_at l) = 0
      \/ second_of_day (logged_at l) < 86399).

(** The zone keeps the offset [c] around the datetime [dt]: at the POSIX
    time that reads as [dt] in UTC, where [_mktime] starts, and from a day
    before to a second after the POSIX time that reads as [dt] at the
    offset [c]. *)
Definition steady (tz : zone) (c : Z) (dt : datetime) : Prop :=
  tz (naive_seconds dt) = c
  /\ forall u, naive_seconds dt - c - 86400 <= u <= naive_seconds dt - c + 1 ->
               tz u = c.

(** A record as the store keeps it, logged at a time around which the
    zone keeps its offset. *)
Definition kept (tz : zone) (l : MoodLog) : Prop :=
  exists c, steady tz c (logged_at l) /\ regular c l.

(** The quotient [1000 * k / 1e6] of a whole number of milliseconds is a
    double between [2^-10] and [1 - 2^-10]. *)
Definition ms_fraction_ok (k : Z) : bool :=
  match SFdiv prec emax (float_of_int (1000 * k)) (float_of_int 1000000) with
  | S754_finite false mf ef =>
      (-62 <=? ef) && (ef <=? -53)
      && (2 ^ (-10 - ef) <=? Zpos mf)
      && (Zpos mf <=? 2 ^ (- ef) - 2 ^ (-10 - ef))
  | _ => false
  end.

(** A record for the examples. *)
Definition log_at (m : Z) (dt : datetime) : MoodLog :=
  mk_MoodLog "u1" m EmptyString None [] dt.

(** The location of [q + r/n] between [q] and [q + 1]. *)
Definition loc_of_rem (n r : Z) : location :=
  if r =? 0 then loc_Exact else loc_Inexact (2 * r ?= n).

(** [float_lt_int (decimal2 h) 3] agrees with [h < 300]. *)
Definition decimal2_lt_3_ok (h : Z) : bool :=
  Bool.eqb (float_lt_int (decimal2 h) 3) (h <? 300).

(** The four entries of the library, by position. *)
Definition breath_2 : Suggestion :=
  mk_Suggestion "breath-2" "Try this quick breathing reset" 2 "breathing".
Definition meditate_5 : Suggestion :=
  mk_Suggestion "meditate-5" "Mini meditation" 5 "meditation".
Definition walk_5 : Suggestion := mk_Suggestion "walk-5" "Micro-walk" 5 "walk".
Definition affirm_1 : Suggestion :=
  mk_Suggestion "affirm-1" "Affirmation card" 1 "affirmation".

(** The moods of the records logged on the day [d], in the order of [logs]. *)
Definition moods_of_day (d : Z) (logs : list MoodLog) : list Z :=
  map mood (filter (fun l => date (logged_at l) = d) logs).

(** The clock and the records of the scenarios: three records today with
    the moods 1, 2, 2, and one record a day over five days ending today. *)
Definition scenario_now : datetime := datetime_of 2026 11 4 10 30 0 0.

Definition scenario2_logs : list MoodLog :=
  [log_at 1 (datetime_of 2026 11 4 7 0 0 0);
   log_at 2 (datetime_of 2026 11 4 8 0 0 0);
   log_at 2 (datetime_of 2026 11 4 9 0 0 250000)].

Definition scenario3_logs : list MoodLog :=
  [log_at 4 (datetime_of 2026 10 31 21 0 0 0);
   log_at 4 (datetime_of 2026 11 1 21 0 0 0);
   log_at 5 (datetime_of 2026 11 2 21 0 0 0);
   log_at 5 (datetime_of 2026 11 3 21 0 0 0);
   log_at 5 (datetime_of 2026 11 4 9 0 0 0)].

(** The mean [s/n] in hundredths, rounded to the nearest hundredth with a
    tie going up, and with a tie going to the even hundredth: the two
    policies the specification names for [avg_mood]. *)
Definition round_half_up_100 (s n : Z) : Z := (200 * s + n) / (2 * n).

Definition round_half_even_100 (s n : Z) : Z :=
  let q := 100 * s / n in
  let r := 100 * s mod n in
  if 2 * r <? n then q
  else if n <? 2 * r then q + 1
  else if Z.even q then q else q + 1.

(** Forty records of today, 37 with the mood 1 and 3 with the mood 2: the
    mean is 43/40 = 1.075, halfway between 1.07 and 1.08. *)
Definition tie_logs : list MoodLog :=
  repeat (log_at 1 (datetime_of 2026 11 4 8 0 0 0)) 37
  ++ repeat (log_at 2 (datetime_of 2026 11 4 9 0 0 0)) 3.

(** A record logged at 23:30 on 2026-03-28, and the noon after it. *)
Definition gap_log : MoodLog := log_at 3 (datetime_of 2026 3 28 23 30 0 0).
Definition gap_noon : datetime := datetime_of 2026 3 29 12 0 0 0.

(** The results of the scenarios. *)
Definition scenario2_result : Insights :=
  mk_Insights (Some (decimal2 167)) 3 1 [mk_DayAvg "2026-11-04" (decimal2 167)].

Definition scenario3_result : Insights :=
  mk_Insights (Some (decimal2 460)) 5 5
    [mk_DayAvg "2026-10-31" (decimal2 400);
     mk_DayAvg "2026-11-01" (decimal2 400);
     mk_DayAvg "2026-11-02" (decimal2 500);
     mk_DayAvg "2026-11-03" (decimal2 500);
     mk_DayAvg "2026-11-04" (decimal2 500)].

(** The days of a month in a year that is, or is not, a leap year. *)
Definition days_in_month (leapyear : bool) (month : Z) : Z :=
  DAYS_IN_MONTH month + (if (month =? 2) && leapyear then 1 else 0).

(** The month and the day found for the zero-based day [n] of a year give
    [n] back, and the day exists in the month. *)
Definition month_day_inv_ok (leapyear : bool) (n : Z) : bool :=
  let '(m, d) := CalendarAux.month_day n leapyear in
  (DAYS_BEFORE_MONTH m + (if (2 <? m) && leapyear then 1 else 0) + d =? n + 1)
  && (d <=? days_in_month leapyear m).

(** A database that keeps the calls of [create_document] in order and
    answers the [n]-th call with [answer n]. *)
Definition recording {Exn Id : Type} (answer : nat -> Exn + Id)
    (collection : string) (doc : document) (calls : list (string * document))
  : (Exn + Id) * list (string * document) :=
  (answer (length calls), calls ++ [(collection, doc)]).

(** The collections of [schemas], one for each model. *)
Definition COLLECTIONS : list string :=
  [ "userprofile"; "moodlog"; "suggestionengagement"; "journalentry";
    "appevent" ]%string.

(** The event a document carries. *)
Definition event_of (doc : document) : option string :=
  match doc with
  | Dict d =>
      match dict_get d "event" VNone with
      | VStr s => Some s
      | _ => None
      end
  | EventModel e => Some (ae_event e)
  | EngagementModel _ => None
  end.

(** What the schema has checked of the body of a request. *)
Definition valid_post (rq : PostRequest) : Prop :=
  match rq with
  | PostEvent evt => valid_AppEvent evt
  | _ => True
  end.

(** A journal entry and an event for the examples. *)
Definition journal_of (t : list Z) : JournalEntry :=
  mk_JournalEntry "u1" t None None scenario_now.

Definition event_dau : AppEvent :=
  mk_AppEvent "u1" "daily_active_user" None scenario_now.

(** [d] without the key [k]. *)
Definition dict_without (k : string) (d : dict) : dict :=
  List.filter (fun kv => negb (String.eqb (fst kv) k)) d.

(** A database without a document for the examples. *)
Definition no_document : string -> dict -> dict -> unit -> option dict :=
  fun _ _ _ _ => None.

(** ** Facts of the calendar *)

Module CalendarFacts.
Import Calendar CalendarAux.

Lemma all_from_spec (f : Z -> bool) (n : nat) (z : Z) :
  all_from f n z = true ->
  forall i, z <= i < z + Z.of_nat n -> f i = true.
Proof.
  revert z. induction n as [|n IH]; intros z H i Hi.
  - lia.
  - simpl in H. apply andb_true_iff in H as [Hz Hrest].
    destruct (Z.eq_dec i z) as [->|Hne]; [exact Hz|].
    apply (IH (z + 1) Hrest). lia.
Qed.

Lemma month_day_checked (leapyear : bool) :
  all_from (month_day_ok leapyear) (Z.to_nat 365) 0 = true.
Proof. destruct leapyear; vm_compute; reflexivity. Qed.

Lemma month_day_facts (leapyear : bool) (n : Z) :
  0 <= n < 365 ->
  1 <= fst (month_day n leapyear) <= 12
  /\ 1 <= snd (month_day n leapyear) <= 31
  /\ (n + 1 < 365 ->
      mdkey (month_day n leapyear) < mdkey (month_day (n + 1) leapyear)).
Proof.
  intros Hn.
  pose proof (all_from_spec _ _ _ (month_day_checked leapyear) n) as H.
  rewrite Z2Nat.id in H by lia. specialize (H ltac:(lia)).
  unfold month_day_ok in H.
  destruct (month_day n leapyear) as [m d]. simpl.
  repeat (apply andb_true_iff in H as [H ?]).
  repeat split; try lia.
  intros Hn1. destruct (Z.ltb_spec (n + 1) 365); [|lia].
  apply Z.ltb_lt. assumption.
Qed.

Lemma ord2ymd_cycle_unfold (n : Z) :
  ord2ymd_cycle n =
  let n100 := n / DI100Y in
  let n4 := (n mod DI100Y) / DI4Y in
  let n1 := ((n mod DI100Y) mod DI4Y) / 365 in
  let r := ((n mod DI100Y) mod DI4Y) mod 365 in
  if (n1 =? 4) || (n100 =? 4) then (100 * n100 + 4 * n4 + n1, 12, 31)
  else
    let md := month_day r ((n1 =? 3) && (negb (n4 =? 24) || (n100 =? 3))) in
    (1 + 100 * n100 + 4 * n4 + n1, fst md, snd md).
Proof.
  unfold ord2ymd_cycle, month_day, Z.div, Z.modulo.
  destruct (Z.div_eucl n DI100Y) as [n100 r1].
  destruct (Z.div_eucl r1 DI4Y) as [n4 r2].
  destruct (Z.div_eucl r2 365) as [n1 r]. cbv zeta.
  destruct ((n1 =? 4) || (n100 =? 4)); [f_equal; f_equal; lia|].
  match goal with |- context [if ?c then _ else _] => destruct c end;
    cbn [fst snd]; f_equal; f_equal; lia.
Qed.

Lemma month_day_first (leapyear : bool) : month_day 0 leapyear = (1, 1).
Proof. destruct leapyear; reflexivity. Qed.

Lemma month_day_last_common : month_day 364 false = (12, 31).
Proof. reflexivity. Qed.

Lemma month_day_last_leap : month_day 364 true = (12, 30).
Proof. reflexivity. Qed.

(** The mixed-radix digits [_ord2ymd] takes from a day of the cycle. *)
Lemma cycle_digits_exist (n : Z) :
  0 <= n < DI400Y ->
  exists a b c r,
    n = 36524 * a + 1461 * b + 365 * c + r
    /\ 0 <= r < 365 /\ 0 <= 365 * c + r < 1461
    /\ 0 <= 1461 * b + 365 * c + r < 36524
    /\ 0 <= a <= 4 /\ 0 <= b <= 24 /\ 0 <= c <= 4
    /\ n / DI100Y = a /\ n mod DI100Y / DI4Y = b
    /\ (n mod DI100Y) mod DI4Y / 365 = c
    /\ ((n mod DI100Y) mod DI4Y) mod 365 = r.
Proof.
  unfold DI400Y, DI100Y, DI4Y. intros Hn.
  pose proof (Z.div_mod n 36524 ltac:(lia)) as E1.
  pose proof (Z.mod_pos_bound n 36524 ltac:(lia)) as B1.
  set (r1 := n mod 36524) in *.
  pose proof (Z.div_mod r1 1461 ltac:(lia)) as E2.
  pose proof (Z.mod_pos_bound r1 1461 ltac:(lia)) as B2.
  set (r2 := r1 mod 1461) in *.
  pose proof (Z.div_mod r2 365 ltac:(lia)) as E3.
  pose proof (Z.mod_pos_bound r2 365 ltac:(lia)) as B3.
  exists (n / 36524), (r1 / 1461), (r2 / 365), (r2 mod 365).
  repeat split; try reflexivity; try lia.
Qed.

Lemma cycle_digits_unique (n a b c r : Z) :
  n = 36524 * a + 1461 * b + 365 * c + r ->
  0 <= r < 365 -> 0 <= 365 * c + r < 1461 ->
  0 <= 1461 * b + 365 * c + r < 36524 ->
  n / DI100Y = a /\ n mod DI100Y / DI4Y = b
  /\ (n mod DI100Y) mod DI4Y / 365 = c
  /\ ((n mod DI100Y) mod DI4Y) mod 365 = r.
Proof.
  unfold DI100Y, DI4Y. intros E Hr Hc Hb.
  assert (Ha : n / 36524 = a).
  { symmetry. apply (Z.div_unique n 36524 a (1461 * b + 365 * c + r)); lia. }
  assert (H1 : n mod 36524 = 1461 * b + 365 * c + r).
  { symmetry. apply (Z.mod_unique n 36524 a); lia. }
  rewrite H1.
  assert (Hb' : (1461 * b + 365 * c + r) / 1461 = b).
  { symmetry. apply (Z.div_unique _ 1461 b (365 * c + r)); lia. }
  assert (H2 : (1461 * b + 365 * c + r) mod 1461 = 365 * c + r).
  { symmetry. apply (Z.mod_unique _ 1461 b); lia. }
  rewrite H2.
  assert (Hc' : (365 * c + r) / 365 = c).
  { symmetry. apply (Z.div_unique _ 365 c r); lia. }
  assert (H3 : (365 * c + r) mod 365 = r).
  { symmetry. apply (Z.mod_unique _ 365 c); lia. }
  auto.
Qed.

(** [ord2ymd_cycle] on a day given by its digits. *)
Lemma ord2ymd_cycle_digits (n a b c r : Z) :
  n = 36524 * a + 1461 * b + 365 * c + r ->
  0 <= r < 365 -> 0 <= 365 * c + r < 1461 ->
  0 <= 1461 * b + 365 * c + r < 36524 ->
  ord2ymd_cycle n =
  if (c =? 4) || (a =? 4) then (100 * a + 4 * b + c, 12, 31)
  else
    let md := month_day r ((c =? 3) && (negb (b =? 24) || (a =? 3))) in
    (1 + 100 * a + 4 * b + c, fst md, snd md).
Proof.
  intros E Hr Hc Hb. rewrite ord2ymd_cycle_unfold. cbv zeta.
  destruct (cycle_digits_unique n a b c r E Hr Hc Hb) as (-> & -> & -> & ->).
  reflexivity.
Qed.

Lemma cycle_fields (n : Z) :
  0 <= n < DI400Y ->
  let '(y, m, d) := ord2ymd_cycle n in
  1 <= y <= 400 /\ 1 <= m <= 12 /\ 1 <= d <= 31.
Proof.
  intros Hn.
  destruct (cycle_digits_exist n Hn)
    as (a & b & c & r & E & Hr & Hc & Hb & Ha & Hb' & Hc' & _).
  rewrite (ord2ymd_cycle_digits n a b c r E Hr Hc Hb).
  unfold DI400Y in Hn.
  destruct (Z.eqb_spec c 4) as [->|Hc4]; [simpl orb; cbv iota; lia|].
  destruct (Z.eqb_spec a 4) as [->|Ha4]; [simpl orb; cbv iota; lia|].
  simpl orb. cbv iota zeta.
  match goal with |- context [month_day r ?l] =>
    pose proof (month_day_facts l r Hr) as (Hm & Hd & _) end.
  split; [lia|]. split; assumption.
Qed.

Lemma cycle_step (n : Z) :
  0 <= n -> n + 1 < DI400Y ->
  datekey (ord2ymd_cycle n) < datekey (ord2ymd_cycle (n + 1)).
Proof.
  intros H0 H1. unfold DI400Y in H1.
  destruct (cycle_digits_exist n ltac:(unfold DI400Y; lia))
    as (a & b & c & r & E & Hr & Hc & Hb & Ha & Hb' & Hc' & _).
  rewrite (ord2ymd_cycle_digits n a b c r E Hr Hc Hb).
  assert (Ha3 : a <= 3) by lia.
  destruct (Z.eqb_spec a 4) as [|_]; [lia|]. rewrite orb_false_r.
  destruct (Z.eqb_spec c 4) as [->|Hc4].
  - (* the last day of a leap year that closes a four-year group *)
    rewrite (ord2ymd_cycle_digits (n + 1) a (b + 1) 0 0) by lia.
    destruct (Z.eqb_spec a 4); [lia|]. simpl orb. simpl andb. cbv iota zeta.
    rewrite month_day_first. unfold datekey. simpl fst. simpl snd. lia.
  - cbv iota zeta.
    destruct (Z_lt_dec r 364) as [Hlt|Hge].
    + (* the next day is in the same year *)
      rewrite (ord2ymd_cycle_digits (n + 1) a b c (r + 1)) by lia.
      destruct (Z.eqb_spec a 4); [lia|]. rewrite orb_false_r.
      destruct (Z.eqb_spec c 4); [lia|]. cbv iota zeta.
      match goal with |- context [month_day r ?l] =>
        pose proof (month_day_facts l r Hr) as (Hm & Hd & Hk);
        pose proof (month_day_facts l (r + 1) ltac:(lia)) as (Hm' & Hd' & _) end.
      specialize (Hk ltac:(lia)). unfold mdkey, datekey in *. lia.
    + assert (r = 364) as -> by lia.
      destruct (Z.eqb_spec c 3) as [->|Hc3].
      * destruct (Z.eqb_spec b 24) as [->|Hb24].
        -- (* the last day of a century *)
           rewrite (ord2ymd_cycle_digits (n + 1) (a + 1) 0 0 0) by lia.
           simpl negb. simpl orb. simpl andb.
           destruct (Z.eqb_spec a 3) as [->|Ha3'].
           ++ simpl Z.eqb. simpl orb. cbv iota zeta. rewrite month_day_last_leap.
              unfold datekey. simpl fst. simpl snd. lia.
           ++ destruct (Z.eqb_spec (a + 1) 4); [lia|]. simpl Z.eqb. simpl orb.
              simpl andb. cbv iota zeta.
              rewrite month_day_last_common, month_day_first.
              unfold datekey. simpl fst. simpl snd. lia.
        -- (* the day before the last of a leap year *)
           rewrite (ord2ymd_cycle_digits (n + 1) a b 4 0) by lia.
           simpl negb. simpl orb. simpl andb. cbv iota zeta.
           rewrite month_day_last_leap. unfold datekey. simpl fst. simpl snd. lia.
      * (* the last day of a common year *)
        rewrite (ord2ymd_cycle_digits (n + 1) a b (c + 1) 0) by lia.
        destruct (Z.eqb_spec a 4); [lia|]. rewrite orb_false_r.
        destruct (Z.eqb_spec (c + 1) 4); [lia|]. simpl andb. cbv iota zeta.
        rewrite month_day_last_common, month_day_first.
        unfold datekey. simpl fst. simpl snd. lia.
Qed.

Lemma cycle_last : datekey (ord2ymd_cycle (DI400Y - 1)) = 4001231.
Proof. reflexivity. Qed.

Lemma cycle_first : datekey (ord2ymd_cycle 0) = 10101.
Proof. reflexivity. Qed.

Lemma ord2ymd_split (n : Z) :
  ord2ymd n =
  let '(y, m, d) := ord2ymd_cycle ((n - 1) mod DI400Y) in
  ((n - 1) / DI400Y * 400 + y, m, d).
Proof.
  unfold ord2ymd, Z.modulo, Z.div.
  destruct (Z.div_eucl (n - 1) DI400Y) as [q r]. reflexivity.
Qed.

Lemma datekey_ord2ymd (n : Z) :
  datekey (ord2ymd n) =
  (n - 1) / DI400Y * 4000000 + datekey (ord2ymd_cycle ((n - 1) mod DI400Y)).
Proof.
  rewrite ord2ymd_split.
  destruct (ord2ymd_cycle ((n - 1) mod DI400Y)) as [[y m] d].
  unfold datekey. lia.
Qed.

Lemma datekey_succ (n : Z) : datekey (ord2ymd n) < datekey (ord2ymd (n + 1)).
Proof.
  rewrite !datekey_ord2ymd.
  replace (n + 1 - 1) with (n - 1 + 1) by lia.
  set (k := n - 1).
  assert (HD : DI400Y = 146097) by reflexivity.
  pose proof (Z.mod_pos_bound k DI400Y ltac:(lia)) as Hr.
  pose proof (Z.div_mod k DI400Y ltac:(lia)) as Hk.
  destruct (Z.eq_dec (k mod DI400Y) (DI400Y - 1)) as [Hlast|Hne].
  - assert (Hq : (k + 1) / DI400Y = k / DI400Y + 1).
    { symmetry. apply (Z.div_unique (k + 1) DI400Y (k / DI400Y + 1) 0); lia. }
    assert (Hm : (k + 1) mod DI400Y = 0).
    { symmetry. apply (Z.mod_unique (k + 1) DI400Y (k / DI400Y + 1) 0); lia. }
    rewrite Hq, Hm, Hlast, cycle_last, cycle_first. lia.
  - assert (Hq : (k + 1) / DI400Y = k / DI400Y).
    { symmetry. apply (Z.div_unique (k + 1) DI400Y (k / DI400Y) (k mod DI400Y + 1)); lia. }
    assert (Hm : (k + 1) mod DI400Y = k mod DI400Y + 1).
    { symmetry. apply (Z.mod_unique (k + 1) DI400Y (k / DI400Y) (k mod DI400Y + 1)); lia. }
    rewrite Hq, Hm.
    pose proof (cycle_step (k mod DI400Y) ltac:(lia) ltac:(lia)). lia.
Qed.

Lemma datekey_mono (a b : Z) : a < b -> datekey (ord2ymd a) < datekey (ord2ymd b).
Proof.
  intros Hab.
  assert (H : forall k : nat, datekey (ord2ymd a) < datekey (ord2ymd (a + 1 + Z.of_nat k))).
  { induction k as [|k IH].
    - replace (a + 1 + Z.of_nat 0) with (a + 1) by lia. apply datekey_succ.
    - replace (a + 1 + Z.of_nat (S k)) with (a + 1 + Z.of_nat k + 1) by lia.
      pose proof (datekey_succ (a + 1 + Z.of_nat k)). lia. }
  specialize (H (Z.to_nat (b - a - 1))).
  replace (a + 1 + Z.of_nat (Z.to_nat (b - a - 1))) with b in H by lia.
  exact H.
Qed.

Lemma ord2ymd_fields (n : Z) :
  valid_ordinal n ->
  let '(y, m, d) := ord2ymd n in
  1 <= y <= 9999 /\ 1 <= m <= 12 /\ 1 <= d <= 31.
Proof.
  intros [Hlo Hhi]. unfold MINORDINAL, MAXORDINAL in *.
  assert (Hmin : datekey (ord2ymd 1) = 10101) by reflexivity.
  assert (Hmax : datekey (ord2ymd 3652059) = 99991231) by reflexivity.
  assert (H1 : 10101 <= datekey (ord2ymd n)).
  { destruct (Z.eq_dec n 1) as [->|]; [lia|].
    pose proof (datekey_mono 1 n ltac:(lia)). lia. }
  assert (H2 : datekey (ord2ymd n) <= 99991231).
  { destruct (Z.eq_dec n 3652059) as [->|]; [lia|].
    pose proof (datekey_mono n 3652059 ltac:(lia)). lia. }
  rewrite ord2ymd_split in *.
  assert (HD : DI400Y = 146097) by reflexivity.
  assert (Hpos : 0 < DI400Y) by lia.
  pose proof (cycle_fields ((n - 1) mod DI400Y) (Z.mod_pos_bound _ _ Hpos)) as Hf.
  destruct (ord2ymd_cycle ((n - 1) mod DI400Y)) as [[y m] d].
  unfold datekey in H1, H2. lia.
Qed.
Lemma pad4_checked : all_from pad4_ok (Z.to_nat 10000) 0 = true.
Proof. vm_compute. reflexivity. Qed.

Lemma pad2_checked : all_from pad2_ok (Z.to_nat 100) 0 = true.
Proof. vm_compute. reflexivity. Qed.

Lemma zero_pad4 (n : Z) : 0 <= n < 10000 -> zero_pad 4 n = digits4 n EmptyString.
Proof.
  intros Hn. apply String.eqb_eq.
  apply (all_from_spec pad4_ok _ _ pad4_checked).
  rewrite Z2Nat.id; lia.
Qed.

Lemma zero_pad2 (n : Z) : 0 <= n < 100 -> zero_pad 2 n = digits2 n EmptyString.
Proof.
  intros Hn. apply String.eqb_eq.
  apply (all_from_spec pad2_ok _ _ pad2_checked).
  rewrite Z2Nat.id; lia.
Qed.

Lemma compare_digit_char (a b : Z) :
  0 <= a <= 9 -> 0 <= b <= 9 -> Ascii.compare (digit a) (digit b) = (a ?= b).
Proof.
  intros Ha Hb. unfold Ascii.compare, digit.
  rewrite !N_ascii_embedding by lia.
  rewrite <- N2Z.inj_compare, !N2Z.inj_add, !Z2N.id by lia.
  simpl Z.of_N. apply Z.add_compare_mono_l.
Qed.

Lemma compare_digit (a b : Z) (s t : string) :
  0 <= a <= 9 -> 0 <= b <= 9 ->
  String.compare (String (digit a) s) (String (digit b) t) =
  match a ?= b with Eq => String.compare s t | c => c end.
Proof.
  intros Ha Hb. simpl. rewrite compare_digit_char by assumption.
  destruct (a ?= b); reflexivity.
Qed.

Lemma compare_digits2 (n n' : Z) (s t : string) :
  0 <= n < 100 -> 0 <= n' < 100 ->
  String.compare (digits2 n s) (digits2 n' t) =
  match n ?= n' with Eq => String.compare s t | c => c end.
Proof.
  intros Hn Hn'. unfold digits2.
  rewrite !compare_digit by (Z.to_euclidean_division_equations; lia).
  destruct (Z.compare_spec (n / 10) (n' / 10));
    destruct (Z.compare_spec (n mod 10) (n' mod 10));
    destruct (Z.compare_spec n n'); try reflexivity;
    exfalso; Z.to_euclidean_division_equations; lia.
Qed.

Lemma compare_digits4 (n n' : Z) (s t : string) :
  0 <= n < 10000 -> 0 <= n' < 10000 ->
  String.compare (digits4 n s) (digits4 n' t) =
  match n ?= n' with Eq => String.compare s t | c => c end.
Proof.
  intros Hn Hn'.
  assert (E : forall k, 0 <= k < 10000 ->
            digits4 k = fun r => digits2 (k / 100) (digits2 (k mod 100) r)).
  { intros k Hk. unfold digits4, digits2.
    replace (k / 100 / 10) with (k / 1000) by (Z.to_euclidean_division_equations; lia).
    replace ((k / 100) mod 10) with (k / 100 mod 10) by reflexivity.
    replace (k mod 100 / 10) with (k / 10 mod 10) by (Z.to_euclidean_division_equations; lia).
    replace ((k mod 100) mod 10) with (k mod 10) by (Z.to_euclidean_division_equations; lia).
    reflexivity. }
  rewrite (E n Hn), (E n' Hn').
  rewrite !compare_digits2 by (Z.to_euclidean_division_equations; lia).
  destruct (Z.compare_spec (n / 100) (n' / 100));
    destruct (Z.compare_spec (n mod 100) (n' mod 100));
    destruct (Z.compare_spec n n'); try reflexivity;
    exfalso; Z.to_euclidean_division_equations; lia.
Qed.

Lemma isoformat_digits (n : Z) :
  valid_ordinal n ->
  isoformat n =
  let '(y, m, d) := ord2ymd n in
  digits4 y (String "-" (digits2 m (String "-" (digits2 d EmptyString)))).
Proof.
  intros Hn. pose proof (ord2ymd_fields n Hn) as Hf. unfold isoformat.
  destruct (ord2ymd n) as [[y m] d].
  rewrite zero_pad4, !zero_pad2 by lia. reflexivity.
Qed.

Lemma compare_dash (s t : string) :
  String.compare (String "-" s) (String "-" t) = String.compare s t.
Proof. reflexivity. Qed.

Lemma isoformat_compare_key (a b : Z) :
  valid_ordinal a -> valid_ordinal b ->
  String.compare (isoformat a) (isoformat b)
  = (datekey (ord2ymd a) ?= datekey (ord2ymd b)).
Proof.
  intros Ha Hb.
  rewrite (isoformat_digits a Ha), (isoformat_digits b Hb).
  pose proof (ord2ymd_fields a Ha) as Hfa.
  pose proof (ord2ymd_fields b Hb) as Hfb.
  destruct (ord2ymd a) as [[y m] d], (ord2ymd b) as [[y' m'] d'].
  rewrite compare_digits4, compare_dash, compare_digits2, compare_dash,
    compare_digits2 by lia.
  unfold datekey. simpl String.compare.
  destruct (Z.compare_spec y y'); destruct (Z.compare_spec m m');
    destruct (Z.compare_spec d d');
    destruct (Z.compare_spec (y * 10000 + m * 100 + d) (y' * 10000 + m' * 100 + d'));
    try reflexivity; exfalso; lia.
Qed.

Lemma isoformat_compare (a b : Z) :
  valid_ordinal a -> valid_ordinal b ->
  String.compare (isoformat a) (isoformat b) = (a ?= b).
Proof.
  intros Ha Hb. rewrite isoformat_compare_key by assumption.
  destruct (Z.compare_spec a b) as [->|Hlt|Hgt].
  - apply Z.compare_refl.
  - apply Z.compare_lt_iff. apply datekey_mono. exact Hlt.
  - apply Z.compare_gt_iff. apply datekey_mono. exact Hgt.
Qed.

Lemma isoformat_inj (a b : Z) :
  valid_ordinal a -> valid_ordinal b -> isoformat a = isoformat b -> a = b.
Proof.
  intros Ha Hb E. apply Z.compare_eq.
  rewrite <- (isoformat_compare a b Ha Hb), E.
  destruct (String.compare (isoformat b) (isoformat b)) eqn:C; [reflexivity| |].
  - pose proof (String.compare_antisym (isoformat b) (isoformat b)) as A.
    rewrite C in A. discriminate.
  - pose proof (String.compare_antisym (isoformat b) (isoformat b)) as A.
    rewrite C in A. discriminate.
Qed.

Lemma isoformat_lt (a b : Z) :
  valid_ordinal a -> valid_ordinal b ->
  a < b -> String.ltb (isoformat a) (isoformat b) = true.
Proof.
  intros Ha Hb Hab. unfold String.ltb.
  rewrite isoformat_compare by assumption.
  apply Z.compare_lt_iff in Hab. rewrite Hab. reflexivity.
Qed.

End CalendarFacts.

Import CalendarAux CalendarFacts.

(** ** Rounding of binary64 quotients *)

Lemma digits2_pos_size (p : positive) : digits2_pos p = Pos.size p.
Proof. induction p as [p IH|p IH|]; simpl; congruence. Qed.

Lemma Zdigits2_log2 (m : Z) : 0 < m -> Zdigits2 m = Z.log2 m + 1.
Proof.
  destruct m as [|p|p]; try lia. intros _. simpl. rewrite digits2_pos_size.
  destruct p as [p|p|]; simpl; lia.
Qed.

Lemma Zdigits2_unique (m k : Z) : 0 < k -> 2 ^ (k - 1) <= m < 2 ^ k -> Zdigits2 m = k.
Proof.
  intros Hk [Hlo Hhi].
  assert (0 < m) by (pose proof (Z.pow_pos_nonneg 2 (k - 1)); lia).
  rewrite Zdigits2_log2 by assumption.
  rewrite (Z.log2_unique m (k - 1)); [lia|lia|].
  replace (Z.succ (k - 1)) with k by lia. lia.
Qed.

(** The place of the remainder [r] of a division by [n] between two
    consecutive quotients. *)
Lemma new_location_rem (n r : Z) :
  0 <= r < n ->
  new_location n r = if r =? 0 then loc_Exact else loc_Inexact (2 * r ?= n).
Proof.
  intros Hr. unfold new_location, new_location_even, new_location_odd.
  destruct (Z.even n) eqn:En; [reflexivity|].
  destruct (Z.eqb_spec r 0); [reflexivity|]. f_equal.
  assert (Hodd : Z.odd n = true) by (rewrite <- Z.negb_even, En; reflexivity).
  apply Z.odd_spec in Hodd as [k Hk].
  destruct (Z.compare_spec (2 * r + 1) n); destruct (Z.compare_spec (2 * r) n);
    try reflexivity; lia.
Qed.

Lemma shr_1_pos (m : Z) (r s : bool) :
  0 < m ->
  shr_1 (Build_shr_record m r s) = Build_shr_record (m / 2) (Z.odd m) (r || s).
Proof.
  intros Hm. rewrite <- Z.div2_div.
  destruct m as [|p|p]; try lia. destruct p; reflexivity.
Qed.

Lemma shr_fexp_53 (m e : Z) (l : location) :
  2 ^ 52 <= m < 2 ^ 53 -> -1074 <= e ->
  shr_fexp prec emax m e l = (shr_record_of_loc m l, e).
Proof.
  intros Hm He. unfold shr_fexp.
  rewrite (Zdigits2_unique m 53) by (simpl; lia).
  unfold fexp, emin, prec, emax.
  replace (Z.max (53 + e - 53) (3 - 1024 - 53) - e) with 0 by lia.
  reflexivity.
Qed.

Lemma shr_fexp_54 (m e : Z) (l : location) :
  2 ^ 53 <= m < 2 ^ 54 -> -1074 <= e ->
  shr_fexp prec emax m e l = (shr_1 (shr_record_of_loc m l), e + 1).
Proof.
  intros Hm He. unfold shr_fexp.
  rewrite (Zdigits2_unique m 54) by (simpl; lia).
  unfold fexp, emin, prec, emax.
  replace (Z.max (54 + e - 53) (3 - 1024 - 53) - e) with 1 by lia.
  reflexivity.
Qed.

Lemma loc_of_shr_record_of_loc (m : Z) (l : location) :
  loc_of_shr_record (shr_record_of_loc m l) = l.
Proof. destruct l as [|[| |]]; reflexivity. Qed.

Lemma shr_m_of_loc (m : Z) (l : location) : shr_m (shr_record_of_loc m l) = m.
Proof. destruct l as [|[| |]]; reflexivity. Qed.

(** The last step of [binary_round_aux]: a rounded mantissa of 53 bits is
    kept, the carry [2^53] is renormalised. *)
Lemma round_finish (m e : Z) :
  2 ^ 52 <= m <= 2 ^ 53 -> -1074 <= e <= 970 ->
  (let '(mrs, e') := shr_fexp prec emax m e loc_Exact in
   match shr_m mrs with
   | Z0 => S754_zero false
   | Zpos p => if e' <=? emax - prec then S754_finite false p e' else S754_infinity false
   | Zneg _ => S754_nan
   end)
  = if m <? 2 ^ 53 then S754_finite false (Z.to_pos m) e
    else S754_finite false (Z.to_pos (2 ^ 52)) (e + 1).
Proof.
  intros Hm He. destruct (Z.ltb_spec m (2 ^ 53)) as [Hlt|Hge].
  - rewrite shr_fexp_53 by lia. simpl shr_m.
    destruct m as [|p|p]; try (simpl in Hm; lia).
    destruct (Z.leb_spec e (emax - prec)); [reflexivity|unfold emax, prec in *; lia].
  - assert (m = 2 ^ 53) as -> by lia.
    rewrite shr_fexp_54 by lia.
    change (2 ^ 53) with 9007199254740992. change (2 ^ 52) with 4503599627370496.
    unfold emax, prec. cbn [shr_record_of_loc shr_1 shr_m Z.to_pos].
    destruct (Z.leb_spec (e + 1) (1024 - 53)); [reflexivity|lia].
Qed.

Lemma rne_rem (q n r : Z) :
  0 <= r < n ->
  let m := round_nearest_even q (loc_of_rem n r) in
  (m = q \/ m = q + 1) /\ 2 * Z.abs (m * n - (q * n + r)) <= n.
Proof.
  intros Hr. unfold loc_of_rem, round_nearest_even.
  destruct (Z.eqb_spec r 0) as [->|Hr0].
  - split; [auto|]. replace (q * n - (q * n + 0)) with 0 by lia. simpl. lia.
  - destruct (Z.compare_spec (2 * r) n) as [E|L|G].
    + destruct (Z.even q); (split; [auto|]).
      * replace (q * n - (q * n + r)) with (- r) by lia. lia.
      * replace ((q + 1) * n - (q * n + r)) with (n - r) by lia. lia.
    + split; [auto|]. replace (q * n - (q * n + r)) with (- r) by lia. lia.
    + split; [auto|]. replace ((q + 1) * n - (q * n + r)) with (n - r) by lia. lia.
Qed.

Lemma rne_rem_shift (q n r : Z) :
  0 < q -> 0 <= r < n ->
  let mrs := shr_1 (shr_record_of_loc q (loc_of_rem n r)) in
  let m := round_nearest_even (shr_m mrs) (loc_of_shr_record mrs) in
  (m = q / 2 \/ m = q / 2 + 1) /\ 2 * Z.abs (m * 2 * n - (q * n + r)) <= 2 * n.
Proof.
  intros Hq Hr.
  assert (Hrec : shr_1 (shr_record_of_loc q (loc_of_rem n r))
                 = Build_shr_record (q / 2) (Z.odd q) (negb (r =? 0))).
  { unfold loc_of_rem. destruct (Z.eqb_spec r 0).
    - simpl shr_record_of_loc. rewrite shr_1_pos by assumption. reflexivity.
    - destruct (2 * r ?= n); simpl shr_record_of_loc;
        rewrite shr_1_pos by assumption; reflexivity. }
  cbv zeta. rewrite Hrec. cbn [shr_m].
  pose proof (Z.div_mod q 2 ltac:(lia)) as Hdm.
  rewrite Zmod_odd in Hdm.
  set (q2 := q / 2) in *.
  destruct (Z.odd q); destruct (Z.eqb_spec r 0) as [->|Hr0];
    cbn [negb loc_of_shr_record round_nearest_even].
  - destruct (Z.even q2); (split; [auto|]).
    + replace (q2 * 2 * n - (q * n + 0)) with (- n) by nia. lia.
    + replace ((q2 + 1) * 2 * n - (q * n + 0)) with n by nia. lia.
  - split; [auto|].
    replace ((q2 + 1) * 2 * n - (q * n + r)) with (n - r) by nia. lia.
  - split; [auto|]. replace (q2 * 2 * n - (q * n + 0)) with 0 by nia. simpl. lia.
  - split; [auto|]. replace (q2 * 2 * n - (q * n + r)) with (- r) by nia. lia.
Qed.

(** [binary_round_aux] on a quotient [q + r/n] of 53 or 54 bits: the result
    is a double [mf * 2^(e+j)] at most half a unit in the last place away. *)
Lemma binary_round_aux_quotient (q e n r : Z) :
  0 <= r < n -> 2 ^ 52 <= q < 2 ^ 54 -> -1074 <= e <= 960 ->
  exists mf j,
    binary_round_aux prec emax false q e (loc_of_rem n r)
    = S754_finite false (Z.to_pos mf) (e + j)
    /\ 0 <= j <= 2 /\ 2 ^ 52 <= mf < 2 ^ 53
    /\ 2 * Z.abs (mf * 2 ^ j * n - (q * n + r)) <= 2 ^ j * n.
Proof.
  intros Hr Hq He. unfold binary_round_aux.
  destruct (Z_lt_dec q (2 ^ 53)) as [H53|H54].
  - rewrite shr_fexp_53 by lia.
    rewrite loc_of_shr_record_of_loc, shr_m_of_loc.
    destruct (rne_rem q n r Hr) as [Hm Herr].
    set (m := round_nearest_even q (loc_of_rem n r)) in *.
    rewrite round_finish by lia.
    destruct (Z.ltb_spec m (2 ^ 53)) as [Hlt|Hge].
    + exists m, 0. rewrite Z.add_0_r. split; [reflexivity|].
      split; [lia|]. split; [lia|].
      change (2 ^ 0) with 1. rewrite Z.mul_1_r, Z.mul_1_l. exact Herr.
    + exists (2 ^ 52), 1. split; [reflexivity|]. split; [lia|]. split; [lia|].
      assert (m = 2 ^ 53) as Em by lia.
      change (2 ^ 1) with 2.
      replace (2 ^ 52 * 2 * n - (q * n + r)) with (m * n - (q * n + r))
        by (rewrite Em; change (2 ^ 53) with (2 ^ 52 * 2); lia).
      lia.
  - rewrite shr_fexp_54 by lia.
    destruct (rne_rem_shift q n r ltac:(lia) Hr) as [Hm Herr].
    set (mrs := shr_1 (shr_record_of_loc q (loc_of_rem n r))) in *.
    set (m := round_nearest_even (shr_m mrs) (loc_of_shr_record mrs)) in *.
    assert (Hq2 : 2 ^ 52 <= q / 2 < 2 ^ 53).
    { change (2 ^ 54) with (2 * 2 ^ 53) in Hq. change (2 ^ 53) with (2 * 2 ^ 52) in H54.
      split; [apply Z.div_le_lower_bound; lia|apply Z.div_lt_upper_bound; lia]. }
    rewrite round_finish by lia.
    destruct (Z.ltb_spec m (2 ^ 53)) as [Hlt|Hge].
    + exists m, 1. split; [reflexivity|]. split; [lia|]. split; [lia|].
      change (2 ^ 1) with 2. exact Herr.
    + exists (2 ^ 52), 2. split; [f_equal; lia|]. split; [lia|]. split; [lia|].
      assert (m = 2 ^ 53) as Em by lia.
      change (2 ^ 2) with 4.
      replace (2 ^ 52 * 4 * n - (q * n + r)) with (m * 2 * n - (q * n + r))
        by (rewrite Em; change (2 ^ 53) with (2 ^ 52 * 2); lia).
      lia.
Qed.

(** The quotient of two positive integers whose ratio is between 1 and 5:
    a normal double within half a unit in the last place of the ratio. *)
Lemma int_true_div_spec (s n : Z) :
  0 < n -> n <= s <= 5 * n ->
  exists mf ef,
    int_true_div s n = S754_finite false (Z.to_pos mf) ef
    /\ -53 <= ef <= -48 /\ 2 ^ 52 <= mf < 2 ^ 53
    /\ 2 * Z.abs (mf * n - s * 2 ^ (- ef)) <= n.
Proof.
  intros Hn Hs.
  pose proof (Z.log2_spec n Hn) as Ln.
  pose proof (Z.log2_spec s ltac:(lia)) as Ls.
  pose proof (Z.log2_nonneg n) as Ln0.
  assert (HD : 0 <= Z.log2 s - Z.log2 n <= 3).
  { split.
    - pose proof (Z.log2_le_mono n s ltac:(lia)). lia.
    - pose proof (Z.log2_le_mono s (n * 2 ^ 3) ltac:(lia)) as H.
      rewrite Z.log2_mul_pow2 in H by lia. lia. }
  set (D := Z.log2 s - Z.log2 n) in *.
  set (d := 2 ^ (53 - D)).
  assert (Hd : 0 < d) by (apply Z.pow_pos_nonneg; lia).
  assert (Hcore : SFdiv_core_binary prec emax s 0 n 0
                  = (s * d / n, D - 53, loc_of_rem n ((s * d) mod n))).
  { unfold SFdiv_core_binary.
    rewrite !Zdigits2_log2 by lia. rewrite !Z.add_0_r.
    replace (Z.log2 s + 1 - (Z.log2 n + 1)) with D by (unfold D; lia).
    unfold fexp, emin, prec, emax.
    replace (Z.min (Z.max (D - 53) (3 - 1024 - 53)) (0 - 0)) with (D - 53) by lia.
    replace (0 - 0 - (D - 53)) with (53 - D) by lia.
    assert (Hsh : match 53 - D with
                  | 0 => s | Z.pos _ => Z.shiftl s (53 - D) | Z.neg _ => 0
                  end = s * d).
    { unfold d. destruct (53 - D) eqn:E; try lia.
      apply Z.shiftl_mul_pow2. lia. }
    rewrite Hsh. unfold Z.div, Z.modulo.
    pose proof (Z_div_mod (s * d) n ltac:(lia)) as Hdm.
    destruct (Z.div_eucl (s * d) n) as [q r]. destruct Hdm as [_ Hr].
    rewrite new_location_rem by exact Hr. reflexivity. }
  pose proof (Z.div_mod (s * d) n ltac:(lia)) as Hdm.
  pose proof (Z.mod_pos_bound (s * d) n Hn) as Hr.
  set (q := s * d / n) in *. set (r := (s * d) mod n) in *.
  assert (Hpow1 : 2 ^ Z.succ (Z.log2 s) * d = 2 ^ 54 * 2 ^ Z.log2 n).
  { unfold d. rewrite <- !Z.pow_add_r by lia. f_equal. unfold D. lia. }
  assert (Hpow2 : 2 ^ Z.log2 s * d = 2 ^ 53 * 2 ^ Z.log2 n).
  { unfold d. rewrite <- !Z.pow_add_r by lia. f_equal. unfold D. lia. }
  assert (Hq : 2 ^ 52 <= q < 2 ^ 54).
  { rewrite Z.pow_succ_r in Ln by lia.
    split.
    - assert (2 ^ 52 * n < (q + 1) * n); [|nia].
      assert (2 ^ 53 * 2 ^ Z.log2 n <= s * d) by (rewrite <- Hpow2; nia).
      change (2 ^ 53) with (2 ^ 52 * 2) in *. nia.
    - assert (q * n < 2 ^ 54 * n); [|nia].
      assert (s * d < 2 ^ 54 * 2 ^ Z.log2 n) by (rewrite <- Hpow1; nia).
      nia. }
  destruct (binary_round_aux_quotient q (D - 53) n r Hr Hq ltac:(lia))
    as (mf & j & Hbra & Hj & Hmf & Herr).
  exists mf, (D - 53 + j). split; [|split; [lia|split; [exact Hmf|]]].
  - unfold int_true_div, SFdiv.
    destruct s as [|ps|ps], n as [|pn|pn]; try lia.
    cbn [exact_of_int xorb]. rewrite Hcore. exact Hbra.
  - replace (- (D - 53 + j)) with (53 - D - j) by lia.
    assert (Hdj : d = 2 ^ (53 - D - j) * 2 ^ j).
    { unfold d. rewrite <- Z.pow_add_r by lia. f_equal. lia. }
    set (df := 2 ^ (53 - D - j)) in *.
    assert (H2j : 0 < 2 ^ j) by (apply Z.pow_pos_nonneg; lia).
    replace (mf * 2 ^ j * n - (q * n + r))
      with (2 ^ j * (mf * n - s * df)) in Herr
      by (rewrite <- Z.mul_comm in Hdm; rewrite Hdj in Hdm; nia).
    rewrite Z.abs_mul, (Z.abs_eq (2 ^ j)) in Herr by lia.
    nia.
Qed.

Lemma nearest_scaled_spec (mf ef : Z) :
  0 < mf -> ef < 0 ->
  2 * Z.abs (100 * mf - nearest_scaled (Z.to_pos mf) ef 2 * 2 ^ (- ef)) <= 2 ^ (- ef).
Proof.
  intros Hm He. unfold nearest_scaled.
  rewrite Z2Pos.id by exact Hm. change (10 ^ 2) with 100.
  destruct (Z.leb_spec 0 ef); [lia|].
  set (d := 2 ^ (- ef)).
  assert (Hd : 0 < d) by (apply Z.pow_pos_nonneg; lia).
  pose proof (Z.div_mod (mf * 100) d ltac:(lia)) as Hdm.
  pose proof (Z.mod_pos_bound (mf * 100) d Hd) as Hr.
  set (q := mf * 100 / d) in *. set (r := (mf * 100) mod d) in *.
  destruct (Z.compare_spec (2 * r) d) as [E|L|G].
  - destruct (Z.even q).
    + replace (100 * mf - q * d) with r by lia. lia.
    + replace (100 * mf - (q + 1) * d) with (r - d) by lia. lia.
  - replace (100 * mf - q * d) with r by lia. lia.
  - replace (100 * mf - (q + 1) * d) with (r - d) by lia. lia.
Qed.

(** The mean of [n] moods between 1 and 5, rounded by [round(_, 2)]: the
    double written [h/100] for an integer [h] with [h/100] nearest to the
    exact mean [s/n] among the decimals of two places. *)
Lemma mean_rounding (s n : Z) :
  0 < n -> n <= s <= 5 * n -> n < 2 ^ 40 ->
  exists h,
    py_round (int_true_div s n) 2 = decimal2 h
    /\ 100 <= h <= 500
    /\ 2 * Z.abs (100 * s - h * n) <= n.
Proof.
  intros Hn Hs Hlen.
  destruct (int_true_div_spec s n Hn Hs) as (mf & ef & Hdiv & Hef & Hmf & HA).
  pose proof (nearest_scaled_spec mf ef ltac:(lia) ltac:(lia)) as HB.
  set (h := nearest_scaled (Z.to_pos mf) ef 2) in *.
  assert (HC : 2 * Z.abs (100 * s - h * n) <= n).
  { set (df := 2 ^ (- ef)) in *.
    assert (Hdf : 2 ^ 48 <= df).
    { unfold df. apply Z.pow_le_mono_r; lia. }
    assert (Hsmall : 100 * n < df).
    { change (2 ^ 40) with 1099511627776 in Hlen.
      change (2 ^ 48) with 281474976710656 in Hdf. lia. }
    assert (Hid : df * (100 * s - h * n)
                  = n * (100 * mf - h * df) - 100 * (mf * n - s * df)) by ring.
    set (X := 100 * s - h * n) in *.
    set (U := mf * n - s * df) in *.
    set (V := 100 * mf - h * df) in *.
    assert (HnV : 2 * Z.abs (n * V) <= n * df).
    { rewrite Z.abs_mul, (Z.abs_eq n) by lia. nia. }
    assert (H2 : 2 * Z.abs (df * X) <= n * df + 100 * n).
    { rewrite Hid. pose proof (Z.abs_triangle (n * V) (- (100 * U))) as T.
      replace (n * V + - (100 * U)) with (n * V - 100 * U) in T by lia.
      rewrite Z.abs_opp, Z.abs_mul in T. simpl Z.abs in T. lia. }
    rewrite Z.abs_mul, (Z.abs_eq df) in H2 by lia.
    destruct (Z_le_gt_dec (2 * Z.abs X) n) as [Hle|Hgt]; [exact Hle|].
    exfalso. assert (df * (n + 1) <= df * (2 * Z.abs X)) by (apply Z.mul_le_mono_nonneg_l; lia).
    lia. }
  exists h. split; [|split; [|exact HC]].
  - rewrite Hdiv. unfold py_round, decimal2, int_true_div. fold h.
    assert (0 < h) by (destruct (Z_lt_le_dec 0 h); [assumption|nia]).
    destruct h as [|p|p]; try lia. reflexivity.
  - nia.
Qed.

Lemma decimal2_lt_3_checked : all_from decimal2_lt_3_ok (Z.to_nat 401) 100 = true.
Proof. vm_compute. reflexivity. Qed.

(** On the decimals from 1.00 to 5.00 the test [avg < 3] of the rule tables
    is the comparison of the hundredths with 300. *)
Lemma decimal2_lt_3 (h : Z) :
  100 <= h <= 500 -> float_lt_int (decimal2 h) 3 = (h <? 300).
Proof.
  intros Hh. apply Bool.eqb_prop.
  apply (all_from_spec decimal2_lt_3_ok _ _ decimal2_lt_3_checked).
  rewrite Z2Nat.id; lia.
Qed.

Lemma sum_from (xs : list Z) (a : Z) : fold_left Z.add xs a = a + sum xs.
Proof.
  unfold sum. revert a. induction xs as [|x xs IH]; intros a; simpl.
  - lia.
  - rewrite (IH (a + x)). change (fold_left Z.add xs (0 + x)) with (fold_left Z.add xs x).
    rewrite (IH x). lia.
Qed.

Lemma sum_cons (x : Z) (xs : list Z) : sum (x :: xs) = x + sum xs.
Proof. unfold sum at 1. simpl. apply sum_from. Qed.

Lemma sum_bounds (v : list Z) :
  Forall (fun m => 1 <= m <= 5) v -> len v <= sum v <= 5 * len v.
Proof.
  unfold len. induction 1 as [|m v Hm _ IH].
  - unfold sum. simpl. lia.
  - rewrite sum_cons. simpl length. lia.
Qed.

(** [round(sum(v) / len(v), 2)] on moods from 1 to 5 is the double written
    [h/100] for a two-place decimal [h/100] nearest to the mean of [v]. *)
Lemma mean2_rounding (v : list Z) :
  v <> [] -> Forall (fun m => 1 <= m <= 5) v -> len v < 2 ^ 40 ->
  exists h,
    mean2 v = decimal2 h /\ 100 <= h <= 500
    /\ 2 * Z.abs (100 * sum v - h * len v) <= len v.
Proof.
  intros Hne Hv Hlen. unfold mean2.
  apply mean_rounding; [|apply sum_bounds; exact Hv|exact Hlen].
  unfold len. destruct v; [contradiction|]. simpl length. lia.
Qed.

Lemma moods_valid (logs : list MoodLog) :
  Forall valid_mood logs -> Forall (fun m => 1 <= m <= 5) (map mood logs).
Proof. induction 1; simpl; constructor; assumption. Qed.

(** ** The double of [timestamp()] and its integer part *)

Lemma pos_iter_xO (p d : positive) : Zpos (Pos.iter xO p d) = Zpos p * 2 ^ Zpos d.
Proof.
  induction d as [|d IH] using Pos.peano_ind.
  - simpl. lia.
  - rewrite Pos.iter_succ, Pos2Z.inj_succ, Z.pow_succ_r by lia.
    rewrite Pos2Z.inj_xO, IH. lia.
Qed.

Lemma shl_align_down (m : positive) (e e' : Z) :
  e' <= e ->
  exists m', shl_align m e e' = (m', e') /\ Zpos m' = Zpos m * 2 ^ (e - e').
Proof.
  intros He. unfold shl_align.
  destruct (e' - e) as [|d|d] eqn:E; try lia.
  - exists m. replace e' with e by lia. rewrite Z.sub_diag. split; [reflexivity|lia].
  - exists (Pos.iter xO m d). split; [reflexivity|].
    rewrite pos_iter_xO. f_equal. f_equal. lia.
Qed.

Lemma shl_align_up (m : positive) (e e' : Z) :
  e <= e' -> shl_align m e e' = (m, e).
Proof.
  intros He. unfold shl_align. destruct (e' - e) as [|d|d] eqn:E; try reflexivity. lia.
Qed.

Lemma pow2_split (a b : Z) : 0 <= a -> 0 <= b -> 2 ^ (a + b) = 2 ^ a * 2 ^ b.
Proof. intros. apply Z.pow_add_r; assumption. Qed.

(** A mantissa of 53 bits is kept as it is. *)
Lemma binary_round_aux_53 (sx : bool) (m : positive) (e : Z) :
  2 ^ 52 <= Zpos m < 2 ^ 53 -> -1074 <= e <= 970 ->
  binary_round_aux prec emax sx (Zpos m) e loc_Exact = S754_finite sx m e.
Proof.
  intros Hm He. unfold binary_round_aux.
  rewrite shr_fexp_53 by lia.
  cbn [shr_record_of_loc shr_m loc_of_shr_record round_nearest_even].
  rewrite shr_fexp_53 by lia. cbn [shr_record_of_loc shr_m].
  destruct (Z.leb_spec e (emax - prec)); [reflexivity|unfold emax, prec in *; lia].
Qed.

(** [float(s)] for an integer of [ds] bits. *)
Lemma float_of_int_digits (sx : bool) (s ds : Z) :
  1 <= ds <= 53 -> 2 ^ (ds - 1) <= s < 2 ^ ds ->
  exists m, float_of_int (cond_Zopp sx s) = S754_finite sx m (ds - 53)
            /\ Zpos m = s * 2 ^ (53 - ds).
Proof.
  intros Hds Hs.
  assert (Hpos : 0 < s) by (pose proof (Z.pow_pos_nonneg 2 (ds - 1)); lia).
  destruct s as [|p|p]; try lia.
  assert (Hd : Zpos (digits2_pos p) = ds).
  { change (Zpos (digits2_pos p)) with (Zdigits2 (Zpos p)).
    apply Zdigits2_unique; lia. }
  assert (Hround : binary_round prec emax sx p 0
                   = S754_finite sx (fst (shl_align p 0 (ds - 53))) (ds - 53)
                   /\ Zpos (fst (shl_align p 0 (ds - 53))) = Zpos p * 2 ^ (53 - ds)).
  { unfold binary_round. rewrite Hd.
    replace (fexp prec emax (ds + 0)) with (ds - 53)
      by (unfold fexp, emin, prec, emax; lia).
    destruct (shl_align_down p 0 (ds - 53) ltac:(lia)) as (m' & -> & Hm').
    replace (0 - (ds - 53)) with (53 - ds) in Hm' by lia.
    cbn [fst]. split; [|exact Hm'].
    apply binary_round_aux_53; [|lia].
    rewrite Hm'. split.
    - replace (2 ^ 52) with (2 ^ (ds - 1) * 2 ^ (53 - ds))
        by (rewrite <- pow2_split by lia; f_equal; lia).
      apply Z.mul_le_mono_nonneg_r; [apply Z.pow_nonneg|]; lia.
    - replace (2 ^ 53) with (2 ^ ds * 2 ^ (53 - ds))
        by (rewrite <- pow2_split by lia; f_equal; lia).
      apply Z.mul_lt_mono_pos_r; [apply Z.pow_pos_nonneg|]; lia. }
  destruct Hround as [Hr Hm].
  exists (fst (shl_align p 0 (ds - 53))). split; [|exact Hm].
  destruct sx; unfold float_of_int, binary_normalize, cond_Zopp; simpl Z.opp; exact Hr.
Qed.

Lemma int_of_float_scaled (sx : bool) (m : positive) (s a e : Z) :
  e <= 0 -> a = 2 ^ (- e) -> s * a <= Zpos m < (s + 1) * a ->
  int_of_float (S754_finite sx m e) = Some (cond_Zopp sx s).
Proof.
  intros He Ha Hm. unfold int_of_float. f_equal. f_equal.
  assert (Hapos : 0 < a) by (subst a; apply Z.pow_pos_nonneg; lia).
  destruct (Z.leb_spec 0 e) as [H0|H0].
  - assert (e = 0) by lia. subst e. simpl in Ha. subst a. simpl. lia.
  - rewrite <- Ha. symmetry. apply (Z.div_unique (Zpos m) a s (Zpos m - s * a)); lia.
Qed.

Lemma float_of_int_nonzero (s : Z) :
  s <> 0 -> Z.abs s < 2 ^ 53 ->
  exists m ds,
    1 <= ds <= 53
    /\ 2 ^ (ds - 1) <= Z.abs s < 2 ^ ds
    /\ float_of_int s = S754_finite (s <? 0) m (ds - 53)
    /\ Zpos m = Z.abs s * 2 ^ (53 - ds).
Proof.
  intros Hne Hs.
  set (x := Z.abs s) in *. assert (Hx : 0 < x) by (unfold x; lia).
  set (ds := Z.log2 x + 1).
  pose proof (Z.log2_spec x Hx) as Hlog.
  pose proof (Z.log2_nonneg x) as Hnn.
  assert (Hds : 1 <= ds <= 53).
  { unfold ds. split; [lia|].
    assert (Z.log2 x < 53) by (apply Z.log2_lt_pow2; lia). lia. }
  assert (Hb : 2 ^ (ds - 1) <= x < 2 ^ ds).
  { unfold ds. replace (Z.log2 x + 1 - 1) with (Z.log2 x) by lia.
    replace (Z.log2 x + 1) with (Z.succ (Z.log2 x)) by lia. exact Hlog. }
  destruct (float_of_int_digits (s <? 0) x ds Hds Hb) as (m & Hf & Hm).
  assert (Hsx : cond_Zopp (s <? 0) x = s).
  { unfold cond_Zopp, x. destruct (Z.ltb_spec s 0); lia. }
  rewrite Hsx in Hf. exists m, ds. repeat split; try lia; assumption.
Qed.

(** [int(float(s))] is [s]. *)
Lemma int_of_float_of_int (s : Z) :
  Z.abs s < 2 ^ 53 -> int_of_float (float_of_int s) = Some s.
Proof.
  intros Hs. destruct (Z.eq_dec s 0) as [->|Hne]; [reflexivity|].
  destruct (float_of_int_nonzero s Hne Hs) as (m & ds & Hds & Hb & Hf & Hm).
  rewrite Hf.
  rewrite (int_of_float_scaled (s <? 0) m (Z.abs s) (2 ^ (53 - ds)) (ds - 53)).
  - f_equal. unfold cond_Zopp. destruct (Z.ltb_spec s 0); lia.
  - lia.
  - f_equal. lia.
  - pose proof (Z.pow_pos_nonneg 2 (53 - ds) ltac:(lia) ltac:(lia)). lia.
Qed.

Lemma shr_m_shr_1 (mrs : shr_record) :
  0 <= shr_m mrs -> shr_m (shr_1 mrs) = shr_m mrs / 2.
Proof.
  destruct mrs as [m r s]. cbn [shr_m]. intros Hm.
  destruct m as [|p|p]; try lia; [reflexivity|].
  rewrite <- Z.div2_div. destruct p; reflexivity.
Qed.

Lemma shr_m_iter (p : positive) (mrs : shr_record) :
  0 <= shr_m mrs ->
  shr_m (SpecFloat.iter_pos shr_1 p mrs) = shr_m mrs / 2 ^ Zpos p.
Proof.
  revert mrs. induction p as [p IH|p IH|]; intros mrs Hm; cbn [SpecFloat.iter_pos];
    try assert (Hp : 0 < 2 ^ Zpos p) by (apply Z.pow_pos_nonneg; lia).
  - assert (H1 : 0 <= shr_m (shr_1 mrs))
      by (rewrite shr_m_shr_1 by exact Hm; apply Z.div_pos; lia).
    assert (H2 : 0 <= shr_m (SpecFloat.iter_pos shr_1 p (shr_1 mrs)))
      by (rewrite IH by exact H1; apply Z.div_pos; [exact H1|apply Z.pow_pos_nonneg; lia]).
    rewrite IH by exact H2. rewrite IH by exact H1. rewrite shr_m_shr_1 by exact Hm.
    rewrite !Z.div_div by lia.
    f_equal. rewrite Pos2Z.inj_xI.
    rewrite Z.pow_add_r, Z.pow_mul_r, Z.pow_1_r by lia.
    change (2 ^ 2) with 4. rewrite <- Z.pow_mul_l.
    rewrite Z.pow_mul_l. replace 4 with (2 * 2) by lia. rewrite Z.pow_mul_l. lia.
  - assert (H1 : 0 <= shr_m (SpecFloat.iter_pos shr_1 p mrs))
      by (rewrite IH by exact Hm; apply Z.div_pos; [exact Hm|apply Z.pow_pos_nonneg; lia]).
    rewrite IH by exact H1. rewrite IH by exact Hm.
    rewrite Z.div_div by lia.
    f_equal. rewrite Pos2Z.inj_xO. rewrite <- Z.pow_add_r by lia. f_equal. lia.
  - rewrite shr_m_shr_1 by exact Hm. reflexivity.
Qed.

Lemma round_nearest_even_cases (m : Z) (l : location) :
  round_nearest_even m l = m \/ round_nearest_even m l = m + 1.
Proof.
  destruct l as [|[| |]]; cbn [round_nearest_even]; auto.
  destruct (Z.even m); auto.
Qed.

(** The sum of a positive integer of at most 42 bits and a double between
    [2^-10] and [1 - 2^-10] has that integer as its integer part. *)
Lemma int_of_sum (s ds : Z) (mf : positive) (ef : Z) :
  1 <= ds <= 42 -> 2 ^ (ds - 1) <= s < 2 ^ ds ->
  -1000 <= ef <= -53 ->
  2 ^ (-10 - ef) <= Zpos mf <= 2 ^ (- ef) - 2 ^ (-10 - ef) ->
  int_of_float (SFadd prec emax (float_of_int s) (S754_finite false mf ef)) = Some s.
Proof.
  intros Hds Hs Hef Hmf.
  destruct (float_of_int_digits false s ds ltac:(lia) Hs) as (m & Hf & Hm).
  cbn [cond_Zopp] in Hf. rewrite Hf. unfold SFadd.
  set (n := ds - 53 - ef). assert (Hn : 1 <= n) by (unfold n; lia).
  set (a := 2 ^ (53 - ds)) in *. set (b := 2 ^ n).
  set (c := 2 ^ (43 - ds)).
  assert (Ha : a = c * 2 ^ 10)
    by (unfold a, c; rewrite <- pow2_split by lia; f_equal; lia).
  assert (Hapos : 0 < a) by (apply Z.pow_pos_nonneg; lia).
  assert (Hbpos : 0 < b) by (apply Z.pow_pos_nonneg; lia).
  assert (Hcpos : 2 <= c).
  { unfold c. replace (43 - ds) with (1 + (42 - ds)) by lia.
    rewrite pow2_split by lia.
    pose proof (Z.pow_pos_nonneg 2 (42 - ds) ltac:(lia) ltac:(lia)). lia. }
  assert (Hs1 : 2 ^ (ds - 1) * a <= s * a)
    by (apply Z.mul_le_mono_nonneg_r; lia).
  assert (Hs2 : (s + 1) * a <= 2 ^ ds * a)
    by (apply Z.mul_le_mono_nonneg_r; lia).
  assert (Hs1b : 2 ^ (ds - 1) * a * b <= s * a * b)
    by (apply Z.mul_le_mono_nonneg_r; lia).
  assert (Hs2b : (s + 1) * a * b <= 2 ^ ds * a * b)
    by (apply Z.mul_le_mono_nonneg_r; lia).
  assert (Hcb0 : 0 < c * b) by (apply Z.mul_pos_pos; lia).
  assert (Hab : 2 ^ (- ef) = a * b)
    by (unfold a, b; rewrite <- pow2_split by lia; f_equal; lia).
  assert (Hcb : 2 ^ (-10 - ef) = c * b)
    by (unfold c, b; rewrite <- pow2_split by lia; f_equal; lia).
  assert (H52 : 2 ^ 52 = 2 ^ (ds - 1) * a)
    by (unfold a; rewrite <- pow2_split by lia; f_equal; lia).
  assert (H53 : 2 ^ 53 = 2 ^ ds * a)
    by (unfold a; rewrite <- pow2_split by lia; f_equal; lia).
  rewrite Hab, Hcb in Hmf.
  replace (Z.min (ds - 53) ef) with ef by lia.
  destruct (shl_align_down m (ds - 53) ef ltac:(lia)) as (m1 & -> & Hm1).
  fold n in Hm1. fold b in Hm1. rewrite Hm in Hm1.
  rewrite (shl_align_up mf ef ef) by lia. cbn [fst cond_Zopp].
  change (Zpos m1 + Zpos mf) with (Zpos (m1 + mf)).
  cbn [binary_normalize]. unfold binary_round.
  assert (HM : Zpos (m1 + mf) = s * a * b + Zpos mf) by (rewrite Pos2Z.inj_add; lia).
  assert (Hlo : s * a * b <= Zpos (m1 + mf)) by lia.
  assert (Hhi : Zpos (m1 + mf) <= (s * a + a - c) * b) by lia.
  assert (HD : Zpos (digits2_pos (m1 + mf)) = ds - ef).
  { change (Zpos (digits2_pos (m1 + mf))) with (Zdigits2 (Zpos (m1 + mf))).
    apply Zdigits2_unique; [lia|]. split.
    - replace (2 ^ (ds - ef - 1)) with (2 ^ (ds - 1) * (a * b))
        by (rewrite <- Hab, <- pow2_split by lia; f_equal; lia).
      lia.
    - replace (2 ^ (ds - ef)) with (2 ^ ds * (a * b))
        by (rewrite <- Hab, <- pow2_split by lia; f_equal; lia).
      lia. }
  rewrite HD.
  replace (fexp prec emax (ds - ef + ef)) with (ds - 53)
    by (unfold fexp, emin, prec, emax; lia).
  rewrite (shl_align_up (m1 + mf) ef (ds - 53)) by lia.
  unfold binary_round_aux.
  assert (Hshr : shr_fexp prec emax (Zpos (m1 + mf)) ef loc_Exact
                 = (SpecFloat.iter_pos shr_1 (Z.to_pos n)
                      (shr_record_of_loc (Zpos (m1 + mf)) loc_Exact), ds - 53)).
  { unfold shr_fexp. cbn [Zdigits2]. rewrite HD.
    replace (fexp prec emax (ds - ef + ef) - ef) with n
      by (unfold fexp, emin, prec, emax, n; lia).
    unfold shr. destruct n as [|pn|pn] eqn:En; try lia.
    cbn [Z.to_pos]. f_equal. unfold n in En. lia. }
  rewrite Hshr.
  set (mrs := SpecFloat.iter_pos shr_1 (Z.to_pos n) (shr_record_of_loc (Zpos (m1 + mf)) loc_Exact)).
  assert (Hq : shr_m mrs = Zpos (m1 + mf) / b).
  { unfold mrs. rewrite shr_m_iter by (cbn; lia). cbn [shr_record_of_loc shr_m].
    rewrite Z2Pos.id by lia. reflexivity. }
  assert (Hqlo : s * a <= shr_m mrs)
    by (rewrite Hq; apply Z.div_le_lower_bound; lia).
  assert (Hqhi : shr_m mrs <= s * a + a - c).
  { rewrite Hq. apply Z.lt_succ_r, Z.div_lt_upper_bound; [lia|]. lia. }
  set (mr := round_nearest_even (shr_m mrs) (loc_of_shr_record mrs)).
  assert (Hmr : s * a <= mr < (s + 1) * a).
  { destruct (round_nearest_even_cases (shr_m mrs) (loc_of_shr_record mrs)) as [E|E];
      fold mr in E; rewrite E; lia. }
  assert (Hmr52 : 2 ^ 52 <= mr <= 2 ^ 53) by (rewrite H52, H53; lia).
  assert (Hmr53 : mr < 2 ^ 53) by (rewrite H53; lia).
  pose proof (round_finish mr (ds - 53) Hmr52 ltac:(lia)) as Hfin.
  destruct (Z.ltb_spec mr (2 ^ 53)) as [_|]; [|lia].
  rewrite Hfin.
  apply (int_of_float_scaled false (Z.to_pos mr) s a (ds - 53)); [lia| |].
  - unfold a. f_equal. lia.
  - rewrite Z2Pos.id by lia. exact Hmr.
Qed.

(** The last step of [binary_round_aux], for either sign. *)
Lemma round_finish_signed (sx : bool) (m e : Z) :
  2 ^ 52 <= m <= 2 ^ 53 -> -1074 <= e <= 970 ->
  (let '(mrs, e') := shr_fexp prec emax m e loc_Exact in
   match shr_m mrs with
   | Z0 => S754_zero sx
   | Zpos p => if e' <=? emax - prec then S754_finite sx p e' else S754_infinity sx
   | Zneg _ => S754_nan
   end)
  = if m <? 2 ^ 53 then S754_finite sx (Z.to_pos m) e
    else S754_finite sx (Z.to_pos (2 ^ 52)) (e + 1).
Proof.
  intros Hm He. destruct (Z.ltb_spec m (2 ^ 53)) as [Hlt|Hge].
  - rewrite shr_fexp_53 by lia. simpl shr_m.
    destruct m as [|p|p]; try (simpl in Hm; lia).
    destruct (Z.leb_spec e (emax - prec)); [reflexivity|unfold emax, prec in *; lia].
  - assert (m = 2 ^ 53) as -> by lia.
    rewrite shr_fexp_54 by lia.
    change (2 ^ 53) with 9007199254740992. change (2 ^ 52) with 4503599627370496.
    unfold emax, prec. cbn [shr_record_of_loc shr_1 shr_m Z.to_pos].
    destruct (Z.leb_spec (e + 1) (1024 - 53)); [reflexivity|lia].
Qed.

Lemma Zdigits2_bounds (p : positive) :
  2 ^ (Zpos (digits2_pos p) - 1) <= Zpos p < 2 ^ Zpos (digits2_pos p).
Proof.
  change (Zpos (digits2_pos p)) with (Zdigits2 (Zpos p)).
  rewrite Zdigits2_log2 by lia.
  replace (Z.log2 (Zpos p) + 1 - 1) with (Z.log2 (Zpos p)) by lia.
  replace (Z.log2 (Zpos p) + 1) with (Z.succ (Z.log2 (Zpos p))) by lia.
  apply Z.log2_spec. lia.
Qed.

(** A double rounded from [M * 2^ef], where [M * 2^ef] lies between
    [t + 2^-10] and [t + 1 - 2^-10] for an integer [t] of at most 42
    bits, has the integer part [t]. *)
Lemma int_of_round (sx : bool) (M : positive) (ef t : Z) :
  -1000 <= ef <= -53 ->
  0 <= t < 2 ^ 42 ->
  t * 2 ^ (- ef) + 2 ^ (-10 - ef) <= Zpos M <= (t + 1) * 2 ^ (- ef) - 2 ^ (-10 - ef) ->
  int_of_float (binary_round prec emax sx M ef) = Some (cond_Zopp sx t).
Proof.
  intros Hef Ht HM.
  pose proof (Zdigits2_bounds M) as HD.
  set (D := Zpos (digits2_pos M)) in *.
  assert (HD1 : 1 <= D) by (unfold D; lia).
  set (P := 2 ^ (- ef)) in *.
  assert (HPpos : 0 < P) by (apply Z.pow_pos_nonneg; lia).
  assert (Hcpos : 0 < 2 ^ (-10 - ef)) by (apply Z.pow_pos_nonneg; lia).
  assert (HDhi : D <= 42 - ef).
  { destruct (Z_le_gt_dec D (42 - ef)) as [|Hgt]; [assumption|exfalso].
    assert (2 ^ (42 - ef) <= 2 ^ (D - 1)) by (apply Z.pow_le_mono_r; lia).
    assert (E : 2 ^ (42 - ef) = 2 ^ 42 * P)
      by (unfold P; rewrite <- pow2_split by lia; f_equal; lia).
    assert ((t + 1) * P <= 2 ^ 42 * P) by (apply Z.mul_le_mono_nonneg_r; lia).
    lia. }
  unfold binary_round. fold D.
  replace (fexp prec emax (D + ef)) with (D + ef - 53)
    by (unfold fexp, emin, prec, emax; lia).
  destruct (Z_le_gt_dec D 53) as [Hle|Hgt].
  - (* at most 53 digits: the value is kept *)
    destruct (shl_align_down M ef (D + ef - 53) ltac:(lia)) as (mz & -> & Hmz).
    replace (ef - (D + ef - 53)) with (53 - D) in Hmz by lia.
    set (w := 2 ^ (53 - D)) in *.
    assert (Hwpos : 0 < w) by (apply Z.pow_pos_nonneg; lia).
    rewrite binary_round_aux_53.
    + apply (int_of_float_scaled sx mz t (P * w) (D + ef - 53)); [lia| |].
      * unfold P, w. rewrite <- pow2_split by lia. f_equal. lia.
      * rewrite Hmz. split.
        -- replace (t * (P * w)) with (t * P * w) by ring.
           apply Z.mul_le_mono_nonneg_r; lia.
        -- replace ((t + 1) * (P * w)) with ((t + 1) * P * w) by ring.
           apply Z.mul_lt_mono_pos_r; lia.
    + rewrite Hmz. split.
      * replace (2 ^ 52) with (2 ^ (D - 1) * w)
          by (unfold w; rewrite <- pow2_split by lia; f_equal; lia).
        apply Z.mul_le_mono_nonneg_r; lia.
      * replace (2 ^ 53) with (2 ^ D * w)
          by (unfold w; rewrite <- pow2_split by lia; f_equal; lia).
        apply Z.mul_lt_mono_pos_r; lia.
    + lia.
  - (* more than 53 digits: the value is rounded *)
    rewrite (shl_align_up M ef (D + ef - 53)) by lia.
    set (k := D - 53). assert (Hk : 1 <= k <= -11 - ef) by (unfold k; lia).
    set (b := 2 ^ k).
    set (c := 2 ^ (-10 - ef - k)).
    set (a := 2 ^ (- ef - k)).
    assert (Hbpos : 0 < b) by (apply Z.pow_pos_nonneg; lia).
    assert (Hc2 : 2 <= c).
    { unfold c. replace (-10 - ef - k) with (1 + (-11 - ef - k)) by lia.
      rewrite pow2_split by lia.
      pose proof (Z.pow_pos_nonneg 2 (-11 - ef - k) ltac:(lia) ltac:(lia)). lia. }
    assert (Ha : a = c * 2 ^ 10)
      by (unfold a, c; rewrite <- pow2_split by lia; f_equal; lia).
    assert (HP : P = a * b)
      by (unfold P, a, b; rewrite <- pow2_split by lia; f_equal; lia).
    assert (Hcb : 2 ^ (-10 - ef) = c * b)
      by (unfold c, b; rewrite <- pow2_split by lia; f_equal; lia).
    assert (H52 : 2 ^ (D - 1) = 2 ^ 52 * b)
      by (unfold b, k; rewrite <- pow2_split by lia; f_equal; lia).
    assert (H53 : 2 ^ D = 2 ^ 53 * b)
      by (unfold b, k; rewrite <- pow2_split by lia; f_equal; lia).
    rewrite Hcb, HP in HM. rewrite H52, H53 in HD.
    unfold binary_round_aux.
    assert (Hshr : shr_fexp prec emax (Zpos M) ef loc_Exact
                   = (SpecFloat.iter_pos shr_1 (Z.to_pos k)
                        (shr_record_of_loc (Zpos M) loc_Exact), ef + k)).
    { unfold shr_fexp. cbn [Zdigits2]. fold D.
      replace (fexp prec emax (D + ef) - ef) with k
        by (unfold fexp, emin, prec, emax, k; lia).
      replace (fexp prec emax (D + ef)) with (ef + k)
        by (unfold fexp, emin, prec, emax, k; lia).
      unfold shr. destruct k as [|pk|pk] eqn:Ek; try lia. reflexivity. }
    rewrite Hshr.
    set (mrs := SpecFloat.iter_pos shr_1 (Z.to_pos k)
                  (shr_record_of_loc (Zpos M) loc_Exact)).
    assert (Hq : shr_m mrs = Zpos M / b).
    { unfold mrs. rewrite shr_m_iter by (cbn; lia). cbn [shr_record_of_loc shr_m].
      rewrite Z2Pos.id by lia. reflexivity. }
    assert (Hqlo : t * a + c <= shr_m mrs).
    { rewrite Hq. apply Z.div_le_lower_bound; [lia|].
      replace (b * (t * a + c)) with (t * (a * b) + c * b) by ring. lia. }
    assert (Hqhi : shr_m mrs <= (t + 1) * a - c).
    { rewrite Hq. apply Z.lt_succ_r, Z.div_lt_upper_bound; [lia|].
      replace (b * Z.succ ((t + 1) * a - c)) with ((t + 1) * (a * b) - c * b + b)
        by ring. lia. }
    assert (Hq52 : 2 ^ 52 <= shr_m mrs < 2 ^ 53).
    { rewrite Hq. split.
      - apply Z.div_le_lower_bound; lia.
      - apply Z.div_lt_upper_bound; lia. }
    set (mr := round_nearest_even (shr_m mrs) (loc_of_shr_record mrs)).
    assert (Hmr : t * a < mr < (t + 1) * a /\ 2 ^ 52 <= mr <= 2 ^ 53).
    { destruct (round_nearest_even_cases (shr_m mrs) (loc_of_shr_record mrs)) as [E|E];
        fold mr in E; rewrite E; lia. }
    destruct Hmr as [Hmr Hmr52].
    pose proof (round_finish_signed sx mr (ef + k) Hmr52 ltac:(lia)) as Hfin.
    rewrite Hfin.
    destruct (Z.ltb_spec mr (2 ^ 53)) as [Hlt|Hge].
    + apply (int_of_float_scaled sx (Z.to_pos mr) t a (ef + k)); [lia| |].
      * unfold a. f_equal. lia.
      * rewrite Z2Pos.id by lia. lia.
    + assert (Emr : mr = 2 ^ 53) by lia.
      set (a2 := 2 ^ (- ef - k - 1)).
      assert (Ha2 : a = 2 * a2).
      { unfold a, a2. rewrite <- (Z.pow_succ_r 2 (- ef - k - 1)) by lia.
        f_equal. lia. }
      apply (int_of_float_scaled sx (Z.to_pos (2 ^ 52)) t a2 (ef + k + 1)); [lia| |].
      * unfold a2. f_equal. lia.
      * rewrite Z2Pos.id by (apply Z.pow_pos_nonneg; lia).
        change (2 ^ 53) with (2 * 2 ^ 52) in Emr. lia.
Qed.

(** The sum of a negative integer [- s] of at most 41 bits and a double
    between [2^-10] and [1 - 2^-10] has the integer part [- s + 1]:
    [int] truncates toward zero. *)
Lemma int_of_negative_sum (s : Z) (mf : positive) (ef : Z) :
  0 < s < 2 ^ 41 ->
  -1000 <= ef <= -53 ->
  2 ^ (-10 - ef) <= Zpos mf <= 2 ^ (- ef) - 2 ^ (-10 - ef) ->
  int_of_float (SFadd prec emax (float_of_int (- s)) (S754_finite false mf ef))
  = Some (- s + 1).
Proof.
  intros Hs Hef Hmf.
  assert (H41 : 2 ^ 41 < 2 ^ 53) by (apply Z.pow_lt_mono_r; lia).
  assert (H42 : 2 ^ 41 < 2 ^ 42) by (apply Z.pow_lt_mono_r; lia).
  destruct (float_of_int_nonzero (- s) ltac:(lia) ltac:(lia))
    as (m & ds & Hds & Hb & Hf & Hm).
  replace (- s <? 0) with true in Hf by (symmetry; apply Z.ltb_lt; lia).
  replace (Z.abs (- s)) with s in Hb, Hm by lia.
  rewrite Hf. unfold SFadd.
  assert (Hds42 : ds <= 42).
  { destruct (Z_le_gt_dec ds 42) as [|Hgt]; [assumption|exfalso].
    assert (2 ^ 42 <= 2 ^ (ds - 1)) by (apply Z.pow_le_mono_r; lia). lia. }
  replace (Z.min (ds - 53) ef) with ef by lia.
  destruct (shl_align_down m (ds - 53) ef ltac:(lia)) as (m1 & -> & Hm1).
  rewrite (shl_align_up mf ef ef) by lia. cbn [fst cond_Zopp].
  set (P := 2 ^ (- ef)) in *.
  assert (HP : Zpos m1 = s * P).
  { rewrite Hm1, Hm. unfold P. rewrite <- Z.mul_assoc, <- pow2_split by lia.
    f_equal. f_equal. lia. }
  assert (HPpos : 0 < P) by (apply Z.pow_pos_nonneg; lia).
  assert (Hcpos : 0 < 2 ^ (-10 - ef)) by (apply Z.pow_pos_nonneg; lia).
  assert (Hlt : Zpos mf < Zpos m1) by nia.
  assert (Hneg : - Zpos m1 + Zpos mf = Zneg (m1 - mf)).
  { rewrite <- Pos2Z.opp_pos, Pos2Z.inj_sub by lia. lia. }
  rewrite Hneg. cbn [binary_normalize].
  rewrite (int_of_round true (m1 - mf) ef (s - 1)); [cbn [cond_Zopp]; f_equal; lia|lia|lia|].
  rewrite Pos2Z.inj_sub by lia. rewrite HP. fold P. nia.
Qed.

(** ** The date a record is filed under *)

Lemma ms_fraction_checked : all_from ms_fraction_ok (Z.to_nat 999) 1 = true.
Proof. vm_compute. reflexivity. Qed.

Lemma ms_fraction (us : Z) :
  0 < us < 1000000 -> us mod 1000 = 0 ->
  exists mf ef,
    SFdiv prec emax (float_of_int us) (float_of_int 1000000) = S754_finite false mf ef
    /\ -62 <= ef <= -53
    /\ 2 ^ (-10 - ef) <= Zpos mf <= 2 ^ (- ef) - 2 ^ (-10 - ef).
Proof.
  intros Hus Hms.
  pose proof (Z.div_mod us 1000 ltac:(lia)) as Hk. rewrite Hms, Z.add_0_r in Hk.
  pose proof (all_from_spec _ _ _ ms_fraction_checked (us / 1000)) as H.
  rewrite Z2Nat.id in H by lia. specialize (H ltac:(lia)).
  unfold ms_fraction_ok in H. rewrite <- Hk in H.
  destruct (SFdiv prec emax (float_of_int us) (float_of_int 1000000))
    as [| | |[|] mf ef]; try discriminate.
  repeat (apply andb_true_iff in H as [H ?]).
  exists mf, ef. split; [reflexivity|]. lia.
Qed.

(** [int(s + us / 1e6)] for a whole number of milliseconds [us]: the
    seconds [s], when the time is not before the epoch or has no
    fraction. *)
Lemma int_of_seconds (s us : Z) :
  Z.abs s < 2 ^ 41 ->
  0 <= us < 1000000 -> us mod 1000 = 0 ->
  0 <= s \/ us = 0 ->
  int_of_float
    (SFadd prec emax (float_of_int s)
       (SFdiv prec emax (float_of_int us) (float_of_int 1000000)))
  = Some s.
Proof.
  intros Hs Hus Hms Hdom.
  assert (H41 : 2 ^ 41 < 2 ^ 53) by (apply Z.pow_lt_mono_r; lia).
  destruct (Z.eq_dec us 0) as [->|Hne].
  - replace (SFdiv prec emax (float_of_int 0) (float_of_int 1000000))
      with (S754_zero false) by (vm_compute; reflexivity).
    replace (SFadd prec emax (float_of_int s) (S754_zero false)) with (float_of_int s).
    + apply int_of_float_of_int. lia.
    + destruct (Z.eq_dec s 0) as [->|Hs0]; [reflexivity|].
      destruct (float_of_int_nonzero s Hs0 ltac:(lia)) as (m & ds & _ & _ & -> & _).
      reflexivity.
  - destruct Hdom as [Hs0|]; [|contradiction].
    destruct (ms_fraction us ltac:(lia) Hms) as (mf & ef & -> & Hef & Hmf).
    destruct (Z.eq_dec s 0) as [->|Hs1].
    + change (float_of_int 0) with (S754_zero false). cbn [SFadd].
      apply (int_of_float_scaled false mf 0 (2 ^ (- ef)) ef); [lia|reflexivity|].
      pose proof (Z.pow_pos_nonneg 2 (-10 - ef) ltac:(lia) ltac:(lia)). lia.
    + assert (Hx : 0 < s) by lia.
      pose proof (Z.log2_spec s Hx) as Hlog.
      pose proof (Z.log2_nonneg s) as Hnn.
      assert (Z.log2 s < 41) by (apply Z.log2_lt_pow2; lia).
      apply (int_of_sum s (Z.log2 s + 1)); [lia| |lia|exact Hmf].
      replace (Z.log2 s + 1 - 1) with (Z.log2 s) by lia.
      replace (Z.log2 s + 1) with (Z.succ (Z.log2 s)) by lia. exact Hlog.
Qed.

(** Before the epoch, with a fraction: [int] truncates toward zero, to
    the second after. *)
Lemma int_of_seconds_before (s us : Z) :
  - 2 ^ 41 < s < 0 ->
  0 < us < 1000000 -> us mod 1000 = 0 ->
  int_of_float
    (SFadd prec emax (float_of_int s)
       (SFdiv prec emax (float_of_int us) (float_of_int 1000000)))
  = Some (s + 1).
Proof.
  intros Hs Hus Hms.
  destruct (ms_fraction us Hus Hms) as (mf & ef & -> & Hef & Hmf).
  replace s with (- (- s)) at 1 by lia.
  rewrite (int_of_negative_sum (- s) mf ef); [f_equal; lia|lia|lia|exact Hmf].
Qed.

Lemma in_range_spec (x : Z) :
  in_range x = true <-> valid_ordinal (EPOCH_ORDINAL + x / 86400).
Proof.
  unfold in_range, valid_ordinal. cbv zeta.
  rewrite andb_true_iff, !Z.leb_le. reflexivity.
Qed.

Lemma naive_seconds_div (dt : datetime) :
  0 <= second_of_day dt < 86400 ->
  EPOCH_ORDINAL + naive_seconds dt / 86400 = ordinal dt
  /\ naive_seconds dt mod 86400 = second_of_day dt.
Proof.
  intros Hs. unfold naive_seconds, EPOCH_ORDINAL.
  Z.to_euclidean_division_equations. lia.
Qed.

Lemma in_range_naive (dt : datetime) :
  valid_datetime dt -> in_range (naive_seconds dt) = true.
Proof.
  intros (Ho & Hs & _). apply in_range_spec.
  rewrite (proj1 (naive_seconds_div dt Hs)). exact Ho.
Qed.

Lemma in_range_day_before (dt : datetime) :
  valid_datetime dt -> MINORDINAL < ordinal dt ->
  in_range (naive_seconds dt - 86400) = true.
Proof.
  intros (Ho & Hs & _) H1. apply in_range_spec.
  pose proof (proj1 (naive_seconds_div dt Hs)) as Hd.
  unfold valid_ordinal, MINORDINAL, MAXORDINAL, EPOCH_ORDINAL in *.
  Z.to_euclidean_division_equations. lia.
Qed.

Lemma local_at (tz : zone) (c u : Z) :
  tz u = c -> in_range (u + c) = true -> local tz u = Some (u + c).
Proof. intros Hc Hr. unfold local. rewrite Hc. cbv zeta. rewrite Hr. reflexivity. Qed.

(** Where the zone keeps the offset [c], [_mktime] subtracts it. *)
Lemma mktime_steady (tz : zone) (c : Z) (dt : datetime) :
  steady tz c dt ->
  in_range (naive_seconds dt) = true ->
  in_range (naive_seconds dt + c) = true ->
  in_range (naive_seconds dt - 86400) = true ->
  mktime tz dt = Some (naive_seconds dt - c).
Proof.
  intros [H0 Hst] Ht Htc Hday. unfold mktime. cbv zeta. rewrite Ht.
  set (t := naive_seconds dt) in *.
  rewrite (local_at tz c t H0 Htc). cbn [mbind option_bind].
  replace (t - (t + c - t)) with (t - c) by lia.
  rewrite (local_at tz c (t - c) (Hst (t - c) ltac:(lia)))
    by (replace (t - c + c) with t by lia; exact Ht).
  cbn [mbind option_bind].
  replace (t - c + c) with t by lia. rewrite Z.eqb_refl.
  rewrite (local_at tz c (t - c - 86400) (Hst (t - c - 86400) ltac:(lia)))
    by (replace (t - c - 86400 + c) with (t - 86400) by lia; exact Hday).
  cbn [mbind option_bind].
  replace (t - c - 86400 + c - (t - c - 86400)) with (t + c - t) by lia.
  rewrite Z.eqb_refl. reflexivity.
Qed.

Lemma fromtimestamp_at (tz : zone) (c t : Z) :
  tz t = c -> tz (t - 86400) = c ->
  in_range (t + c) = true ->
  in_range (t + c - 86400) = true ->
  fromtimestamp tz t
  = Some (mk_datetime (EPOCH_ORDINAL + (t + c) / 86400) ((t + c) mod 86400) 0).
Proof.
  intros H0 H1 Hr Hday. unfold fromtimestamp. rewrite H0. cbv zeta.
  rewrite Hr.
  rewrite (local_at tz c (t - 86400) H1)
    by (replace (t - 86400 + c) with (t + c - 86400) by lia; exact Hday).
  cbn [mbind option_bind].
  replace (t + c - (t - 86400 + c) - 86400) with 0 by lia. reflexivity.
Qed.

(** A record as the store keeps it, logged at a time around which the
    zone keeps its offset, is filed under the day it was logged on. *)
Lemma log_date_kept (tz : zone) (l : MoodLog) :
  kept tz l -> log_date tz l = Some (date (logged_at l)).
Proof.
  intros (c & Hsteady & Hv & H1 & Hc & Hms & Hdom).
  pose proof Hv as (Ho & Hs & Hu).
  pose proof (in_range_naive _ Hv) as Ht.
  pose proof (in_range_day_before _ Hv H1) as Hday.
  pose proof (naive_seconds_div _ Hs) as [Hdiv Hmod].
  assert (Hbound : Z.abs (naive_seconds (logged_at l) - c) < 2 ^ 41).
  { apply in_range_spec in Hc, Ht; unfold valid_ordinal, MINORDINAL, MAXORDINAL,
      EPOCH_ORDINAL in *; change (2 ^ 41) with 2199023255552;
    Z.to_euclidean_division_equations; lia. }
  unfold log_date, timestamp.
  rewrite (mktime_steady tz c _ Hsteady Ht Hc Hday). cbn [mbind option_bind].
  destruct Hsteady as [_ Hst].
  set (t := naive_seconds (logged_at l)) in *.
  destruct (Z_le_gt_dec 0 (t - c)) as [Hpos|Hneg];
    [|destruct (Z.eq_dec (microsecond (logged_at l)) 0) as [Hz|Hnz]].
  - rewrite int_of_seconds; [|exact Hbound|exact Hu|exact Hms|left; exact Hpos].
    cbn [mbind option_bind].
    rewrite (fromtimestamp_at tz c) by
      (try (apply Hst; lia); replace (t - c + c) with t by lia; assumption).
    cbn [mbind option_bind]. unfold date. cbn [ordinal]. f_equal.
    replace (t - c + c) with t by lia. exact Hdiv.
  - rewrite int_of_seconds; [|exact Hbound|exact Hu|exact Hms|right; exact Hz].
    cbn [mbind option_bind].
    rewrite (fromtimestamp_at tz c) by
      (try (apply Hst; lia); replace (t - c + c) with t by lia; assumption).
    cbn [mbind option_bind]. unfold date. cbn [ordinal]. f_equal.
    replace (t - c + c) with t by lia. exact Hdiv.
  - assert (Hlast : second_of_day (logged_at l) < 86399) by (destruct Hdom as [|[|]]; lia).
    rewrite int_of_seconds_before; [|lia|lia|exact Hms].
    cbn [mbind option_bind].
    assert (Hsame : (t + 1) / 86400 = t / 86400
                    /\ (t - 86400 + 1) / 86400 = (t - 86400) / 86400).
    { unfold t, naive_seconds. Z.to_euclidean_division_equations. lia. }
    destruct Hsame as [Hsame Hsame'].
    rewrite (fromtimestamp_at tz c).
    + cbn [mbind option_bind]. unfold date. cbn [ordinal]. f_equal.
      replace (t - c + 1 + c) with (t + 1) by lia. rewrite Hsame. exact Hdiv.
    + apply Hst. lia.
    + apply Hst. lia.
    + replace (t - c + 1 + c) with (t + 1) by lia.
      unfold in_range in *. cbv zeta in *. rewrite Hsame. exact Ht.
    + replace (t - c + 1 + c - 86400) with (t - 86400 + 1) by lia.
      unfold in_range in *. cbv zeta in *. rewrite Hsame'. exact Hday.
Qed.

(** A zone of constant offset keeps it around every datetime. *)
Lemma fixed_steady (tz : zone) (c : Z) (dt : datetime) :
  fixed_offset tz c -> steady tz c dt.
Proof. intros Hfix. split; [apply Hfix|intros u _; apply Hfix]. Qed.

Lemma fixed_kept (tz : zone) (c : Z) (logs : list MoodLog) :
  fixed_offset tz c -> Forall (regular c) logs -> Forall (kept tz) logs.
Proof.
  intros Hfix H. induction H as [|l logs Hl _ IH]; constructor; [|exact IH].
  exists c. split; [apply fixed_steady, Hfix|exact Hl].
Qed.

(** Whatever the zone, a record is filed under a date of Python. *)
Lemma log_date_valid (tz : zone) (l : MoodLog) (d : Z) :
  log_date tz l = Some d -> valid_ordinal d.
Proof.
  unfold log_date. intros H.
  destruct (timestamp tz (logged_at l)) as [ts|]; [|discriminate].
  cbn [mbind option_bind] in H.
  destruct (int_of_float ts) as [t|]; [|discriminate].
  cbn [mbind option_bind] in H.
  unfold fromtimestamp in H. cbv zeta in H.
  destruct (in_range (t + tz t)) eqn:Hr; [|discriminate].
  apply in_range_spec in Hr.
  destruct (local tz (t - 86400)) as [probe|]; [|discriminate].
  cbn [mbind option_bind] in H.
  destruct (t + tz t - probe - 86400 <? 0).
  - destruct (local tz (t + (t + tz t - probe - 86400))); [|discriminate].
    cbn [mbind option_bind] in H. injection H as <-. exact Hr.
  - cbn [mbind option_bind] in H. injection H as <-. exact Hr.
Qed.

Lemma log_day_filed (tz : zone) (l : MoodLog) :
  filed tz l -> log_date tz l = Some (log_day tz l).
Proof. intros [d Hd]. unfold log_day. rewrite Hd. reflexivity. Qed.

Lemma log_day_valid (tz : zone) (l : MoodLog) :
  filed tz l -> valid_ordinal (log_day tz l).
Proof. intros H. apply (log_date_valid tz l), log_day_filed, H. Qed.

Lemma log_day_kept (tz : zone) (l : MoodLog) :
  kept tz l -> filed tz l /\ log_day tz l = date (logged_at l).
Proof.
  intros Hk. pose proof (log_date_kept tz l Hk) as H.
  split; [exists (date (logged_at l)); exact H|].
  unfold log_day. rewrite H. reflexivity.
Qed.

(** The zone of the examples keeps the offset of summer around every
    datetime from 2026-03-30T02:00 on. *)
Lemma nuuk_2026_summer (dt : datetime) :
  1774746000 + 90000 <= naive_seconds dt -> steady nuuk_2026 (-3600) dt.
Proof.
  intros H. split; [|intros u Hu]; unfold nuuk_2026.
  - destruct (Z.ltb_spec (naive_seconds dt) 1774746000); [lia|reflexivity].
  - destruct (Z.ltb_spec u 1774746000); [lia|reflexivity].
Qed.

(** ** The streak loop *)

Lemma run_of_unique (days_set : gset Z) (d k k' : Z) :
  run_of days_set d k -> run_of days_set d k' -> k = k'.
Proof.
  intros (H0 & Hin & Hout) (H0' & Hin' & Hout').
  destruct (Z.lt_trichotomy k k') as [Hlt|[Heq|Hgt]]; [|exact Heq|].
  - exfalso. apply Hout. apply Hin'. lia.
  - exfalso. apply Hout'. apply Hin. lia.
Qed.

Lemma streak_loop_run (room : nat) (days_set : gset Z) (d acc k : Z) :
  run_of days_set d k -> (Z.to_nat k <= room)%nat ->
  streak_loop room days_set d acc = Some (acc + k).
Proof.
  revert d acc k. induction room as [|room IH]; intros d acc k (H0 & Hin & Hout) Hk.
  - assert (k = 0) as -> by lia. rewrite Z.sub_0_r in Hout.
    simpl. rewrite decide_False by exact Hout. f_equal. lia.
  - simpl. destruct (Z.eq_dec k 0) as [->|Hne].
    + rewrite Z.sub_0_r in Hout. rewrite decide_False by exact Hout.
      f_equal. lia.
    + assert (Hd : d ∈ days_set).
      { specialize (Hin 0). rewrite Z.sub_0_r in Hin. apply Hin. lia. }
      rewrite decide_True by exact Hd.
      replace (acc + k) with (acc + 1 + (k - 1)) by lia.
      apply IH; [|lia]. repeat split.
      * lia.
      * intros i Hi. replace (d - 1 - i) with (d - (i + 1)) by lia. apply Hin. lia.
      * replace (d - 1 - (k - 1)) with (d - k) by lia. exact Hout.
Qed.

(** A loop that leaves has counted a run of days. *)
Lemma streak_loop_inv (room : nat) (days_set : gset Z) (d acc r : Z) :
  streak_loop room days_set d acc = Some r ->
  exists k, r = acc + k /\ run_of days_set d k /\ (Z.to_nat k <= room)%nat.
Proof.
  revert d acc r. induction room as [|room IH]; intros d acc r H; simpl in H.
  - destruct (decide (d ∈ days_set)) as [Hd|Hd]; [discriminate|].
    injection H as <-. exists 0. split; [lia|]. split; [|simpl; lia].
    repeat split; [lia|intros i Hi; lia|rewrite Z.sub_0_r; exact Hd].
  - destruct (decide (d ∈ days_set)) as [Hd|Hd].
    + apply IH in H as (k & -> & (H0 & Hin & Hout) & Hk).
      exists (k + 1). split; [lia|]. split; [|lia]. repeat split.
      * lia.
      * intros i Hi. destruct (Z.eq_dec i 0) as [->|Hne].
        -- rewrite Z.sub_0_r. exact Hd.
        -- replace (d - i) with (d - 1 - (i - 1)) by lia. apply Hin. lia.
      * replace (d - (k + 1)) with (d - 1 - k) by lia. exact Hout.
    + injection H as <-. exists 0. split; [lia|]. split; [|simpl; lia].
      repeat split; [lia|intros i Hi; lia|rewrite Z.sub_0_r; exact Hd].
Qed.

Lemma days_upto_le_length (dates : list Z) (d : Z) :
  (days_upto dates d <= length dates)%nat.
Proof. unfold days_upto. apply length_filter. Qed.

Lemma days_upto_pred (dates : list Z) (d : Z) :
  (days_upto dates (d - 1) <= days_upto dates d)%nat
  /\ (d ∈ dates -> (days_upto dates (d - 1) < days_upto dates d)%nat).
Proof.
  unfold days_upto. induction dates as [|x dates [IH1 IH2]].
  - split; [reflexivity|]. intros H. inversion H.
  - rewrite !filter_cons.
    destruct (decide (x <= d - 1)) as [H1|H1], (decide (x <= d)) as [H2|H2];
      cbn [length]; try lia.
    + split; [lia|]. intros Hin. apply elem_of_cons in Hin as [->|Hin].
      * lia.
      * specialize (IH2 Hin). lia.
    + split; [lia|]. intros Hin. apply elem_of_cons in Hin as [->|Hin].
      * lia.
      * exact (IH2 Hin).
Qed.

Lemma run_exists (dates : list Z) (d : Z) :
  exists k, run_of (list_to_set dates) d k /\ k <= Z.of_nat (days_upto dates d).
Proof.
  remember (days_upto dates d) as n eqn:Hn.
  revert d Hn. induction n as [n IH] using lt_wf_ind. intros d Hn.
  destruct (decide (d ∈ dates)) as [Hin|Hout].
  - destruct (days_upto_pred dates d) as [_ Hlt]. specialize (Hlt Hin).
    destruct (IH (days_upto dates (d - 1)) ltac:(lia) (d - 1) eq_refl)
      as (k & (H0 & Hk & Hend) & Hle).
    exists (k + 1). split; [repeat split|lia].
    + lia.
    + intros i Hi. destruct (Z.eq_dec i 0) as [->|Hne].
      * rewrite Z.sub_0_r. apply elem_of_list_to_set. exact Hin.
      * replace (d - i) with (d - 1 - (i - 1)) by lia. apply Hk. lia.
    + replace (d - (k + 1)) with (d - 1 - k) by lia. exact Hend.
  - exists 0. split; [repeat split|lia].
    + lia.
    + intros i Hi. lia.
    + rewrite Z.sub_0_r. rewrite elem_of_list_to_set. exact Hout.
Qed.

(** When no listed day is [date.min] the loop leaves with a count: the
    subtraction never passes [date.min]. *)
Lemma streak_loop_total (dates : list Z) (d : Z) :
  (forall x, x ∈ dates -> MINORDINAL < x) ->
  exists k, streak_loop (Z.to_nat (d - MINORDINAL)) (list_to_set dates) d 0 = Some k
            /\ run_of (list_to_set dates) d k
            /\ k <= Z.of_nat (days_upto dates d).
Proof.
  intros Hmin.
  destruct (run_exists dates d) as (k & Hrun & Hle).
  exists k. split; [|split; assumption].
  rewrite (streak_loop_run _ _ d 0 k Hrun); [f_equal; lia|].
  destruct Hrun as (H0 & Hin & _).
  destruct (Z.eq_dec k 0) as [->|Hne]; [simpl; lia|].
  specialize (Hin (k - 1) ltac:(lia)).
  apply elem_of_list_to_set, Hmin in Hin. unfold MINORDINAL in *. lia.
Qed.

(** ** The dictionary [by] and its sorted items *)

Lemma moods_on_nonempty (tz : zone) (k : string) (logs : list MoodLog) :
  moods_on tz k logs <> [] <-> exists l, l ∈ logs /\ day_key tz l = k.
Proof.
  unfold moods_on. split.
  - intros H. destruct (filter (fun l => day_key tz l = k) logs) as [|l r] eqn:E.
    + contradiction.
    + assert (Hin : l ∈ filter (fun l => day_key tz l = k) logs)
        by (rewrite E; left).
      apply list_elem_of_filter in Hin as [Hk Hin]. eauto.
  - intros (l & Hin & Hk) E.
    assert (Hf : l ∈ filter (fun l => day_key tz l = k) logs)
      by (apply list_elem_of_filter; auto).
    destruct (filter (fun l => day_key tz l = k) logs); [inversion Hf|discriminate].
Qed.

Lemma group_lookup_from (tz : zone) (logs : list MoodLog)
    (acc : gmap string (list Z)) (k : string) :
  fold_left
    (fun by_ l => setdefault_append by_ (day_key tz l) (mood l))
    logs acc !! k
  = match acc !! k, moods_on tz k logs with
    | None, [] => None
    | None, ms => Some ms
    | Some v, ms => Some (v ++ ms)
    end.
Proof.
  revert acc. induction logs as [|l logs IH]; intros acc.
  - simpl. destruct (acc !! k); [rewrite app_nil_r|]; reflexivity.
  - simpl. rewrite IH. unfold setdefault_append, moods_on.
    rewrite filter_cons.
    destruct (decide (day_key tz l = k)) as [<-|Hne].
    + rewrite lookup_insert_eq. simpl.
      destruct (acc !! day_key tz l); simpl.
      * rewrite <- app_assoc. reflexivity.
      * reflexivity.
    + rewrite lookup_insert_ne by exact Hne. reflexivity.
Qed.

Lemma group_of_lookup (tz : zone) (logs : list MoodLog) (k : string) (v : list Z) :
  group_of tz logs !! k = Some v
  <-> v = moods_on tz k logs /\ v <> [].
Proof.
  unfold group_of. rewrite group_lookup_from, lookup_empty.
  destruct (moods_on tz k logs) as [|m ms].
  - split; [discriminate|]. intros [-> H]. contradiction.
  - split.
    + intros [= <-]. split; [reflexivity|discriminate].
    + intros [-> _]. reflexivity.
Qed.

Lemma string_compare_refl (s : string) : String.compare s s = Eq.
Proof.
  induction s as [|c s IH]; [reflexivity|]. simpl.
  unfold Ascii.compare. rewrite N.compare_refl. exact IH.
Qed.

Lemma string_compare_lt_trans (a b c : string) :
  String.compare a b = Lt -> String.compare b c = Lt -> String.compare a c = Lt.
Proof.
  revert b c. induction a as [|x a IH]; intros [|y b] [|z c]; simpl; try congruence.
  unfold Ascii.compare.
  destruct (N.compare_spec (N_of_ascii x) (N_of_ascii y)) as [Exy|Lxy|Gxy];
    destruct (N.compare_spec (N_of_ascii y) (N_of_ascii z)) as [Eyz|Lyz|Gyz];
    try congruence; intros H1 H2.
  - rewrite Exy, Eyz, N.compare_refl. eauto.
  - rewrite (proj2 (N.compare_lt_iff _ _)) by lia. reflexivity.
  - rewrite (proj2 (N.compare_lt_iff _ _)) by lia. reflexivity.
  - rewrite (proj2 (N.compare_lt_iff _ _)) by lia. reflexivity.
Qed.

Lemma string_leb_trans (a b c : string) :
  String.leb a b = true -> String.leb b c = true -> String.leb a c = true.
Proof.
  unfold String.leb.
  destruct (String.compare a b) eqn:Eab; [|
    |discriminate].
  - apply String.compare_eq_iff in Eab as ->. auto.
  - destruct (String.compare b c) eqn:Ebc; [| |discriminate]; intros _ _.
    + apply String.compare_eq_iff in Ebc as <-. rewrite Eab. reflexivity.
    + rewrite (string_compare_lt_trans a b c Eab Ebc). reflexivity.
Qed.

Lemma string_leb_ne_ltb (a b : string) :
  String.leb a b = true -> a <> b -> String.ltb a b = true.
Proof.
  unfold String.leb, String.ltb.
  destruct (String.compare a b) eqn:E; [|reflexivity|discriminate].
  intros _ H. apply String.compare_eq_iff in E. contradiction.
Qed.

#[global] Instance item_le_total : Total item_le.
Proof. intros a b. apply String.leb_total. Qed.

#[global] Instance item_le_trans : Transitive item_le.
Proof. intros a b c. apply string_leb_trans. Qed.

Lemma sorted_items_elem (by_ : gmap string (list Z)) (k : string) (v : list Z) :
  (k, v) ∈ sorted_items by_ <-> by_ !! k = Some v.
Proof.
  unfold sorted_items. rewrite merge_sort_Permutation.
  apply elem_of_map_to_list.
Qed.

Lemma sorted_items_NoDup (by_ : gmap string (list Z)) :
  NoDup (map fst (sorted_items by_)).
Proof.
  unfold sorted_items.
  rewrite (merge_sort_Permutation item_le (map_to_list by_)).
  apply NoDup_fst_map_to_list.
Qed.

Lemma sorted_items_ascending (by_ : gmap string (list Z)) :
  ascending (map fst (sorted_items by_)).
Proof.
  pose proof (sorted_items_NoDup by_) as Hnd.
  assert (Hs : StronglySorted item_le (sorted_items by_))
    by (apply StronglySorted_merge_sort; apply _).
  unfold ascending.
  induction Hs as [|a l Hs IH Hall]; simpl in *; [constructor|].
  apply NoDup_cons in Hnd as [Hnotin Hnd].
  constructor; [exact (IH Hnd)|].
  apply Forall_forall. intros k Hk.
  apply list_elem_of_In in Hk. apply in_map_iff in Hk as (b & <- & Hb).
  apply string_leb_ne_ltb.
  - rewrite Forall_forall in Hall. apply Hall. apply list_elem_of_In. exact Hb.
  - intros E. apply Hnotin. rewrite E. apply list_elem_of_In, in_map, Hb.
Qed.

(** ** The result of [compute_insights] on a non-empty answer *)

Lemma mapM_filed (tz : zone) (logs : list MoodLog) :
  Forall (filed tz) logs -> mapM (log_date tz) logs = Some (map (log_day tz) logs).
Proof.
  intros H. apply mapM_Some_2.
  induction H as [|l logs Hl _ IH]; simpl; constructor; [|exact IH].
  apply log_day_filed, Hl.
Qed.

Lemma mapM_not_filed (tz : zone) (logs : list MoodLog) :
  ~ Forall (filed tz) logs -> mapM (log_date tz) logs = None.
Proof.
  intros H. destruct (mapM (log_date tz) logs) as [dates|] eqn:E; [|reflexivity].
  destruct H. apply mapM_Some_1 in E.
  induction E as [|l d logs dates Hd _ IH]; constructor; [|exact IH].
  exists d. exact Hd.
Qed.

Lemma group_by_day_from (tz : zone) (logs : list MoodLog)
    (acc : gmap string (list Z)) :
  Forall (filed tz) logs ->
  fold_left
    (fun acc l =>
       by_ ← acc;
       d ← log_date tz l;
       Some (setdefault_append by_ (isoformat d) (mood l)))
    logs (Some acc)
  = Some (fold_left (fun by_ l => setdefault_append by_ (day_key tz l) (mood l))
            logs acc).
Proof.
  intros H. revert acc. induction H as [|l logs Hl _ IH]; intros acc; [reflexivity|].
  simpl. rewrite (log_day_filed tz l Hl). cbn [mbind option_bind]. apply IH.
Qed.

Lemma group_by_day_filed (tz : zone) (logs : list MoodLog) :
  Forall (filed tz) logs -> group_by_day tz logs = Some (group_of tz logs).
Proof. apply group_by_day_from. Qed.

Lemma filed_dec (tz : zone) (logs : list MoodLog) :
  Forall (filed tz) logs \/ ~ Forall (filed tz) logs.
Proof.
  destruct (mapM (log_date tz) logs) as [dates|] eqn:E.
  - left. apply mapM_Some_1 in E.
    induction E as [|l d logs dates Hd _ IH]; constructor; [|exact IH].
    exists d. exact Hd.
  - right. intros H. rewrite (mapM_filed tz logs H) in E. discriminate.
Qed.

(** The result on a non-empty answer whose records are all filed, none
    under [date.min]. *)
Lemma compute_insights_on_nonempty (tz : zone) (now : datetime)
    (logs : list MoodLog) :
  logs <> [] ->
  Forall (filed tz) logs ->
  (forall l, l ∈ logs -> MINORDINAL < log_day tz l) ->
  exists k,
    compute_insights_on tz now logs
    = Some (mk_Insights
              (Some (py_round (int_true_div (sum (map mood logs)) (len logs)) 2))
              (len logs) k (by_day_of tz logs))
    /\ run_of (days_of tz logs) (date now) k
    /\ k <= len logs.
Proof.
  intros Hne Hfiled Hmin. destruct logs as [|l logs]; [contradiction|].
  destruct (streak_loop_total (map (log_day tz) (l :: logs)) (date now))
    as (k & Hloop & Hrun & Hle).
  { intros x Hx. apply list_elem_of_In, in_map_iff in Hx as (l' & <- & Hl').
    apply Hmin, list_elem_of_In, Hl'. }
  exists k. split; [|split].
  - unfold compute_insights_on.
    rewrite (mapM_filed tz _ Hfiled). cbn [mbind option_bind].
    rewrite Hloop. cbn [mbind option_bind].
    rewrite (group_by_day_filed tz _ Hfiled). reflexivity.
  - exact Hrun.
  - pose proof (days_upto_le_length (map (log_day tz) (l :: logs)) (date now)) as H.
    rewrite length_map in H. unfold len. lia.
Qed.

(** What a result says of the answer it was computed from. *)
Lemma compute_insights_on_inv (tz : zone) (now : datetime)
    (logs : list MoodLog) (r : Insights) :
  compute_insights_on tz now logs = Some r ->
  (logs = [] /\ r = mk_Insights None 0 0 [])
  \/ (logs <> [] /\ Forall (filed tz) logs
      /\ r = mk_Insights
               (Some (py_round (int_true_div (sum (map mood logs)) (len logs)) 2))
               (len logs) (streak r) (by_day_of tz logs)
      /\ run_of (days_of tz logs) (date now) (streak r)
      /\ streak r <= len logs).
Proof.
  intros H. destruct logs as [|l logs].
  - left. injection H as <-. split; reflexivity.
  - right. split; [discriminate|].
    destruct (filed_dec tz (l :: logs)) as [Hfiled|Hnot].
    + split; [exact Hfiled|].
      unfold compute_insights_on in H.
      rewrite (mapM_filed tz _ Hfiled) in H. cbn [mbind option_bind] in H.
      destruct (streak_loop _ _ _ _) as [k|] eqn:Hloop; [|discriminate].
      cbn [mbind option_bind] in H.
      rewrite (group_by_day_filed tz _ Hfiled) in H. cbn [mbind option_bind] in H.
      injection H as <-. cbn [streak].
      apply streak_loop_inv in Hloop as (k' & -> & Hrun & _).
      rewrite Z.add_0_l. split; [reflexivity|]. split; [exact Hrun|].
      destruct (run_exists (map (log_day tz) (l :: logs)) (date now))
        as (k2 & Hrun2 & Hle).
      rewrite (run_of_unique _ _ _ _ Hrun Hrun2).
      pose proof (days_upto_le_length (map (log_day tz) (l :: logs)) (date now)) as Hl.
      rewrite length_map in Hl. unfold len. lia.
    + unfold compute_insights_on in H.
      rewrite (mapM_not_filed tz _ Hnot) in H. discriminate.
Qed.

Lemma by_day_of_dates (tz : zone) (logs : list MoodLog) :
  map da_date (by_day_of tz logs)
  = map fst (sorted_items (group_of tz logs)).
Proof. unfold by_day_of. rewrite map_map. reflexivity. Qed.

Lemma by_day_of_ascending (tz : zone) (logs : list MoodLog) :
  ascending (map da_date (by_day_of tz logs)).
Proof. rewrite by_day_of_dates. apply sorted_items_ascending. Qed.

Lemma by_day_of_NoDup (tz : zone) (logs : list MoodLog) :
  NoDup (map da_date (by_day_of tz logs)).
Proof. rewrite by_day_of_dates. apply sorted_items_NoDup. Qed.

Lemma by_day_of_elem (tz : zone) (logs : list MoodLog) (e : DayAvg) :
  e ∈ by_day_of tz logs
  <-> (exists l, l ∈ logs /\ day_key tz l = da_date e)
      /\ da_avg e = mean2 (moods_on tz (da_date e) logs).
Proof.
  unfold by_day_of.
  change (map ?f ?l) with (f <$> l).
  rewrite list_elem_of_fmap. split.
  - intros ([k v] & -> & Hin). simpl.
    apply sorted_items_elem, group_of_lookup in Hin as [-> Hne].
    split; [|reflexivity]. apply moods_on_nonempty. exact Hne.
  - intros [Hl Havg]. destruct e as [k a]. simpl in *.
    exists (k, moods_on tz k logs). split.
    + simpl. rewrite Havg. reflexivity.
    + apply sorted_items_elem, group_of_lookup. split; [reflexivity|].
      apply moods_on_nonempty. exact Hl.
Qed.

Lemma by_day_of_date_elem (tz : zone) (logs : list MoodLog) (k : string) :
  k ∈ map da_date (by_day_of tz logs)
  <-> exists l, l ∈ logs /\ day_key tz l = k.
Proof.
  change (map ?f ?l) with (f <$> l).
  rewrite list_elem_of_fmap. split.
  - intros (e & -> & He). apply by_day_of_elem in He as [Hl _]. exact Hl.
  - intros Hl. exists (mk_DayAvg k (mean2 (moods_on tz k logs))).
    split; [reflexivity|]. apply by_day_of_elem. simpl. split; [exact Hl|reflexivity].
Qed.

Lemma days_of_elem (tz : zone) (logs : list MoodLog) (d : Z) :
  d ∈ days_of tz logs <-> exists l, l ∈ logs /\ log_day tz l = d.
Proof.
  unfold days_of. rewrite elem_of_list_to_set.
  change (map ?f ?l) with (f <$> l).
  rewrite list_elem_of_fmap. split.
  - intros (l & -> & Hl). eauto.
  - intros (l & Hl & <-). eauto.
Qed.

(** A run of present days is no longer than [by_day]. *)
Lemma run_le_by_day (tz : zone) (logs : list MoodLog) (d k : Z) :
  Forall (filed tz) logs ->
  run_of (days_of tz logs) d k ->
  k <= len (by_day_of tz logs).
Proof.
  intros Hfiled (H0 & Hin & _).
  set (L := (fun i => isoformat (d - i)) <$> seqZ 0 k).
  assert (Hday : forall i, 0 <= i < k ->
            exists l, l ∈ logs /\ log_day tz l = d - i).
  { intros i Hi. apply days_of_elem, Hin, Hi. }
  assert (Hv : forall i, 0 <= i < k -> valid_ordinal (d - i)).
  { intros i Hi. destruct (Hday i Hi) as (l & Hl & <-).
    apply log_day_valid.
    rewrite Forall_forall in Hfiled. apply Hfiled, Hl. }
  assert (Hnd : NoDup L).
  { apply NoDup_fmap_2_strong; [|apply NoDup_seqZ].
    intros i j Hi Hj E. apply elem_of_seqZ in Hi, Hj.
    apply isoformat_inj in E; [lia| |]; apply Hv; lia. }
  assert (Hsub : forall x, x ∈ L -> x ∈ map da_date (by_day_of tz logs)).
  { intros x Hx. apply list_elem_of_fmap in Hx as (i & -> & Hi).
    apply elem_of_seqZ in Hi. apply by_day_of_date_elem.
    destruct (Hday i ltac:(lia)) as (l & Hl & E).
    exists l. split; [exact Hl|]. unfold day_key. rewrite E. reflexivity. }
  pose proof (submseteq_length _ _ (NoDup_submseteq _ _ Hnd Hsub)) as Hlen.
  unfold L in Hlen. rewrite length_fmap, length_seqZ, length_map in Hlen.
  unfold len. lia.
Qed.

(** ** Records as the store keeps them *)

Lemma kept_filed (tz : zone) (logs : list MoodLog) :
  Forall (kept tz) logs -> Forall (filed tz) logs.
Proof.
  intros H. induction H as [|l logs Hl _ IH]; constructor; [|exact IH].
  apply (log_day_kept tz l Hl).
Qed.

Lemma kept_log_day (tz : zone) (logs : list MoodLog) (l : MoodLog) :
  Forall (kept tz) logs -> l ∈ logs -> log_day tz l = date (logged_at l).
Proof.
  intros H Hl. rewrite Forall_forall in H. apply (log_day_kept tz l (H l Hl)).
Qed.

Lemma day_key_kept (tz : zone) (l : MoodLog) :
  kept tz l -> day_key tz l = isoformat (date (logged_at l)).
Proof.
  intros Hl. unfold day_key. rewrite (proj2 (log_day_kept tz l Hl)). reflexivity.
Qed.

Lemma days_of_kept (tz : zone) (logs : list MoodLog) (d : Z) :
  Forall (kept tz) logs ->
  d ∈ days_of tz logs <-> logged_on logs d.
Proof.
  intros Hall. rewrite days_of_elem. unfold logged_on.
  split; intros (l & Hl & E); exists l; (split; [exact Hl|]);
    rewrite <- E; [symmetry|]; apply (kept_log_day tz logs l Hall Hl).
Qed.

(** On records as the store keeps them, logged at times around which the
    zone keeps its offset, [compute_insights] returns. *)
Lemma compute_insights_on_kept (tz : zone) (now : datetime)
    (logs : list MoodLog) :
  Forall (kept tz) logs -> logs <> [] ->
  exists k,
    compute_insights_on tz now logs
    = Some (mk_Insights
              (Some (py_round (int_true_div (sum (map mood logs)) (len logs)) 2))
              (len logs) k (by_day_of tz logs))
    /\ run_of (days_of tz logs) (date now) k
    /\ k <= len logs.
Proof.
  intros Hall Hne. apply compute_insights_on_nonempty.
  - exact Hne.
  - apply (kept_filed tz logs Hall).
  - intros l Hl. rewrite (kept_log_day tz logs l Hall Hl).
    rewrite Forall_forall in Hall. destruct (Hall l Hl) as (c & _ & _ & H1 & _).
    exact H1.
Qed.

Lemma compute_insights_on_returns (tz : zone) (now : datetime)
    (logs : list MoodLog) :
  Forall (kept tz) logs ->
  is_Some (compute_insights_on tz now logs).
Proof.
  intros Hall. destruct logs as [|l logs]; [eexists; reflexivity|].
  destruct (compute_insights_on_kept tz now (l :: logs) Hall
              ltac:(discriminate)) as (k & H & _).
  eexists. exact H.
Qed.

(** An empty answer of the store gives the empty result. *)
Lemma compute_insights_on_empty (tz : zone) (now : datetime) :
  compute_insights_on tz now [] = Some (mk_Insights None 0 0 []).
Proof. reflexivity. Qed.

(** No average means the empty result. *)
Lemma compute_insights_on_no_avg (tz : zone) (now : datetime)
    (logs : list MoodLog) (r : Insights) :
  compute_insights_on tz now logs = Some r ->
  avg_mood r = None -> r = mk_Insights None 0 0 [].
Proof.
  intros H Havg. apply compute_insights_on_inv in H as [[_ ->]|(_ & _ & E & _)];
    [reflexivity|].
  rewrite E in Havg. discriminate.
Qed.

(** Only the date of [now] enters the result. *)
Lemma compute_insights_on_today (tz : zone) (now now' : datetime)
    (logs : list MoodLog) :
  date now = date now' ->
  compute_insights_on tz now logs = compute_insights_on tz now' logs.
Proof. intros E. unfold compute_insights_on. rewrite E. reflexivity. Qed.

(** [compute_insights] is its body on the answer of the store, once
    [since] is found. *)
Lemma compute_insights_since (tz : zone) (db : store) (now0 now since : datetime)
    (anonymous_id : string) (days : Z) :
  sub_days now0 days = Some since ->
  compute_insights tz db now0 now anonymous_id days
  = compute_insights_on tz now (db anonymous_id since).
Proof. intros H. unfold compute_insights. rewrite H. reflexivity. Qed.


(** [since] is found for the windows of the endpoints at any clock reading
    from the year 2 to the year 9999: [timedelta] takes the days, and the
    date stays within Python's range. *)
Lemma sub_days_some (now0 : datetime) (days : Z) :
  Z.abs days <= 999999999 ->
  valid_ordinal (ordinal now0 - days) ->
  sub_days now0 days
  = Some (mk_datetime (ordinal now0 - days) (second_of_day now0) (microsecond now0)).
Proof.
  intros Hd [Hlo Hhi]. unfold sub_days.
  destruct (Z.leb_spec (Z.abs days) 999999999); [|lia]. cbv zeta.
  destruct (Z.leb_spec MINORDINAL (ordinal now0 - days)); [|lia].
  destruct (Z.leb_spec (ordinal now0 - days) MAXORDINAL); [|lia].
  reflexivity.
Qed.

Lemma filter_ext_elem {A : Type} (P Q : A -> Prop)
    `{!forall x, Decision (P x)} `{!forall x, Decision (Q x)} (l : list A) :
  (forall x, x ∈ l -> P x <-> Q x) -> filter P l = filter Q l.
Proof.
  induction l as [|x l IH]; intros Hpq; [reflexivity|].
  rewrite !filter_cons.
  assert (IH' : filter P l = filter Q l).
  { apply IH. intros y Hy. apply Hpq. right. exact Hy. }
  pose proof (Hpq x ltac:(left)) as Hx.
  destruct (decide (P x)), (decide (Q x)); rewrite IH'; tauto.
Qed.

Lemma library_entries : SUGGESTION_LIBRARY = [breath_2; meditate_5; walk_5; affirm_1].
Proof. reflexivity. Qed.

Lemma handle_state (tz : zone) (db : store) (now0 now : datetime)
    (rq : Request) (g : Globals) :
  handle tz db now0 now rq g = g.
Proof.
  destruct rq as [a days|a range]; simpl.
  - unfold get_suggestions.
    destruct (compute_insights tz db now0 now a days) as [ins|]; [|reflexivity].
    destruct (select_suggestions (library g) ins) as [[r picks]|]; reflexivity.
  - unfold insights.
    destruct (compute_insights tz db now0 now a (window_days range)) as [data|];
      [|reflexivity].
    destruct (summarize data). reflexivity.
Qed.

(** ** The result does not depend on the order of the records *)

Lemma string_ltb_asym (a b : string) :
  String.ltb a b = true -> String.ltb b a = true -> False.
Proof.
  unfold String.ltb. rewrite (String.compare_antisym a b).
  destruct (String.compare b a); simpl; intros H1 H2; discriminate.
Qed.

Lemma string_ltb_trans (a b c : string) :
  String.ltb a b = true -> String.ltb b c = true -> String.ltb a c = true.
Proof.
  unfold String.ltb.
  destruct (String.compare a b) eqn:Eab; try discriminate.
  destruct (String.compare b c) eqn:Ebc; try discriminate.
  rewrite (string_compare_lt_trans a b c Eab Ebc). reflexivity.
Qed.

Lemma ascending_NoDup (ks : list string) : ascending ks -> NoDup ks.
Proof.
  unfold ascending. induction 1 as [|k ks _ IH Hall]; constructor; [|exact IH].
  intros Hin. rewrite Forall_forall in Hall.
  apply (string_ltb_asym k k); apply Hall, Hin.
Qed.

(** Two strictly ascending lists with the same elements are equal. *)
Lemma ascending_unique (ks ks' : list string) :
  ascending ks -> ascending ks' -> (forall k, k ∈ ks <-> k ∈ ks') -> ks = ks'.
Proof.
  intros H1 H2 Hel.
  apply (StronglySorted_unique_strong (fun a b => String.ltb a b = true));
    [|exact H1|exact H2|].
  - intros x1 x2 _ _ Hlt Hgt. destruct (string_ltb_asym x1 x2 Hlt Hgt).
  - apply NoDup_Permutation; auto using ascending_NoDup.
Qed.

Lemma sum_perm (xs ys : list Z) : xs ≡ₚ ys -> sum xs = sum ys.
Proof.
  induction 1 as [|x xs ys _ IH|x y xs|xs ys zs _ IH1 _ IH2].
  - reflexivity.
  - rewrite !sum_cons, IH. reflexivity.
  - rewrite !sum_cons. lia.
  - congruence.
Qed.

Lemma mean2_perm (xs ys : list Z) : xs ≡ₚ ys -> mean2 xs = mean2 ys.
Proof.
  intros H. unfold mean2, len.
  rewrite (sum_perm xs ys H), (Permutation_length H). reflexivity.
Qed.

Lemma moods_on_perm (tz : zone) (k : string) (logs logs' : list MoodLog) :
  logs ≡ₚ logs' -> moods_on tz k logs ≡ₚ moods_on tz k logs'.
Proof.
  intros H. unfold moods_on. change (map ?f ?l) with (f <$> l).
  rewrite H. reflexivity.
Qed.

(** [by_day] read off the sorted keys. *)
Lemma by_day_of_keys (tz : zone) (logs : list MoodLog) :
  by_day_of tz logs
  = map (fun k => mk_DayAvg k (mean2 (moods_on tz k logs)))
        (map da_date (by_day_of tz logs)).
Proof.
  rewrite by_day_of_dates. unfold by_day_of. rewrite map_map.
  apply map_ext_in. intros [k v] Hin. simpl.
  apply list_elem_of_In, sorted_items_elem, group_of_lookup in Hin as [-> _].
  reflexivity.
Qed.

Lemma by_day_of_perm (tz : zone) (logs logs' : list MoodLog) :
  logs ≡ₚ logs' -> by_day_of tz logs = by_day_of tz logs'.
Proof.
  intros H.
  assert (Hk : map da_date (by_day_of tz logs)
               = map da_date (by_day_of tz logs')).
  { apply ascending_unique; try apply by_day_of_ascending.
    intros k. rewrite !by_day_of_date_elem.
    split; intros (l & Hl & E); exists l; (split; [|exact E]).
    - rewrite <- H. exact Hl.
    - rewrite H. exact Hl. }
  rewrite (by_day_of_keys tz logs), (by_day_of_keys tz logs'), Hk.
  apply map_ext. intros k. f_equal. apply mean2_perm, moods_on_perm, H.
Qed.

(** The body of [compute_insights] on a non-empty answer whose records are
    all filed. *)
Lemma compute_insights_on_filed (tz : zone) (now : datetime) (logs : list MoodLog) :
  logs <> [] -> Forall (filed tz) logs ->
  compute_insights_on tz now logs
  = (k ← streak_loop (Z.to_nat (date now - MINORDINAL)) (days_of tz logs) (date now) 0;
     Some (mk_Insights
             (Some (py_round (int_true_div (sum (map mood logs)) (len logs)) 2))
             (len logs) k (by_day_of tz logs))).
Proof.
  intros Hne Hfiled. destruct logs as [|l logs]; [contradiction|].
  unfold compute_insights_on.
  rewrite (mapM_filed tz _ Hfiled). cbn [mbind option_bind].
  fold (days_of tz (l :: logs)).
  destruct (streak_loop _ _ _ _) as [k|]; [|reflexivity].
  cbn [mbind option_bind].
  rewrite (group_by_day_filed tz _ Hfiled). reflexivity.
Qed.

(** The body of [compute_insights] raises when a record is not filed. *)
Lemma compute_insights_on_not_filed (tz : zone) (now : datetime)
    (logs : list MoodLog) :
  ~ Forall (filed tz) logs -> compute_insights_on tz now logs = None.
Proof.
  intros Hnot. destruct logs as [|l logs]; [destruct Hnot; constructor|].
  unfold compute_insights_on. rewrite (mapM_not_filed tz _ Hnot). reflexivity.
Qed.

(** A permutation of the answer, and another time of the same day, give
    the same outcome: the same result, or an exception either way. *)
Lemma compute_insights_on_perm (tz : zone) (now now' : datetime)
    (logs logs' : list MoodLog) :
  logs ≡ₚ logs' -> date now = date now' ->
  compute_insights_on tz now logs = compute_insights_on tz now' logs'.
Proof.
  intros H Hday. rewrite (compute_insights_on_today tz now now' logs Hday).
  destruct logs as [|l logs].
  { apply Permutation_nil in H. subst. reflexivity. }
  destruct logs' as [|l' logs'].
  { symmetry in H. apply Permutation_nil in H. discriminate. }
  destruct (filed_dec tz (l :: logs)) as [Hfiled|Hnot].
  - assert (Hfiled' : Forall (filed tz) (l' :: logs')) by (rewrite <- H; exact Hfiled).
    rewrite (compute_insights_on_filed tz now' (l :: logs)) by (discriminate || exact Hfiled).
    rewrite (compute_insights_on_filed tz now' (l' :: logs')) by (discriminate || exact Hfiled').
    assert (Hdays : days_of tz (l :: logs) = days_of tz (l' :: logs')).
    { unfold days_of. change (map ?f ?x) with (f <$> x). rewrite H. reflexivity. }
    assert (Hm : map mood (l :: logs) ≡ₚ map mood (l' :: logs')).
    { change (map ?f ?x) with (f <$> x). rewrite H. reflexivity. }
    rewrite Hdays, (sum_perm _ _ Hm). unfold len. rewrite (Permutation_length H).
    rewrite (by_day_of_perm tz _ _ H). reflexivity.
  - assert (Hnot' : ~ Forall (filed tz) (l' :: logs')) by (rewrite <- H; exact Hnot).
    rewrite (compute_insights_on_not_filed tz now' _ Hnot).
    rewrite (compute_insights_on_not_filed tz now' _ Hnot'). reflexivity.
Qed.

(** ** The result depends on the zone through the days of filing only *)

Lemma fold_left_ext_elem {A B : Type} (f g : A -> B -> A) (l : list B) (a : A) :
  (forall acc x, x ∈ l -> f acc x = g acc x) ->
  fold_left f l a = fold_left g l a.
Proof.
  revert a. induction l as [|x l IH]; intros a H; simpl; [reflexivity|].
  rewrite (H a x ltac:(left)). apply IH.
  intros acc y Hy. apply H. right. exact Hy.
Qed.

Lemma mapM_ext_elem {A B : Type} (f g : A -> option B) (l : list A) :
  (forall x, x ∈ l -> f x = g x) -> mapM f l = mapM g l.
Proof.
  induction l as [|x l IH]; intros H; [reflexivity|].
  cbn [mapM]. rewrite (H x ltac:(left)), IH; [reflexivity|].
  intros y Hy. apply H. right. exact Hy.
Qed.

Lemma compute_insights_on_ext (tz tz' : zone) (now : datetime)
    (logs : list MoodLog) :
  (forall l, l ∈ logs -> log_date tz l = log_date tz' l) ->
  compute_insights_on tz now logs = compute_insights_on tz' now logs.
Proof.
  intros H. destruct logs as [|l0 logs]; [reflexivity|].
  unfold compute_insights_on.
  rewrite (mapM_ext_elem (log_date tz) (log_date tz') (l0 :: logs) H).
  assert (Hg : group_by_day tz (l0 :: logs) = group_by_day tz' (l0 :: logs)).
  { unfold group_by_day. apply fold_left_ext_elem.
    intros acc l Hl. rewrite (H l Hl). reflexivity. }
  rewrite Hg. reflexivity.
Qed.

(** The zone does not matter on records as the store keeps them, logged
    at times around which either zone keeps its offset. *)
Lemma compute_insights_on_zone (tz tz' : zone) (now : datetime)
    (logs : list MoodLog) :
  Forall (kept tz) logs -> Forall (kept tz') logs ->
  compute_insights_on tz now logs = compute_insights_on tz' now logs.
Proof.
  intros H H'. apply compute_insights_on_ext. intros l Hl.
  rewrite Forall_forall in H, H'.
  rewrite (log_date_kept tz l (H l Hl)).
  rewrite (log_date_kept tz' l (H' l Hl)). reflexivity.
Qed.

(** ** Results on the claims *)

(** Every result carries the run of days its streak counts, the number of
    records and the list [by_day_of]; all its records were filed. *)
Lemma compute_insights_on_streak (tz : zone) (now : datetime)
    (logs : list MoodLog) (r : Insights) :
  compute_insights_on tz now logs = Some r ->
  Forall (filed tz) logs
  /\ run_of (days_of tz logs) (date now) (streak r)
  /\ entries r = len logs
  /\ streak r <= len logs
  /\ by_day r = by_day_of tz logs.
Proof.
  intros H.
  apply compute_insights_on_inv in H as [[-> ->]|(_ & Hfiled & E & Hrun & Hle)].
  - split; [constructor|]. simpl. split; [|split; [reflexivity|split; [reflexivity|reflexivity]]].
    split; [lia|]. split; [intros i Hi; lia|].
    unfold days_of. simpl. apply not_elem_of_empty.
  - split; [exact Hfiled|]. split; [exact Hrun|]. rewrite E. cbn [entries streak by_day].
    split; [reflexivity|]. split; [exact Hle|reflexivity].
Qed.

(** A record of a returned result is filed under the day [log_date] gives. *)
Lemma days_of_filed (tz : zone) (logs : list MoodLog) (d : Z) :
  Forall (filed tz) logs ->
  d ∈ days_of tz logs <-> exists l, l ∈ logs /\ log_date tz l = Some d.
Proof.
  intros Hfiled. rewrite days_of_elem. rewrite Forall_forall in Hfiled.
  split; intros (l & Hl & E); exists l; (split; [exact Hl|]).
  - rewrite (log_day_filed tz l (Hfiled l Hl)), E. reflexivity.
  - unfold log_day. rewrite E. reflexivity.
Qed.

(** The average of a returned result on a non-empty answer, in
    hundredths. *)
Lemma avg_mood_hundredths (tz : zone) (now : datetime) (logs : list MoodLog)
    (r : Insights) :
  compute_insights_on tz now logs = Some r ->
  logs <> [] ->
  Forall valid_mood logs ->
  len logs < 2 ^ 40 ->
  exists h,
    avg_mood r = Some (decimal2 h)
    /\ entries r = len logs
    /\ 100 <= h <= 500
    /\ 2 * Z.abs (100 * sum (map mood logs) - h * len logs) <= len logs.
Proof.
  intros E Hne Hv Hn.
  apply compute_insights_on_inv in E as [[-> _]|(_ & _ & -> & _)]; [contradiction|].
  destruct (mean2_rounding (map mood logs)) as (h & Hh & Hr & Herr).
  { destruct logs; [contradiction|discriminate]. }
  { apply moods_valid, Hv. }
  { unfold len. rewrite length_map. exact Hn. }
  unfold mean2, len in Hh, Herr. rewrite length_map in Hh, Herr.
  exists h. cbn [avg_mood entries].
  split; [f_equal; exact Hh|]. split; [reflexivity|]. split; [exact Hr|exact Herr].
Qed.

(** A hundredth within half a hundredth of a mean that is not a tie is the
    mean rounded half up, and rounded half to even. *)
Lemma nearest_hundredth (s n h : Z) :
  0 < n ->
  2 * Z.abs (100 * s - h * n) <= n ->
  2 * ((100 * s) mod n) <> n ->
  h = round_half_up_100 s n /\ h = round_half_even_100 s n.
Proof.
  intros Hn Herr Htie.
  pose proof (Z.div_mod (100 * s) n ltac:(lia)) as Hdm.
  pose proof (Z.mod_pos_bound (100 * s) n Hn) as Hr.
  set (q := 100 * s / n) in *. set (r := (100 * s) mod n) in *.
  assert (Hh : (2 * r < n -> h = q) /\ (n < 2 * r -> h = q + 1)).
  { split; intros Hlt.
    - assert (h < q + 1) by nia. assert (q - 1 < h) by nia. lia.
    - assert (h < q + 2) by nia. assert (q < h) by nia. lia. }
  destruct Hh as [Hlo Hhi]. split.
  - unfold round_half_up_100.
    destruct (Z_lt_le_dec (2 * r) n) as [Hlt|Hge].
    + rewrite (Hlo Hlt). apply (Z.div_unique _ _ q (2 * r + n)); lia.
    + assert (Hgt : n < 2 * r) by lia. rewrite (Hhi Hgt).
      apply (Z.div_unique _ _ (q + 1) (2 * r - n)); lia.
  - unfold round_half_even_100. fold q r. cbv zeta.
    destruct (Z.ltb_spec (2 * r) n) as [Hlt|Hge]; [exact (Hlo Hlt)|].
    destruct (Z.ltb_spec n (2 * r)) as [Hgt|Hle]; [exact (Hhi Hgt)|].
    exfalso. lia.
Qed.

(** C5: when the store answers with no record, [compute_insights] returns
    exactly [{avg_mood: null, entries: 0, streak: 0, by_day: []}]. *)
Theorem C5_empty_records (tz : zone) (db : store) (now0 now since : datetime)
    (anonymous_id : string) (days : Z) :
  sub_days now0 days = Some since ->
  db anonymous_id since = [] ->
  compute_insights tz db now0 now anonymous_id days
  = Some (mk_Insights None 0 0 []).
Proof.
  intros Hsince H. rewrite (compute_insights_since _ _ _ _ _ _ _ Hsince), H.
  reflexivity.
Qed.

Lemma C5_empty_records_witness :
  compute_insights utc (fun _ _ => []) (datetime_of 2026 11 4 10 30 0 0)
    (datetime_of 2026 11 4 10 30 0 1) "u1" 7
  = Some (mk_Insights None 0 0 []).
Proof.
  apply (C5_empty_records utc (fun _ _ => []) (datetime_of 2026 11 4 10 30 0 0)
           (datetime_of 2026 11 4 10 30 0 1) (datetime_of 2026 10 28 10 30 0 0)
           "u1" 7); reflexivity.
Defined.

(** C2 as the claim words it fails at a tie: of forty records, 37 with
    the mood 1 and 3 with the mood 2, the mean is 43/40 = 1.075, which is
    1.08 rounded half up and rounded half to even; [avg_mood] is 1.07. *)
Lemma C2_counterexample :
  Forall (kept utc) tie_logs
  /\ Forall valid_mood tie_logs
  /\ sum (map mood tie_logs) = 43
  /\ len tie_logs = 40
  /\ round_half_up_100 43 40 = 108
  /\ round_half_even_100 43 40 = 108
  /\ exists r,
       compute_insights_on utc scenario_now tie_logs = Some r
       /\ entries r = 40
       /\ avg_mood r = Some (decimal2 107)
       /\ avg_mood r
          <> Some (decimal2 (round_half_up_100 (sum (map mood tie_logs)) (len tie_logs)))
       /\ avg_mood r
          <> Some (decimal2 (round_half_even_100 (sum (map mood tie_logs)) (len tie_logs))).
Proof.
  split.
  { apply (fixed_kept utc 0); [intros u; reflexivity|].
    unfold tie_logs. apply Forall_app. split; apply Forall_forall; intros l Hl;
      apply list_elem_of_In, repeat_spec in Hl; subst l;
      (repeat split; try (vm_compute; congruence); try (left; vm_compute; congruence)). }
  split.
  { unfold tie_logs. apply Forall_app. split; apply Forall_forall; intros l Hl;
      apply list_elem_of_In, repeat_spec in Hl; subst l; vm_compute;
      split; discriminate. }
  split; [reflexivity|]. split; [reflexivity|].
  split; [reflexivity|]. split; [reflexivity|].
  eexists. split; [vm_compute; reflexivity|].
  split; [reflexivity|]. split; [vm_compute; reflexivity|].
  split; vm_compute; discriminate.
Qed.

(** C2 (amended): in every result [compute_insights] returns on a
    non-empty answer, in any zone, [entries] is the number of records, and
    for moods from 1 to 5 [avg_mood] is the double written [h/100], where
    [h/100] is within half a hundredth of the exact mean and is the mean
    rounded to two places, half up and half to even alike, whenever the
    mean is not halfway between two hundredths.  On records as the store
    keeps them, logged at times around which the zone keeps its offset,
    [compute_insights] returns.
    The moods 1, 2, 2 give 1.67. *)
Theorem C2_entries_and_average :
  (forall (tz : zone) (now : datetime) (logs : list MoodLog) (r : Insights),
      compute_insights_on tz now logs = Some r ->
      logs <> [] -> Forall valid_mood logs -> len logs < 2 ^ 40 ->
      entries r = len logs
      /\ exists h,
           avg_mood r = Some (decimal2 h)
           /\ 100 <= h <= 500
           /\ 2 * Z.abs (100 * sum (map mood logs) - h * len logs) <= len logs
           /\ (2 * ((100 * sum (map mood logs)) mod len logs) <> len logs ->
               h = round_half_up_100 (sum (map mood logs)) (len logs)
               /\ h = round_half_even_100 (sum (map mood logs)) (len logs)))
  /\ (forall (tz : zone) (now : datetime) (logs : list MoodLog),
        Forall (kept tz) logs ->
        exists r, compute_insights_on tz now logs = Some r)
  /\ (forall (tz : zone) (now d1 d2 d3 : datetime),
        Forall (kept tz) [log_at 1 d1; log_at 2 d2; log_at 2 d3] ->
        exists r,
          compute_insights_on tz now [log_at 1 d1; log_at 2 d2; log_at 2 d3]
          = Some r
          /\ entries r = 3 /\ avg_mood r = Some (decimal2 167)).
Proof.
  split; [|split].
  - intros tz now logs r H Hne Hmoods Hlen.
    destruct (avg_mood_hundredths tz now logs r H Hne Hmoods Hlen)
      as (h & Havg & Hent & Hh & Herr).
    split; [exact Hent|]. exists h.
    split; [exact Havg|]. split; [exact Hh|]. split; [exact Herr|].
    intros Htie. apply nearest_hundredth; [|exact Herr|exact Htie].
    unfold len. destruct logs; [contradiction|simpl; lia].
  - intros tz now logs Hkept.
    apply (compute_insights_on_returns tz now logs Hkept).
  - intros tz now d1 d2 d3 Hkept.
    destruct (compute_insights_on_kept tz now _ Hkept ltac:(discriminate))
      as (k & H & _).
    eexists. split; [exact H|]. split; reflexivity.
Qed.

Lemma C2_entries_and_average_witness :
  compute_insights_on utc scenario_now scenario2_logs = Some scenario2_result
  /\ entries scenario2_result = len scenario2_logs
  /\ exists h,
       avg_mood scenario2_result = Some (decimal2 h)
       /\ 100 <= h <= 500
       /\ 2 * Z.abs (100 * sum (map mood scenario2_logs) - h * len scenario2_logs)
          <= len scenario2_logs
       /\ (2 * ((100 * sum (map mood scenario2_logs)) mod len scenario2_logs)
           <> len scenario2_logs ->
           h = round_half_up_100 (sum (map mood scenario2_logs)) (len scenario2_logs)
           /\ h = round_half_even_100 (sum (map mood scenario2_logs))
                    (len scenario2_logs)).
Proof.
  assert (H : compute_insights_on utc scenario_now scenario2_logs
              = Some scenario2_result) by (vm_compute; reflexivity).
  split; [exact H|].
  apply (proj1 C2_entries_and_average utc scenario_now scenario2_logs
           scenario2_result H).
  - discriminate.
  - repeat constructor; vm_compute; discriminate.
  - reflexivity.
Defined.

(** C1 (evaluation at the failing input): a record logged at
    1969-12-30T23:59:59.5, half a second before midnight, is filed under
    1969-12-31, a day on which no record was logged: its timestamp is
    -86400.5, which [int] truncates to -86400. *)
Theorem C1_pre_epoch_fraction_filed_next_day :
  let l := log_at 3 (datetime_of 1969 12 30 23 59 59 500000) in
  valid_datetime (logged_at l)
  /\ isoformat (date (logged_at l)) = "1969-12-30"%string
  /\ timestamp utc (logged_at l) = Some (int_true_div (-172801) 2)
  /\ int_of_float (int_true_div (-172801) 2) = Some (-86400)
  /\ log_date utc l = Some (date (logged_at l) + 1)
  /\ compute_insights_on utc (datetime_of 2026 11 4 10 30 0 0) [l]
     = Some (mk_Insights (Some (decimal2 300)) 1 0
               [mk_DayAvg "1969-12-31" (decimal2 300)]).
Proof.
  cbv zeta. split; [|split; [|split; [|split; [|split]]]].
  - unfold valid_datetime, valid_ordinal. vm_compute. intuition discriminate.
  - reflexivity.
  - vm_compute. reflexivity.
  - vm_compute. reflexivity.
  - vm_compute. reflexivity.
  - vm_compute. reflexivity.
Qed.

(** C3 as the claim words it fails twice: three records on three
    consecutive days ending today satisfy its premise for [k = 1] and give
    the streak 3, not 2; and a record logged half a second before
    1970-01-01 gives the streak 1 on 1970-01-01, a day without a record. *)
Lemma C3_counterexample :
  (let now := datetime_of 2026 11 4 10 30 0 0 in
   let logs := [log_at 4 (datetime_of 2026 11 4 8 0 0 0);
                log_at 4 (datetime_of 2026 11 3 8 0 0 0);
                log_at 5 (datetime_of 2026 11 2 8 0 0 0)] in
   (forall i, 0 <= i <= 1 -> logged_on logs (date now - i))
   /\ exists r, compute_insights_on utc now logs = Some r
                /\ streak r = 3 /\ streak r <> 1 + 1)
  /\ (let now := datetime_of 1970 1 1 0 0 10 0 in
      let logs := [log_at 3 (datetime_of 1969 12 31 23 59 59 500000)] in
      ~ logged_on logs (date now)
      /\ exists r, compute_insights_on utc now logs = Some r /\ streak r = 1).
Proof.
  split; cbv zeta.
  - split.
    + intros i Hi. assert (i = 0 \/ i = 1) as [->| ->] by lia.
      * eexists. split; [left|]. reflexivity.
      * eexists. split; [right; left|]. reflexivity.
    + eexists. split; [vm_compute; reflexivity|]. split; [reflexivity|discriminate].
  - split.
    + intros (l & Hl & E). apply list_elem_of_singleton in Hl. subst l.
      vm_compute in E. discriminate.
    + eexists. split; [vm_compute; reflexivity|]. reflexivity.
Qed.

(** C3 (amended): for records as the store keeps them, logged at times
    around which the zone keeps its offset, [compute_insights] returns,
    and the streak is the
    number of consecutive days, ending at the date of [now] and walking
    backward, on which a record was logged, up to the first day without
    one; a streak of at least 1 needs a record logged today; records on
    today and on every day back to [k] days ago give a streak of at least
    [k+1], and of exactly [k+1] when no record was logged [k+1] days ago. *)
Theorem C3_streak (tz : zone) (now : datetime) (logs : list MoodLog) :
  Forall (kept tz) logs ->
  exists r,
    compute_insights_on tz now logs = Some r
    /\ 0 <= streak r
    /\ (forall i, 0 <= i < streak r -> logged_on logs (date now - i))
    /\ ~ logged_on logs (date now - streak r)
    /\ (1 <= streak r -> logged_on logs (date now))
    /\ (forall k, 0 <= k ->
          (forall i, 0 <= i <= k -> logged_on logs (date now - i)) ->
          k + 1 <= streak r
          /\ (~ logged_on logs (date now - (k + 1)) -> streak r = k + 1)).
Proof.
  intros Hkept.
  destruct (compute_insights_on_returns tz now logs Hkept) as (r & H).
  destruct (compute_insights_on_streak tz now logs r H)
    as (_ & (H0 & Hin & Hout) & _).
  exists r. split; [exact H|]. split; [exact H0|].
  set (k := streak r) in *.
  assert (Hon : forall d, d ∈ days_of tz logs <-> logged_on logs d)
    by (intros d; apply (days_of_kept tz logs d Hkept)).
  split; [intros i Hi; apply Hon, Hin, Hi|].
  split; [intros Hc; apply Hout, Hon, Hc|].
  split.
  - intros H1. specialize (Hin 0 ltac:(lia)). rewrite Z.sub_0_r in Hin.
    apply Hon, Hin.
  - intros j Hj Hall.
    assert (Hle : j + 1 <= k).
    { destruct (Z_lt_le_dec k (j + 1)) as [Hlt|]; [|assumption].
      exfalso. apply Hout, Hon, Hall. lia. }
    split; [exact Hle|]. intros Hnone.
    destruct (Z.eq_dec k (j + 1)) as [|Hne]; [assumption|].
    exfalso. apply Hnone, Hon, Hin. lia.
Qed.

Lemma C3_streak_witness :
  exists r,
    compute_insights_on utc scenario_now scenario3_logs = Some r
    /\ 0 <= streak r
    /\ (forall i, 0 <= i < streak r ->
          logged_on scenario3_logs (date scenario_now - i))
    /\ ~ logged_on scenario3_logs (date scenario_now - streak r)
    /\ (1 <= streak r -> logged_on scenario3_logs (date scenario_now))
    /\ (forall k, 0 <= k ->
          (forall i, 0 <= i <= k ->
             logged_on scenario3_logs (date scenario_now - i)) ->
          k + 1 <= streak r
          /\ (~ logged_on scenario3_logs (date scenario_now - (k + 1)) ->
              streak r = k + 1)).
Proof.
  apply (C3_streak utc scenario_now scenario3_logs).
  apply (fixed_kept utc 0); [intros u; reflexivity|].
  repeat constructor; vm_compute; congruence.
Defined.

(** The rule table on the library. *)
Lemma select_suggestions_table (ins : Insights) :
  exists r picks,
    select_suggestions SUGGESTION_LIBRARY ins = Some (r, picks)
    /\ (avg_mood ins = None ->
        r = "Suggested to help you start your routine"%string
        /\ picks = [breath_2; meditate_5])
    /\ (forall avg, avg_mood ins = Some avg ->
          float_lt_int avg 3 = true -> 3 <= entries ins ->
          r = "Suggested because your average mood has been low this week"%string
          /\ picks = [breath_2; meditate_5])
    /\ (forall avg, avg_mood ins = Some avg ->
          float_lt_int avg 3 = false \/ entries ins < 3 ->
          r = "Suggested based on your recent logs"%string
          /\ picks = [walk_5; affirm_1]).
Proof.
  unfold select_suggestions.
  destruct (avg_mood ins) as [avg|].
  - destruct (float_lt_int avg 3) eqn:Elt; destruct (Z.leb_spec 3 (entries ins));
      simpl; eexists _, _; (split; [reflexivity|]);
      (split; [discriminate|]);
      (split; [intros a [= <-] Ha He|intros a [= <-] Hor]);
      try (split; reflexivity); try congruence; try lia.
    destruct Hor; [congruence|lia].
  - eexists _, _. split; [reflexivity|]. split; [auto|].
    split; intros; discriminate.
Qed.

(** C4: the rule table of the suggestion selection, first match first:
    no average, then an average below 3 on at least three entries, then
    the rest, with the picks at the positions 0, 1 and 2, 3 of the
    library; when [compute_insights] returns, the endpoint answers with
    the selection for the insights it computed, and when it raises the
    endpoint has no answer; on an average written [h/100] the test
    [avg_mood < 3] is [h < 300]. *)
Theorem C4_rule_table :
  SUGGESTION_LIBRARY = [breath_2; meditate_5; walk_5; affirm_1]
  /\ (forall ins : Insights,
      exists r picks,
        select_suggestions SUGGESTION_LIBRARY ins = Some (r, picks)
        /\ (avg_mood ins = None ->
            r = "Suggested to help you start your routine"%string
            /\ picks = [breath_2; meditate_5])
        /\ (forall avg, avg_mood ins = Some avg ->
              float_lt_int avg 3 = true -> 3 <= entries ins ->
              r = "Suggested because your average mood has been low this week"%string
              /\ picks = [breath_2; meditate_5])
        /\ (forall avg, avg_mood ins = Some avg ->
              float_lt_int avg 3 = false \/ entries ins < 3 ->
              r = "Suggested based on your recent logs"%string
              /\ picks = [walk_5; affirm_1]))
  /\ (forall (tz : zone) (db : store) (now0 now : datetime)
             (anonymous_id : string) (days : Z) (ins : Insights),
        compute_insights tz db now0 now anonymous_id days = Some ins ->
        exists r picks,
          select_suggestions SUGGESTION_LIBRARY ins = Some (r, picks)
          /\ get_suggestions tz db now0 now anonymous_id days initial_globals
             = (Some (mk_SuggestionResponse r picks ins), initial_globals))
  /\ (forall (tz : zone) (db : store) (now0 now : datetime)
             (anonymous_id : string) (days : Z),
        compute_insights tz db now0 now anonymous_id days = None ->
        get_suggestions tz db now0 now anonymous_id days initial_globals
        = (None, initial_globals))
  /\ (forall h : Z, 100 <= h <= 500 ->
        float_lt_int (decimal2 h) 3 = (h <? 300)).
Proof.
  split; [reflexivity|]. split; [exact select_suggestions_table|].
  split; [|split; [|exact decimal2_lt_3]].
  - intros tz db now0 now a days ins Hins.
    destruct (select_suggestions_table ins) as (r & picks & Hs & _).
    exists r, picks. split; [exact Hs|].
    unfold get_suggestions. rewrite Hins. simpl library. rewrite Hs. reflexivity.
  - intros tz db now0 now a days Hins.
    unfold get_suggestions. rewrite Hins. reflexivity.
Qed.

Lemma C4_rule_table_witness :
  exists r picks,
    select_suggestions SUGGESTION_LIBRARY scenario2_result = Some (r, picks)
    /\ r = "Suggested because your average mood has been low this week"%string
    /\ picks = [breath_2; meditate_5].
Proof.
  destruct (proj1 (proj2 C4_rule_table) scenario2_result)
    as (r & picks & Hs & _ & Hlow & _).
  exists r, picks. split; [exact Hs|].
  apply (Hlow (decimal2 167)).
  - reflexivity.
  - vm_compute. reflexivity.
  - simpl. lia.
Defined.



(** C7 as the claim words it fails: the result is not a function of the
    records and of [now] alone.  The same record, logged at 23:30 on
    2026-03-28, and the same clock give the streak 0 and the day
    2026-03-28 on a server in UTC, and the streak 1 and the day 2026-03-29
    on a server in Nuuk, where that hour does not exist.  And
    [compute_insights] is not a function of its arguments: on the same
    store, the same arguments give the streak 5 on 2026-11-04 and the
    streak 0 two days later. *)
Lemma C7_counterexample :
  compute_insights_on utc gap_noon [gap_log]
  = Some (mk_Insights (Some (decimal2 300)) 1 0
            [mk_DayAvg "2026-03-28" (decimal2 300)])
  /\ compute_insights_on nuuk_2026 gap_noon [gap_log]
     = Some (mk_Insights (Some (decimal2 300)) 1 1
               [mk_DayAvg "2026-03-29" (decimal2 300)])
  /\ compute_insights_on utc gap_noon [gap_log]
     <> compute_insights_on nuuk_2026 gap_noon [gap_log]
  /\ (exists r r',
        compute_insights utc (fun _ _ => scenario3_logs)
          scenario_now scenario_now "u1" 30 = Some r
        /\ compute_insights utc (fun _ _ => scenario3_logs)
             (datetime_of 2026 11 6 10 30 0 0) (datetime_of 2026 11 6 10 30 0 0)
             "u1" 30 = Some r'
        /\ streak r = 5 /\ streak r' = 0 /\ r <> r').
Proof.
  split; [vm_compute; reflexivity|]. split; [vm_compute; reflexivity|].
  split; [vm_compute; discriminate|].
  eexists. eexists. split; [vm_compute; reflexivity|].
  split; [vm_compute; reflexivity|]. split; [reflexivity|]. split; [reflexivity|].
  discriminate.
Qed.

(** C7 (amended): in one time zone, the outcome of [compute_insights] is
    determined by the records the store returns, whatever their order, and
    by the date of the clock reading taken for today: two calls that
    agree on these have the same outcome, the same result or an exception
    both times; on records as the store keeps them, logged at times
    around which the zones keep their offsets, the zone does not matter
    either.  The selection is
    determined by [avg_mood] and [entries]. *)
Theorem C7_deterministic :
  (forall (tz : zone) (now now' : datetime) (logs logs' : list MoodLog),
      logs ≡ₚ logs' -> date now = date now' ->
      compute_insights_on tz now logs = compute_insights_on tz now' logs')
  /\ (forall (tz : zone) (db db' : store) (now0 now0' now now' since since' : datetime)
             (a a' : string) (days days' : Z),
        sub_days now0 days = Some since ->
        sub_days now0' days' = Some since' ->
        db a since ≡ₚ db' a' since' ->
        date now = date now' ->
        compute_insights tz db now0 now a days
        = compute_insights tz db' now0' now' a' days')
  /\ (forall (tz tz' : zone) (now now' : datetime) (logs logs' : list MoodLog),
        Forall (kept tz) logs -> Forall (kept tz') logs ->
        logs ≡ₚ logs' -> date now = date now' ->
        exists r,
          compute_insights_on tz now logs = Some r
          /\ compute_insights_on tz' now' logs' = Some r)
  /\ (forall (lib : list Suggestion) (ins ins' : Insights),
        avg_mood ins = avg_mood ins' -> entries ins = entries ins' ->
        select_suggestions lib ins = select_suggestions lib ins').
Proof.
  split; [exact compute_insights_on_perm|]. split; [|split].
  - intros tz db db' now0 now0' now now' since since' a a' days days'
      Hs Hs' Hlogs Hday.
    rewrite (compute_insights_since _ _ _ _ _ _ _ Hs).
    rewrite (compute_insights_since _ _ _ _ _ _ _ Hs').
    apply compute_insights_on_perm; assumption.
  - intros tz tz' now now' logs logs' Hkept Hkept' Hperm Hday.
    destruct (compute_insights_on_returns tz now logs Hkept) as (r & H).
    exists r. split; [exact H|].
    rewrite <- (compute_insights_on_perm tz' now now' logs logs' Hperm Hday).
    rewrite <- H. symmetry. apply (compute_insights_on_zone tz tz'); assumption.
  - intros lib ins ins' Havg Hent. unfold select_suggestions.
    rewrite Havg, Hent. reflexivity.
Qed.

Lemma C7_deterministic_witness :
  compute_insights_on utc scenario_now scenario3_logs
  = compute_insights_on utc (datetime_of 2026 11 4 23 59 59 0) (rev scenario3_logs)
  /\ select_suggestions SUGGESTION_LIBRARY (mk_Insights (Some (decimal2 250)) 4 0 [])
     = select_suggestions SUGGESTION_LIBRARY
         (mk_Insights (Some (decimal2 250)) 4 2 [mk_DayAvg "2026-11-04" (decimal2 250)]).
Proof.
  split.
  - apply (proj1 C7_deterministic); [apply Permutation_rev|reflexivity].
  - apply (proj2 (proj2 (proj2 C7_deterministic))); reflexivity.
Defined.

(** C8: the library is the four entries breath-2, meditate-5, walk-5 and
    affirm-1 in that order, and no sequence of requests changes it. *)
Theorem C8_library_fixed :
  library initial_globals
  = [ mk_Suggestion "breath-2" "Try this quick breathing reset" 2 "breathing";
      mk_Suggestion "meditate-5" "Mini meditation" 5 "meditation";
      mk_Suggestion "walk-5" "Micro-walk" 5 "walk";
      mk_Suggestion "affirm-1" "Affirmation card" 1 "affirmation" ]
  /\ length (library initial_globals) = 4%nat
  /\ forall (tz : zone) (rqs : list (store * datetime * datetime * Request)),
       library (serve tz rqs initial_globals) = library initial_globals.
Proof.
  split; [reflexivity|]. split; [reflexivity|].
  intros tz rqs. generalize initial_globals.
  induction rqs as [|[[[db now0] now] rq] rqs IH]; intros g; [reflexivity|].
  simpl. rewrite handle_state. apply IH.
Qed.

(** C9: the window is 7 days for the range ["7d"] and 30 days for every
    other string; no string is refused: whatever the string, [since] is
    found at any clock reading from 0001-01-31 on, the endpoint has the
    outcome of [compute_insights] on the window, and it answers when the
    records are as the store keeps them, logged at times around which the
    zone keeps its offset. *)
Theorem C9_window :
  window_days "7d" = 7
  /\ (forall range : string, range <> "7d"%string -> window_days range = 30)
  /\ window_days "30d" = 30 /\ window_days "90d" = 30 /\ window_days "garbage" = 30
  /\ (forall (now0 : datetime) (range : string),
        MINORDINAL + 30 <= ordinal now0 <= MAXORDINAL ->
        exists since,
          sub_days now0 (window_days range) = Some since
          /\ ordinal since = ordinal now0 - window_days range)
  /\ (forall (tz : zone) (db : store) (now0 now : datetime)
             (anonymous_id range : string) (g : Globals),
        insights tz db now0 now anonymous_id range g
        = (match compute_insights tz db now0 now anonymous_id (window_days range) with
           | Some data =>
               Some (mk_InsightsResponse data (fst (summarize data))
                       (snd (summarize data)))
           | None => None
           end, g))
  /\ (forall (tz : zone) (db : store) (now0 now : datetime)
             (anonymous_id range : string) (g : Globals),
        MINORDINAL + 30 <= ordinal now0 <= MAXORDINAL ->
        (forall since, Forall (kept tz) (db anonymous_id since)) ->
        exists resp since,
          insights tz db now0 now anonymous_id range g = (Some resp, g)
          /\ sub_days now0 (window_days range) = Some since
          /\ ordinal since = ordinal now0 - window_days range
          /\ compute_insights_on tz now (db anonymous_id since) = Some (kpis resp)).
Proof.
  assert (Hw : forall range, window_days range = 7 \/ window_days range = 30).
  { intros range. unfold window_days. destruct (String.eqb range "7d"); auto. }
  assert (Hsince : forall (now0 : datetime) (range : string),
            MINORDINAL + 30 <= ordinal now0 <= MAXORDINAL ->
            exists since,
              sub_days now0 (window_days range) = Some since
              /\ ordinal since = ordinal now0 - window_days range).
  { intros now0 range Hnow.
    exists (mk_datetime (ordinal now0 - window_days range) (second_of_day now0)
              (microsecond now0)).
    split; [|reflexivity].
    apply sub_days_some; unfold valid_ordinal, MINORDINAL, MAXORDINAL in *;
      destruct (Hw range) as [-> | ->]; lia. }
  split; [reflexivity|]. split.
  { intros range Hne. unfold window_days.
    destruct (String.eqb_spec range "7d"); [contradiction|reflexivity]. }
  split; [reflexivity|]. split; [reflexivity|]. split; [reflexivity|].
  split; [exact Hsince|]. split.
  - intros tz db now0 now a range g. unfold insights.
    destruct (compute_insights tz db now0 now a (window_days range)) as [data|];
      [|reflexivity].
    destruct (summarize data). reflexivity.
  - intros tz db now0 now a range g Hnow Hkept.
    destruct (Hsince now0 range Hnow) as (since & Hs & Ho).
    destruct (compute_insights_on_returns tz now (db a since) (Hkept since))
      as (data & Hd).
    exists (mk_InsightsResponse data (fst (summarize data)) (snd (summarize data))),
      since.
    split; [|split; [exact Hs|split; [exact Ho|exact Hd]]].
    unfold insights. rewrite (compute_insights_since _ _ _ _ _ _ _ Hs), Hd.
    destruct (summarize data). reflexivity.
Qed.

Lemma C9_window_witness : window_days "week" = 30.
Proof. apply (proj1 (proj2 C9_window)). discriminate. Defined.

(** C10: in every result [compute_insights] returns, [avg_mood] is null
    exactly when [entries] is 0, and when the records are not empty
    [by_day] is not empty and the streak is at most the number of its
    entries. *)
Theorem C10_result_invariants (tz : zone) (now : datetime) (logs : list MoodLog)
    (r : Insights) :
  compute_insights_on tz now logs = Some r ->
  (avg_mood r = None <-> entries r = 0)
  /\ (logs <> [] -> by_day r <> [] /\ streak r <= len (by_day r)).
Proof.
  intros H.
  destruct (compute_insights_on_streak tz now logs r H)
    as (Hfiled & Hrun & _ & _ & Hby).
  apply compute_insights_on_inv in H as [[-> ->]|(Hne & _ & E & _)].
  - split; [split; reflexivity|]. contradiction.
  - split.
    + rewrite E. cbn [avg_mood entries]. split; [discriminate|].
      unfold len. destruct logs; [contradiction|]. simpl length. lia.
    + intros _. rewrite Hby. split.
      * destruct logs as [|l logs]; [contradiction|].
        assert (Hin : day_key tz l ∈ map da_date (by_day_of tz (l :: logs))).
        { apply by_day_of_date_elem. exists l. split; [left|reflexivity]. }
        intros E0. rewrite E0 in Hin. inversion Hin.
      * apply (run_le_by_day tz logs (date now) (streak r) Hfiled Hrun).
Qed.

Lemma C10_result_invariants_witness :
  compute_insights_on utc scenario_now scenario2_logs = Some scenario2_result
  /\ (avg_mood scenario2_result = None <-> entries scenario2_result = 0)
  /\ (scenario2_logs <> [] ->
      by_day scenario2_result <> []
      /\ streak scenario2_result <= len (by_day scenario2_result)).
Proof.
  assert (H : compute_insights_on utc scenario_now scenario2_logs
              = Some scenario2_result) by (vm_compute; reflexivity).
  split; [exact H|].
  apply (C10_result_invariants utc scenario_now scenario2_logs scenario2_result H).
Defined.

(** ** Worked values *)

Example isoformat_epoch : isoformat 719163 = "1970-01-01"%string.
Proof. reflexivity. Qed.

Example isoformat_min : isoformat MINORDINAL = "0001-01-01"%string.
Proof. reflexivity. Qed.

Example isoformat_max : isoformat MAXORDINAL = "9999-12-31"%string.
Proof. reflexivity. Qed.

Example isoformat_leap_day : isoformat (ymd2ord 2024 2 29) = "2024-02-29"%string.
Proof. reflexivity. Qed.

Example toordinal_leap_day : ymd2ord 2024 2 29 = 738945.
Proof. reflexivity. Qed.

(** The scenarios of the specification, on a server in UTC. *)

Example scenario1_no_records :
  get_suggestions utc (fun _ _ => []) scenario_now scenario_now "u1" 7
    initial_globals
  = (Some (mk_SuggestionResponse "Suggested to help you start your routine"
             [breath_2; meditate_5] (mk_Insights None 0 0 [])),
     initial_globals).
Proof. vm_compute. reflexivity. Qed.

Example scenario2_low_mood :
  get_suggestions utc (fun _ _ => scenario2_logs) scenario_now scenario_now
    "u1" 7 initial_globals
  = (Some (mk_SuggestionResponse
             "Suggested because your average mood has been low this week"
             [breath_2; meditate_5] scenario2_result),
     initial_globals).
Proof. vm_compute. reflexivity. Qed.

Example scenario3_five_days :
  compute_insights_on utc scenario_now scenario3_logs = Some scenario3_result
  /\ select_suggestions SUGGESTION_LIBRARY scenario3_result
     = Some ("Suggested based on your recent logs"%string, [walk_5; affirm_1])
  /\ In "Nice streak: 5 days in a row."%string (fst (summarize scenario3_result)).
Proof.
  split; [vm_compute; reflexivity|]. split; [vm_compute; reflexivity|].
  vm_compute. right. left. reflexivity.
Qed.

Example scenario4_same_day :
  exists r,
    compute_insights_on utc scenario_now
      [log_at 2 (datetime_of 2026 11 3 7 0 0 0);
       log_at 4 (datetime_of 2026 11 3 19 0 0 0)] = Some r
    /\ by_day r = [mk_DayAvg "2026-11-03" (decimal2 300)].
Proof. eexists. split; [vm_compute; reflexivity|]. reflexivity. Qed.

(** Ties of the mean: the double nearest to 203/200 = 1.015 lies below
    it and [round] gives 1.01; 9/8 = 1.125 is a double, and [round] gives
    the even neighbour 1.12. *)
Example round_of_tie : py_round (int_true_div 203 200) 2 = decimal2 101.
Proof. vm_compute. reflexivity. Qed.

Example round_of_exact_tie : py_round (int_true_div 9 8) 2 = decimal2 112.
Proof. vm_compute. reflexivity. Qed.

(** Where the calls raise.  A record of 0001-01-01 ([timestamp] probes
    the day before), a record in the last microsecond of 9999-12-31 (its
    timestamp is the double 253402300800.0, in the year 10000), a record
    of the last hour of 9999-12-31 on a server an hour ahead of UTC, and
    a window of a million days. *)
Example raises_on_first_day :
  compute_insights_on utc scenario_now [log_at 3 (datetime_of 1 1 1 12 0 0 0)]
  = None.
Proof. vm_compute. reflexivity. Qed.

Example raises_on_last_microsecond :
  timestamp utc (datetime_of 9999 12 31 23 59 59 999999)
  = Some (float_of_int 253402300800)
  /\ compute_insights_on utc scenario_now
       [log_at 3 (datetime_of 9999 12 31 23 59 59 999999)] = None
  /\ log_date utc (log_at 3 (datetime_of 9999 12 31 23 59 59 999000))
     = Some MAXORDINAL.
Proof. repeat split; vm_compute; reflexivity. Qed.

Example raises_ahead_of_utc :
  compute_insights_on (fun _ => 3600) scenario_now
    [log_at 3 (datetime_of 9999 12 31 23 30 0 0)] = None.
Proof. vm_compute. reflexivity. Qed.

Example raises_on_long_window :
  sub_days scenario_now 1000000 = None
  /\ compute_insights utc (fun _ _ => scenario3_logs) scenario_now scenario_now
       "u1" 1000000 = None
  /\ fst (get_suggestions utc (fun _ _ => scenario3_logs) scenario_now
            scenario_now "u1" 1000000 initial_globals) = None.
Proof. repeat split; vm_compute; reflexivity. Qed.

(** Where the day of filing is not the day of logging: the last
    microsecond of a day from the year 2514 on, whose timestamp is the
    double of the next second; and an hour that a zone skips. *)
Example filed_next_day_microsecond :
  log_date utc (log_at 3 (datetime_of 2600 1 1 23 59 59 999999))
  = Some (ymd2ord 2600 1 2)
  /\ log_date utc (log_at 3 (datetime_of 2513 1 1 23 59 59 999999))
     = Some (ymd2ord 2513 1 1).
Proof. split; vm_compute; reflexivity. Qed.

Example nuuk_2026_transition :
  (ymd2ord 2026 3 29 - EPOCH_ORDINAL) * 86400 + 3600 = 1774746000.
Proof. reflexivity. Qed.

Example filed_next_day_gap :
  log_date nuuk_2026 gap_log = Some (ymd2ord 2026 3 29)
  /\ log_date nuuk_2026 (log_at 3 (datetime_of 2026 3 28 22 30 0 0))
     = Some (ymd2ord 2026 3 28)
  /\ log_date utc gap_log = Some (ymd2ord 2026 3 28).
Proof. repeat split; vm_compute; reflexivity. Qed.

(** Records before the epoch: with a fraction of a second [int] gives the
    second after, which is on the same day except in the last second of
    the day. *)
Example kept_before_epoch :
  kept utc (log_at 3 (datetime_of 1969 12 30 12 0 0 500000))
  /\ log_date utc (log_at 3 (datetime_of 1969 12 30 12 0 0 500000))
     = Some (ymd2ord 1969 12 30)
  /\ log_date utc (log_at 3 (datetime_of 1969 12 30 23 59 59 0))
     = Some (ymd2ord 1969 12 30).
Proof.
  split; [|split; vm_compute; reflexivity].
  exists 0. split; [apply fixed_steady; intros u; reflexivity|].
  split; [unfold valid_datetime, valid_ordinal; vm_compute; intuition discriminate|].
  split; [vm_compute; reflexivity|]. split; [vm_compute; reflexivity|].
  split; [vm_compute; reflexivity|]. right. right. vm_compute. reflexivity.
Qed.

(** A zone with transitions keeps its offset around the records of the
    scenarios. *)
Example kept_in_summer : Forall (kept nuuk_2026) scenario3_logs.
Proof.
  apply Forall_forall. intros l Hl. exists (-3600).
  apply list_elem_of_In in Hl. simpl in Hl.
  destruct Hl as [<-|[<-|[<-|[<-|[<-|[]]]]]];
    (split; [apply nuuk_2026_summer; vm_compute; discriminate|]);
    repeat constructor; vm_compute; congruence.
Qed.

(** ** Further properties of [compute_insights] *)

(** X1: the order in which the store returns the records does not matter:
    a permutation of the answer gives the same result. *)
Theorem insights_order_independent (tz : zone) (now : datetime)
    (logs logs' : list MoodLog) :
  logs ≡ₚ logs' ->
  compute_insights_on tz now logs = compute_insights_on tz now logs'.
Proof. intros H. apply compute_insights_on_perm; [exact H|reflexivity]. Qed.

Lemma insights_order_independent_witness :
  compute_insights_on utc scenario_now scenario2_logs
  = compute_insights_on utc scenario_now (rev scenario2_logs).
Proof.
  apply insights_order_independent. apply Permutation_rev.
Defined.

(** X2: for a non-empty answer of records as the store keeps them,
    logged at times around which the zone keeps its offset,
    [compute_insights] returns and [by_day] is in strictly ascending order of
    the date strings, has one entry for every day some record was logged
    on and no other entry, and the entry of a day carries the rounded mean
    of the moods logged on that day. *)
Theorem by_day_kept (tz : zone) (now : datetime) (logs : list MoodLog) :
  Forall (kept tz) logs ->
  logs <> [] ->
  exists r,
    compute_insights_on tz now logs = Some r
    /\ ascending (map da_date (by_day r))
    /\ (forall d, logged_on logs d ->
          mk_DayAvg (isoformat d) (mean2 (moods_of_day d logs)) ∈ by_day r)
    /\ (forall e, e ∈ by_day r ->
          exists d, logged_on logs d
                    /\ e = mk_DayAvg (isoformat d) (mean2 (moods_of_day d logs))).
Proof.
  intros Hreg Hne.
  destruct (compute_insights_on_kept tz now logs Hreg Hne) as (k & H & _).
  eexists. split; [exact H|]. cbn [by_day].
  rewrite Forall_forall in Hreg.
  assert (Hkey : forall l, l ∈ logs -> day_key tz l = isoformat (date (logged_at l))).
  { intros l Hl. apply (day_key_kept tz l (Hreg l Hl)). }
  assert (Hvalid : forall l, l ∈ logs -> valid_ordinal (date (logged_at l))).
  { intros l Hl. destruct (Hreg l Hl) as (c & _ & (Ho & _) & _). exact Ho. }
  assert (Hmoods : forall d, logged_on logs d ->
            moods_on tz (isoformat d) logs = moods_of_day d logs).
  { intros d (l0 & Hl0 & Hd0). unfold moods_on, moods_of_day. f_equal.
    apply filter_ext_elem. intros l Hl.
    rewrite (Hkey l Hl). split.
    - intros E. apply isoformat_inj in E; [exact E| |].
      + apply (Hvalid l Hl).
      + rewrite <- Hd0. apply (Hvalid l0 Hl0).
    - intros ->. reflexivity. }
  split; [apply by_day_of_ascending|]. split.
  - intros d Hd. apply by_day_of_elem. cbn [da_date da_avg]. split.
    + destruct Hd as (l & Hl & E). exists l. split; [exact Hl|].
      rewrite (Hkey l Hl), E. reflexivity.
    + rewrite (Hmoods d Hd). reflexivity.
  - intros e He. apply by_day_of_elem in He as [(l & Hl & Hk) Havg].
    rewrite (Hkey l Hl) in Hk.
    assert (Hd : logged_on logs (date (logged_at l))) by (exists l; auto).
    exists (date (logged_at l)). split; [exact Hd|].
    destruct e as [k' a']. cbn [da_date da_avg] in *. subst k'.
    rewrite Havg, (Hmoods _ Hd). reflexivity.
Qed.

Lemma by_day_kept_witness :
  exists r,
    compute_insights_on utc scenario_now scenario3_logs = Some r
    /\ ascending (map da_date (by_day r))
    /\ (forall d, logged_on scenario3_logs d ->
        mk_DayAvg (isoformat d) (mean2 (moods_of_day d scenario3_logs)) ∈ by_day r)
    /\ (forall e, e ∈ by_day r ->
        exists d, logged_on scenario3_logs d
                  /\ e = mk_DayAvg (isoformat d) (mean2 (moods_of_day d scenario3_logs))).
Proof.
  apply (by_day_kept utc scenario_now scenario3_logs).
  - apply (fixed_kept utc 0); [intros u; reflexivity|].
    repeat constructor; vm_compute; congruence.
  - discriminate.
Defined.

(** The moods behind an entry of [by_day]. *)
Lemma by_day_of_avg_rounding (tz : zone) (logs : list MoodLog) (e : DayAvg) :
  Forall valid_mood logs -> len logs < 2 ^ 40 ->
  e ∈ by_day_of tz logs ->
  exists h,
    da_avg e = decimal2 h /\ 100 <= h <= 500
    /\ 2 * Z.abs (100 * sum (moods_on tz (da_date e) logs)
                  - h * len (moods_on tz (da_date e) logs))
       <= len (moods_on tz (da_date e) logs).
Proof.
  intros Hmoods Hlen He. apply by_day_of_elem in He as [Hl Havg].
  rewrite Havg. apply mean2_rounding.
  - apply moods_on_nonempty. exact Hl.
  - unfold moods_on. apply moods_valid.
    apply Forall_forall. intros l Hin. apply list_elem_of_filter in Hin as [_ Hin].
    rewrite Forall_forall in Hmoods. apply Hmoods, Hin.
  - unfold moods_on, len in *. rewrite length_map.
    pose proof (length_filter (fun l => day_key tz l = da_date e) logs). lia.
Qed.

(** X3: in every result, the average of every entry of [by_day] is a
    two-place decimal nearest to the mean of the moods filed under its
    date. *)
Theorem by_day_avg_rounding (tz : zone) (now : datetime) (logs : list MoodLog)
    (r : Insights) (e : DayAvg) :
  compute_insights_on tz now logs = Some r ->
  Forall valid_mood logs -> len logs < 2 ^ 40 ->
  e ∈ by_day r ->
  Forall (filed tz) logs
  /\ exists h,
       da_avg e = decimal2 h /\ 100 <= h <= 500
       /\ 2 * Z.abs (100 * sum (moods_on tz (da_date e) logs)
                     - h * len (moods_on tz (da_date e) logs))
          <= len (moods_on tz (da_date e) logs).
Proof.
  intros H Hmoods Hlen He.
  destruct (compute_insights_on_streak tz now logs r H) as (Hfiled & _ & _ & _ & Hby).
  split; [exact Hfiled|]. rewrite Hby in He.
  apply by_day_of_avg_rounding; assumption.
Qed.

Lemma by_day_avg_rounding_witness :
  compute_insights_on utc scenario_now scenario2_logs = Some scenario2_result
  /\ Forall (filed utc) scenario2_logs
  /\ exists h,
       decimal2 167 = decimal2 h
       /\ 100 <= h <= 500
       /\ 2 * Z.abs (100 * sum (moods_on utc "2026-11-04" scenario2_logs)
                     - h * len (moods_on utc "2026-11-04" scenario2_logs))
          <= len (moods_on utc "2026-11-04" scenario2_logs).
Proof.
  assert (H : compute_insights_on utc scenario_now scenario2_logs
              = Some scenario2_result) by (vm_compute; reflexivity).
  split; [exact H|].
  apply (by_day_avg_rounding utc scenario_now scenario2_logs scenario2_result
           (mk_DayAvg "2026-11-04" (decimal2 167)) H).
  - repeat constructor; vm_compute; discriminate.
  - reflexivity.
  - left.
Defined.

(** A run in a set is at most the run in a larger set. *)
Lemma run_of_mono (s s' : gset Z) (d k k' : Z) :
  (forall x, x <= d -> x ∈ s -> x ∈ s') ->
  run_of s d k -> run_of s' d k' -> k <= k'.
Proof.
  intros Hsub (Hk & Hin & _) (Hk' & _ & Hout').
  destruct (Z_le_gt_dec k k') as [|Hgt]; [assumption|].
  exfalso. apply Hout', Hsub; [lia|]. apply Hin. lia.
Qed.

Lemma len_by_day_le (tz : zone) (logs logs' : list MoodLog) :
  (forall l, l ∈ logs -> l ∈ logs') ->
  len (by_day_of tz logs) <= len (by_day_of tz logs').
Proof.
  intros Hsub. unfold len.
  rewrite <- (length_map da_date (by_day_of tz logs)).
  rewrite <- (length_map da_date (by_day_of tz logs')).
  apply inj_le, submseteq_length, NoDup_submseteq; [apply by_day_of_NoDup|].
  intros k. rewrite !by_day_of_date_elem. intros (l & Hl & E).
  exists l. split; [apply Hsub, Hl|exact E].
Qed.

Lemma len_by_day_le_entries (tz : zone) (logs : list MoodLog) :
  len (by_day_of tz logs) <= len logs.
Proof.
  unfold len.
  rewrite <- (length_map da_date (by_day_of tz logs)).
  rewrite <- (length_map (day_key tz) logs).
  apply inj_le, submseteq_length, NoDup_submseteq; [apply by_day_of_NoDup|].
  intros k. rewrite by_day_of_date_elem. intros (l & Hl & E).
  rewrite <- E. apply list_elem_of_fmap_2, Hl.
Qed.

(** The ordinals of a strictly increasing list of valid days are written
    as strictly ascending strings. *)
Lemma isoformat_ascending (ds : list Z) :
  Forall valid_ordinal ds -> StronglySorted Z.lt ds -> ascending (map isoformat ds).
Proof.
  intros Hv Hs. unfold ascending.
  induction Hs as [|d ds Hs IH Hall]; simpl; constructor.
  - apply IH. inversion Hv; assumption.
  - inversion Hv as [|? ? Hd Hds]; subst.
    rewrite Forall_forall in Hall, Hds. apply Forall_forall.
    intros k Hk. apply list_elem_of_In, in_map_iff in Hk as (x & <- & Hx).
    apply list_elem_of_In in Hx.
    apply isoformat_lt; [exact Hd|apply Hds, Hx|apply Hall, Hx].
Qed.

Lemma sorted_le_lt (ds : list Z) :
  NoDup ds -> StronglySorted Z.le ds -> StronglySorted Z.lt ds.
Proof.
  intros Hnd Hs. induction Hs as [|d ds Hs IH Hall]; constructor.
  - apply IH. inversion Hnd; assumption.
  - inversion Hnd as [|? ? Hd _]; subst.
    rewrite Forall_forall in Hall. apply Forall_forall. intros x Hx.
    assert (d <> x) by (intros ->; contradiction).
    specialize (Hall x Hx). lia.
Qed.

(** X4: in every result, [by_day] lists the days the records are filed
    under, each once, in calendar order: its dates are the ISO strings of
    a strictly increasing list of days, which are exactly the days
    [datetime.fromtimestamp(int(logged_at.timestamp())).date()] of the
    records. *)
Theorem by_day_calendar_order (tz : zone) (now : datetime)
    (logs : list MoodLog) (r : Insights) :
  compute_insights_on tz now logs = Some r ->
  exists ds,
    map da_date (by_day r) = map isoformat ds
    /\ StronglySorted Z.lt ds
    /\ (forall d, d ∈ ds <-> exists l, l ∈ logs /\ log_date tz l = Some d)
    /\ len (by_day r) = len ds.
Proof.
  intros E.
  destruct (compute_insights_on_streak tz now logs r E) as (Hfiled & _ & _ & _ & Hby).
  set (ds := merge_sort Z.le (elements (days_of tz logs))).
  assert (Hperm : ds ≡ₚ elements (days_of tz logs))
    by apply merge_sort_Permutation.
  assert (Hel : forall d, d ∈ ds <-> exists l, l ∈ logs /\ log_date tz l = Some d).
  { intros d. rewrite Hperm, elem_of_elements. apply days_of_filed, Hfiled. }
  assert (Hnd : NoDup ds) by (rewrite Hperm; apply NoDup_elements).
  assert (Hs : StronglySorted Z.lt ds).
  { apply sorted_le_lt; [exact Hnd|]. apply StronglySorted_merge_sort; apply _. }
  assert (Hv : Forall valid_ordinal ds).
  { apply Forall_forall. intros d Hd. apply Hel in Hd as (l & Hl & Hd).
    apply (log_date_valid tz l d Hd). }
  assert (Hkey : forall l d, log_date tz l = Some d -> day_key tz l = isoformat d).
  { intros l d Hd. unfold day_key, log_day. rewrite Hd. reflexivity. }
  assert (Hdates : map da_date (by_day r) = map isoformat ds).
  { rewrite Hby. apply ascending_unique.
    - apply by_day_of_ascending.
    - apply isoformat_ascending; assumption.
    - intros k. rewrite by_day_of_date_elem. split.
      + intros (l & Hl & <-).
        rewrite Forall_forall in Hfiled. destruct (Hfiled l Hl) as (d & Hd).
        rewrite (Hkey l d Hd).
        apply list_elem_of_fmap_2, Hel. exists l. split; [exact Hl|exact Hd].
      + intros Hk. apply list_elem_of_In, in_map_iff in Hk as (d & <- & Hd).
        apply list_elem_of_In, Hel in Hd as (l & Hl & Hd).
        exists l. split; [exact Hl|apply Hkey, Hd]. }
  exists ds. split; [exact Hdates|].
  split; [exact Hs|]. split; [exact Hel|].
  unfold len. rewrite <- (length_map da_date (by_day r)), Hdates, length_map.
  reflexivity.
Qed.

Lemma by_day_calendar_order_witness :
  compute_insights_on utc scenario_now scenario3_logs = Some scenario3_result
  /\ exists ds,
       map da_date (by_day scenario3_result) = map isoformat ds
       /\ StronglySorted Z.lt ds
       /\ (forall d, d ∈ ds <-> exists l, l ∈ scenario3_logs /\ log_date utc l = Some d)
       /\ len (by_day scenario3_result) = len ds.
Proof.
  assert (H : compute_insights_on utc scenario_now scenario3_logs
              = Some scenario3_result) by (vm_compute; reflexivity).
  split; [exact H|].
  apply (by_day_calendar_order utc scenario_now scenario3_logs scenario3_result H).
Defined.

(** X5: in every result, [entries] is the number of records, the streak
    is between 0 and [entries], and [by_day] has at most [entries]
    entries. *)
Theorem insights_counts (tz : zone) (now : datetime) (logs : list MoodLog)
    (r : Insights) :
  compute_insights_on tz now logs = Some r ->
  entries r = len logs
  /\ 0 <= streak r <= entries r
  /\ len (by_day r) <= entries r.
Proof.
  intros E.
  destruct (compute_insights_on_streak tz now logs r E)
    as (_ & (H0 & _) & Hent & Hle & Hby).
  split; [exact Hent|]. rewrite Hent, Hby.
  split; [lia|]. apply len_by_day_le_entries.
Qed.

Lemma insights_counts_witness :
  compute_insights_on utc scenario_now scenario3_logs = Some scenario3_result
  /\ entries scenario3_result = len scenario3_logs
  /\ 0 <= streak scenario3_result <= entries scenario3_result
  /\ len (by_day scenario3_result) <= entries scenario3_result.
Proof.
  assert (H : compute_insights_on utc scenario_now scenario3_logs
              = Some scenario3_result) by (vm_compute; reflexivity).
  split; [exact H|].
  apply (insights_counts utc scenario_now scenario3_logs scenario3_result H).
Defined.

(** The streak of a result on fewer records: when the loop returns on an
    answer, it returns on every part of it. *)
Lemma compute_insights_on_part (tz : zone) (now : datetime)
    (logs logs' : list MoodLog) (r' : Insights) :
  compute_insights_on tz now logs' = Some r' ->
  (forall l, l ∈ logs -> l ∈ logs') ->
  exists r, compute_insights_on tz now logs = Some r.
Proof.
  intros E' Hsub.
  destruct logs as [|l0 logs]; [eexists; reflexivity|].
  destruct (compute_insights_on_streak tz now logs' r' E')
    as (Hfiled' & Hrun' & _).
  assert (Hfiled : Forall (filed tz) (l0 :: logs)).
  { rewrite Forall_forall in *. intros l Hl. apply Hfiled', Hsub, Hl. }
  rewrite (compute_insights_on_filed tz now (l0 :: logs)) by (discriminate || exact Hfiled).
  destruct logs' as [|l0' logs']; [specialize (Hsub l0 ltac:(left)); inversion Hsub|].
  rewrite (compute_insights_on_filed tz now (l0' :: logs')) in E'
    by (discriminate || exact Hfiled').
  destruct (streak_loop _ (days_of tz (l0' :: logs')) _ _) as [k'|] eqn:Hloop';
    [|discriminate].
  apply streak_loop_inv in Hloop' as (k2 & -> & Hrun2 & Hroom).
  destruct (run_exists (map (log_day tz) (l0 :: logs)) (date now)) as (k & Hrun & _).
  fold (days_of tz (l0 :: logs)) in Hrun.
  assert (Hle : k <= k2).
  { refine (run_of_mono _ _ _ _ _ _ Hrun Hrun2).
    intros x _. rewrite !days_of_elem. intros (l & Hl & <-).
    exists l. split; [apply Hsub, Hl|reflexivity]. }
  rewrite (streak_loop_run _ _ _ 0 k Hrun) by (destruct Hrun; lia).
  eexists. reflexivity.
Qed.

(** X6: in every result, the records filed under days after today do not
    change the streak: without them [compute_insights] returns the same
    streak; and the streak is 0 exactly when no record is filed under
    today. *)
Theorem streak_ignores_later_days (tz : zone) (now : datetime)
    (logs : list MoodLog) (r : Insights) :
  compute_insights_on tz now logs = Some r ->
  (exists r',
     compute_insights_on tz now (filter (filed_upto tz (date now)) logs) = Some r'
     /\ streak r = streak r')
  /\ (streak r = 0 <-> forall l, l ∈ logs -> log_date tz l <> Some (date now)).
Proof.
  intros E.
  destruct (compute_insights_on_streak tz now logs r E) as (Hfiled & Hrun & _).
  split.
  - assert (Hupto : forall l x, l ∈ logs -> log_day tz l = x -> x <= date now ->
                      filed_upto tz (date now) l).
    { intros l x Hl Hx Hle. unfold filed_upto.
      rewrite Forall_forall in Hfiled.
      rewrite (log_day_filed tz l (Hfiled l Hl)), Hx. exact Hle. }
    destruct (compute_insights_on_part tz now
                (filter (filed_upto tz (date now)) logs) logs r E)
      as (r' & E').
    { intros l Hl. apply list_elem_of_filter in Hl. apply Hl. }
    exists r'. split; [exact E'|].
    destruct (compute_insights_on_streak tz now _ r' E') as (_ & Hrun' & _).
    apply Z.le_antisymm.
    + refine (run_of_mono _ _ _ _ _ _ Hrun Hrun').
      intros x Hx. rewrite !days_of_elem. intros (l & Hl & <-).
      exists l. split; [|reflexivity]. apply list_elem_of_filter.
      split; [apply (Hupto l (log_day tz l) Hl eq_refl Hx)|exact Hl].
    + refine (run_of_mono _ _ _ _ _ _ Hrun' Hrun).
      intros x Hx. rewrite !days_of_elem. intros (l & Hl & <-).
      exists l. split; [|reflexivity]. apply list_elem_of_filter in Hl. apply Hl.
  - destruct Hrun as (Hk & Hin & Hout). split.
    + intros H0 l Hl E0. rewrite H0, Z.sub_0_r in Hout. apply Hout.
      apply days_of_filed; [exact Hfiled|]. exists l. split; [exact Hl|exact E0].
    + intros Hno. destruct (Z.eq_dec (streak r) 0) as [|Hne]; [assumption|].
      exfalso. specialize (Hin 0 ltac:(lia)). rewrite Z.sub_0_r in Hin.
      apply days_of_filed in Hin as (l & Hl & E0); [|exact Hfiled].
      apply (Hno l Hl E0).
Qed.

Lemma streak_ignores_later_days_witness :
  compute_insights_on utc scenario_now scenario3_logs = Some scenario3_result
  /\ (exists r',
        compute_insights_on utc scenario_now
          (filter (filed_upto utc (date scenario_now)) scenario3_logs)
        = Some r'
        /\ streak scenario3_result = streak r')
  /\ (streak scenario3_result = 0
      <-> forall l, l ∈ scenario3_logs -> log_date utc l <> Some (date scenario_now)).
Proof.
  assert (H : compute_insights_on utc scenario_now scenario3_logs
              = Some scenario3_result) by (vm_compute; reflexivity).
  split; [exact H|].
  apply (streak_ignores_later_days utc scenario_now scenario3_logs scenario3_result H).
Defined.

(** X7: adding records never shortens the streak nor [by_day]: when
    [compute_insights] returns on an answer, it returns on every part of
    it, with a streak and a [by_day] that are no longer. *)
Theorem streak_monotone (tz : zone) (now : datetime)
    (logs logs' : list MoodLog) (r' : Insights) :
  (forall l, l ∈ logs -> l ∈ logs') ->
  compute_insights_on tz now logs' = Some r' ->
  exists r,
    compute_insights_on tz now logs = Some r
    /\ streak r <= streak r'
    /\ len (by_day r) <= len (by_day r').
Proof.
  intros Hsub E'.
  destruct (compute_insights_on_part tz now logs logs' r' E' Hsub) as (r & E).
  destruct (compute_insights_on_streak tz now logs r E) as (_ & Hrun & _ & _ & Hby).
  destruct (compute_insights_on_streak tz now logs' r' E') as (_ & Hrun' & _ & _ & Hby').
  exists r. split; [exact E|]. split.
  - refine (run_of_mono _ _ _ _ _ _ Hrun Hrun').
    intros x _. rewrite !days_of_elem. intros (l & Hl & <-).
    exists l. split; [apply Hsub, Hl|reflexivity].
  - rewrite Hby, Hby'. apply len_by_day_le, Hsub.
Qed.

Lemma streak_monotone_witness :
  compute_insights_on utc scenario_now scenario3_logs = Some scenario3_result
  /\ exists r,
       compute_insights_on utc scenario_now (tail scenario3_logs) = Some r
       /\ streak r <= streak scenario3_result
       /\ len (by_day r) <= len (by_day scenario3_result).
Proof.
  assert (H : compute_insights_on utc scenario_now scenario3_logs
              = Some scenario3_result) by (vm_compute; reflexivity).
  split; [exact H|].
  apply (streak_monotone utc scenario_now (tail scenario3_logs) scenario3_logs
           scenario3_result).
  - intros l Hl. apply list_elem_of_further, Hl.
  - exact H.
Defined.

(** X8: on records as the store keeps them, logged at times around which
    either of two zones keeps its offset, the result is the same in both
    zones: [timestamp()] followed by [fromtimestamp()] gives back the
    logged day. *)
Theorem insights_zone_independent (tz tz' : zone) (now : datetime)
    (logs : list MoodLog) :
  Forall (kept tz) logs ->
  Forall (kept tz') logs ->
  (exists r, compute_insights_on tz now logs = Some r
             /\ compute_insights_on tz' now logs = Some r)
  /\ forall l, l ∈ logs ->
       log_date tz l = Some (date (logged_at l))
       /\ log_date tz' l = Some (date (logged_at l)).
Proof.
  intros H H'. split.
  - destruct (compute_insights_on_returns tz now logs H) as (r & E).
    exists r. split; [exact E|].
    rewrite <- (compute_insights_on_zone tz tz' now logs H H').
    exact E.
  - intros l Hl. rewrite Forall_forall in H, H'. split.
    + apply (log_date_kept tz l (H l Hl)).
    + apply (log_date_kept tz' l (H' l Hl)).
Qed.

Lemma insights_zone_independent_witness :
  (exists r, compute_insights_on utc scenario_now scenario3_logs = Some r
             /\ compute_insights_on nuuk_2026 scenario_now scenario3_logs
                = Some r)
  /\ forall l, l ∈ scenario3_logs ->
       log_date utc l = Some (date (logged_at l))
       /\ log_date nuuk_2026 l = Some (date (logged_at l)).
Proof.
  apply (insights_zone_independent utc nuuk_2026).
  - apply (fixed_kept utc 0); [intros u; reflexivity|].
    repeat constructor; vm_compute; congruence.
  - apply Forall_forall. intros l Hl. exists (-3600).
    apply list_elem_of_In in Hl. simpl in Hl.
    destruct Hl as [<-|[<-|[<-|[<-|[<-|[]]]]]];
      (split; [apply nuuk_2026_summer; vm_compute; discriminate|]);
      repeat constructor; vm_compute; congruence.
Defined.

Lemma filter_all {A : Type} (P : A -> Prop) `{forall x, Decision (P x)}
    (l : list A) :
  (forall x, x ∈ l -> P x) -> filter P l = l.
Proof.
  induction l as [|x l IH]; intros Hall; [reflexivity|].
  rewrite filter_cons. destruct (decide (P x)) as [|Hn].
  - f_equal. apply IH. intros y Hy. apply Hall. right. exact Hy.
  - destruct Hn. apply Hall. left.
Qed.

Lemma NoDup_constant {A : Type} (x : A) (ks : list A) :
  NoDup ks -> ks <> [] -> (forall k, k ∈ ks -> k = x) -> ks = [x].
Proof.
  intros Hnd Hne Hall. destruct ks as [|a ks]; [contradiction|].
  rewrite (Hall a ltac:(left)) in *.
  destruct ks as [|b ks]; [reflexivity|].
  exfalso. inversion Hnd as [|? ? Hnotin _]; subst. apply Hnotin.
  rewrite (Hall b ltac:(right; left)). left.
Qed.

(** X9: in every result on a non-empty answer whose records are all filed
    under the same day, [by_day] has one entry, for that day, and its
    average is [avg_mood]. *)
Theorem single_day_by_day (tz : zone) (now : datetime)
    (logs : list MoodLog) (d : Z) (r : Insights) :
  compute_insights_on tz now logs = Some r ->
  logs <> [] ->
  (forall l, l ∈ logs -> log_date tz l = Some d) ->
  exists a,
    avg_mood r = Some a
    /\ by_day r = [mk_DayAvg (isoformat d) a].
Proof.
  intros E Hne Hd.
  assert (Hkey : forall l, l ∈ logs -> day_key tz l = isoformat d).
  { intros l Hl. unfold day_key, log_day. rewrite (Hd l Hl). reflexivity. }
  apply compute_insights_on_inv in E as [[-> _]|(_ & _ & -> & _)]; [contradiction|].
  eexists. split; [reflexivity|].
  cbn [by_day]. rewrite by_day_of_keys.
  assert (Hk : map da_date (by_day_of tz logs) = [isoformat d]).
  { apply NoDup_constant.
    - apply by_day_of_NoDup.
    - destruct logs as [|l logs]; [contradiction|].
      intros Hnil.
      assert (Hin : day_key tz l ∈ map da_date (by_day_of tz (l :: logs))).
      { apply by_day_of_date_elem. exists l. split; [left|reflexivity]. }
      rewrite Hnil in Hin. inversion Hin.
    - intros key Hk. apply by_day_of_date_elem in Hk as (l & Hl & <-).
      apply Hkey, Hl. }
  rewrite Hk. simpl. f_equal. f_equal.
  unfold moods_on. rewrite filter_all.
  - unfold mean2, len. rewrite length_map. reflexivity.
  - intros l Hl. apply Hkey, Hl.
Qed.

Lemma single_day_by_day_witness :
  compute_insights_on utc scenario_now scenario2_logs = Some scenario2_result
  /\ exists a,
       avg_mood scenario2_result = Some a
       /\ by_day scenario2_result = [mk_DayAvg (isoformat (date scenario_now)) a].
Proof.
  assert (H : compute_insights_on utc scenario_now scenario2_logs
              = Some scenario2_result) by (vm_compute; reflexivity).
  split; [exact H|].
  apply (single_day_by_day utc scenario_now scenario2_logs (date scenario_now)
           scenario2_result H); [discriminate|].
  intros l Hl. apply list_elem_of_In in Hl. simpl in Hl.
  destruct Hl as [<-|[<-|[<-|[]]]]; vm_compute; reflexivity.
Defined.

Lemma hundredths_threshold (s n h : Z) :
  0 < n ->
  2 * Z.abs (100 * s - h * n) <= n ->
  (h < 300 -> 200 * s <= 599 * n) /\ (300 <= h -> 599 * n <= 200 * s).
Proof.
  intros Hn Herr. split; intros Hh.
  - assert (h * n <= 299 * n) by (apply Z.mul_le_mono_nonneg_r; lia). lia.
  - assert (300 * n <= h * n) by (apply Z.mul_le_mono_nonneg_r; lia). lia.
Qed.

Lemma len_pos {A : Type} (l : list A) : l <> [] -> 0 < len l.
Proof. unfold len. destruct l; [contradiction|simpl; lia]. Qed.

(** X10: the low-mood rule of [/api/suggestions] in terms of the exact
    mean [s / n] of the moods, whenever [compute_insights] returns on a
    non-empty answer: the endpoint answers; with at least 3 records and a
    mean below 2.995 the first two library entries are picked; with fewer
    than 3 records, or a mean above 2.995, the last two. *)
Theorem suggestions_threshold (tz : zone) (db : store) (now0 now since : datetime)
    (anonymous_id : string) (days : Z) (ins : Insights) :
  let logs := db anonymous_id since in
  let s := sum (map mood logs) in
  let n := len logs in
  sub_days now0 days = Some since ->
  compute_insights_on tz now logs = Some ins ->
  logs <> [] ->
  Forall valid_mood logs ->
  n < 2 ^ 40 ->
  exists resp,
    get_suggestions tz db now0 now anonymous_id days initial_globals
    = (Some resp, initial_globals)
    /\ sr_insights resp = ins
    /\ (3 <= n -> 200 * s < 599 * n ->
        reason resp
        = "Suggested because your average mood has been low this week"%string
        /\ items resp = [breath_2; meditate_5])
    /\ (n < 3 \/ 599 * n < 200 * s ->
        reason resp = "Suggested based on your recent logs"%string
        /\ items resp = [walk_5; affirm_1]).
Proof.
  intros logs s n Hsince E Hne Hv Hn.
  destruct (avg_mood_hundredths tz now logs ins E Hne Hv Hn)
    as (h & Havg & Hent & Hh & Herr).
  fold s n in Herr, Hent.
  pose proof (len_pos logs Hne) as Hnpos. fold n in Hnpos.
  destruct (hundredths_threshold s n h Hnpos Herr) as (Hlo & Hhi).
  unfold get_suggestions.
  rewrite (compute_insights_since _ _ _ _ _ _ _ Hsince). fold logs. rewrite E.
  unfold select_suggestions. rewrite Havg, Hent, (decimal2_lt_3 h Hh).
  destruct (h <? 300) eqn:Hlt; [apply Z.ltb_lt in Hlt|apply Z.ltb_ge in Hlt].
  - destruct (3 <=? n) eqn:H3; [apply Z.leb_le in H3|apply Z.leb_gt in H3]; simpl.
    + eexists. split; [reflexivity|]. split; [reflexivity|].
      split; [intros _ _; split; reflexivity|].
      intros [Hlow|Hhigh]; [lia|]. exfalso. lia.
    + eexists. split; [reflexivity|]. split; [reflexivity|].
      split; [intros H3'; lia|].
      intros _. split; reflexivity.
  - simpl. eexists. split; [reflexivity|]. split; [reflexivity|]. split.
    + intros _ Hlow. exfalso. lia.
    + intros _. split; reflexivity.
Qed.

Lemma suggestions_threshold_witness :
  exists resp,
    get_suggestions utc (fun _ _ => scenario2_logs) scenario_now scenario_now
      "u1" 7 initial_globals = (Some resp, initial_globals)
    /\ sr_insights resp = scenario2_result
    /\ (3 <= len scenario2_logs ->
        200 * sum (map mood scenario2_logs) < 599 * len scenario2_logs ->
        reason resp
        = "Suggested because your average mood has been low this week"%string
        /\ items resp = [breath_2; meditate_5])
    /\ (len scenario2_logs < 3
        \/ 599 * len scenario2_logs < 200 * sum (map mood scenario2_logs) ->
        reason resp = "Suggested based on your recent logs"%string
        /\ items resp = [walk_5; affirm_1]).
Proof.
  apply (suggestions_threshold utc (fun _ _ => scenario2_logs) scenario_now
           scenario_now (datetime_of 2026 10 28 10 30 0 0) "u1" 7 scenario2_result).
  - reflexivity.
  - vm_compute. reflexivity.
  - discriminate.
  - repeat constructor; vm_compute; discriminate.
  - vm_compute. reflexivity.
Defined.

(** X11: with one or two records and a mean below 2.995 the two endpoints
    read the same insights differently: [/api/suggestions] answers with
    the recent-logs picks, [/api/insights] with the low-mood sentence. *)
Theorem few_records_endpoints_differ (tz : zone) (db : store)
    (now0 now since : datetime) (anonymous_id : string) (ins : Insights) :
  let logs := db anonymous_id since in
  sub_days now0 7 = Some since ->
  compute_insights_on tz now logs = Some ins ->
  logs <> [] ->
  Forall valid_mood logs ->
  len logs < 3 ->
  200 * sum (map mood logs) < 599 * len logs ->
  exists sresp iresp,
    get_suggestions tz db now0 now anonymous_id 7 initial_globals
    = (Some sresp, initial_globals)
    /\ insights tz db now0 now anonymous_id "7d" initial_globals
       = (Some iresp, initial_globals)
    /\ sr_insights sresp = ins
    /\ kpis iresp = ins
    /\ reason sresp = "Suggested based on your recent logs"%string
    /\ ai_summary iresp = ["Mood has been on the lower side recently."%string]
    /\ suggested_actions iresp
       = ["Try a daily 5-minute mini meditation for 3 days."%string].
Proof.
  intros logs Hsince E Hne Hv Hn Hlow.
  destruct (avg_mood_hundredths tz now logs ins E Hne Hv ltac:(lia))
    as (h & Havg & Hent & Hh & Herr).
  pose proof (len_pos logs Hne) as Hnpos.
  destruct (compute_insights_on_streak tz now logs ins E) as (_ & _ & _ & Hstreak & _).
  destruct (hundredths_threshold _ _ h Hnpos Herr) as (_ & Hhi).
  assert (Hh3 : h < 300) by lia.
  unfold get_suggestions, insights, window_days.
  simpl String.eqb. cbv iota.
  rewrite (compute_insights_since _ _ _ _ _ _ _ Hsince). fold logs. rewrite E.
  unfold select_suggestions, summarize.
  rewrite Havg, Hent, (decimal2_lt_3 h Hh).
  destruct (h <? 300) eqn:Hlt; [|apply Z.ltb_ge in Hlt; lia].
  destruct (3 <=? len logs) eqn:H3; [apply Z.leb_le in H3; lia|].
  destruct (3 <=? streak ins) eqn:H3s; [apply Z.leb_le in H3s; lia|].
  simpl. eexists. eexists. repeat split; reflexivity.
Qed.

Lemma few_records_endpoints_differ_witness :
  exists sresp iresp,
    get_suggestions utc (fun _ _ => [log_at 2 scenario_now]) scenario_now
      scenario_now "u1" 7 initial_globals = (Some sresp, initial_globals)
    /\ insights utc (fun _ _ => [log_at 2 scenario_now]) scenario_now
         scenario_now "u1" "7d" initial_globals = (Some iresp, initial_globals)
    /\ sr_insights sresp
       = mk_Insights (Some (decimal2 200)) 1 1 [mk_DayAvg "2026-11-04" (decimal2 200)]
    /\ kpis iresp
       = mk_Insights (Some (decimal2 200)) 1 1 [mk_DayAvg "2026-11-04" (decimal2 200)]
    /\ reason sresp = "Suggested based on your recent logs"%string
    /\ ai_summary iresp = ["Mood has been on the lower side recently."%string]
    /\ suggested_actions iresp
       = ["Try a daily 5-minute mini meditation for 3 days."%string].
Proof.
  apply (few_records_endpoints_differ utc (fun _ _ => [log_at 2 scenario_now])
           scenario_now scenario_now (datetime_of 2026 10 28 10 30 0 0) "u1").
  - reflexivity.
  - vm_compute. reflexivity.
  - discriminate.
  - repeat constructor; vm_compute; discriminate.
  - vm_compute. reflexivity.
  - vm_compute. reflexivity.
Defined.

(** X12: the low-mood sentence of [/api/insights] in terms of the exact
    mean [s / n] of the moods, whenever [compute_insights] returns on a
    non-empty answer: the endpoint answers; below 2.995 the summary opens
    with the low-mood sentence, above 2.995 with the stable-trend
    sentence. *)
Theorem summary_threshold (tz : zone) (db : store) (now0 now since : datetime)
    (anonymous_id : string) (range : string) (data : Insights) :
  let logs := db anonymous_id since in
  let s := sum (map mood logs) in
  let n := len logs in
  sub_days now0 (window_days range) = Some since ->
  compute_insights_on tz now logs = Some data ->
  logs <> [] ->
  Forall valid_mood logs ->
  n < 2 ^ 40 ->
  exists resp,
    insights tz db now0 now anonymous_id range initial_globals
    = (Some resp, initial_globals)
    /\ kpis resp = data
    /\ (200 * s < 599 * n ->
        head (ai_summary resp) = Some "Mood has been on the lower side recently."%string
        /\ suggested_actions resp
           = ["Try a daily 5-minute mini meditation for 3 days."%string])
    /\ (599 * n < 200 * s ->
        head (ai_summary resp) = Some "You're maintaining a stable mood trend."%string
        /\ suggested_actions resp
           = ["Keep up the short check-ins and a micro-walk."%string]).
Proof.
  intros logs s n Hsince E Hne Hv Hn.
  destruct (avg_mood_hundredths tz now logs data E Hne Hv Hn)
    as (h & Havg & Hent & Hh & Herr).
  fold s n in Herr, Hent.
  pose proof (len_pos logs Hne) as Hnpos. fold n in Hnpos.
  destruct (hundredths_threshold s n h Hnpos Herr) as (Hlo & Hhi).
  unfold insights.
  rewrite (compute_insights_since _ _ _ _ _ _ _ Hsince). fold logs. rewrite E.
  unfold summarize. rewrite Havg, (decimal2_lt_3 h Hh).
  destruct (h <? 300) eqn:Hlt; [apply Z.ltb_lt in Hlt|apply Z.ltb_ge in Hlt];
    destruct (3 <=? streak data); simpl;
    (eexists; split; [reflexivity|]; split; [reflexivity|]; split; intros Hs;
     [try (exfalso; lia); split; reflexivity
     |try (exfalso; lia); split; reflexivity]).
Qed.

Lemma summary_threshold_witness :
  exists resp,
    insights utc (fun _ _ => scenario3_logs) scenario_now scenario_now
      "u1" "7d" initial_globals = (Some resp, initial_globals)
    /\ kpis resp = scenario3_result
    /\ (200 * sum (map mood scenario3_logs) < 599 * len scenario3_logs ->
        head (ai_summary resp) = Some "Mood has been on the lower side recently."%string
        /\ suggested_actions resp
           = ["Try a daily 5-minute mini meditation for 3 days."%string])
    /\ (599 * len scenario3_logs < 200 * sum (map mood scenario3_logs) ->
        head (ai_summary resp) = Some "You're maintaining a stable mood trend."%string
        /\ suggested_actions resp
           = ["Keep up the short check-ins and a micro-walk."%string]).
Proof.
  apply (summary_threshold utc (fun _ _ => scenario3_logs) scenario_now
           scenario_now (datetime_of 2026 10 28 10 30 0 0) "u1" "7d"
           scenario3_result).
  - reflexivity.
  - vm_compute. reflexivity.
  - discriminate.
  - repeat constructor; vm_compute; discriminate.
  - vm_compute. reflexivity.
Defined.

(** A run of at least three days is a record for each of the three days. *)
Lemma run_of_three (s : gset Z) (d k : Z) :
  run_of s d k -> (3 <= k <-> forall i, 0 <= i < 3 -> d - i ∈ s).
Proof.
  intros (Hk & Hin & Hout). split.
  - intros H3 i Hi. apply Hin. lia.
  - intros Hall. destruct (Z_le_gt_dec 3 k) as [|Hlt]; [assumption|].
    exfalso. apply Hout, Hall. lia.
Qed.

(** X13: in every answer of [/api/insights], the streak sentence is part
    of the summary exactly when some record is filed under today, one
    under yesterday and one under the day before. *)
Theorem streak_sentence_shown (tz : zone) (db : store) (now0 now since : datetime)
    (anonymous_id : string) (range : string) (resp : InsightsResponse) :
  let logs := db anonymous_id since in
  sub_days now0 (window_days range) = Some since ->
  fst (insights tz db now0 now anonymous_id range initial_globals) = Some resp ->
  compute_insights_on tz now logs = Some (kpis resp)
  /\ (In (streak_sentence (streak (kpis resp))) (ai_summary resp)
      <-> forall i, 0 <= i < 3 ->
          exists l, l ∈ logs /\ log_date tz l = Some (date now - i)).
Proof.
  intros logs Hsince Hresp.
  unfold insights in Hresp.
  rewrite (compute_insights_since _ _ _ _ _ _ _ Hsince) in Hresp. fold logs in Hresp.
  destruct (compute_insights_on tz now logs) as [r|] eqn:E; [|discriminate].
  destruct (compute_insights_on_streak tz now logs r E) as (Hfiled & Hrun & _).
  pose proof (run_of_three _ _ _ Hrun) as H3.
  assert (Hshown : In (streak_sentence (streak r)) (fst (summarize r))
                   <-> 3 <= streak r).
  { unfold summarize. destruct (avg_mood r) as [avg|] eqn:Ha.
    - destruct (float_lt_int avg 3);
        (destruct (3 <=? streak r) eqn:Hs;
         [apply Z.leb_le in Hs|apply Z.leb_gt in Hs]);
        simpl; split;
        try (intros _; exact Hs); try (intros _; right; left; reflexivity);
        try (intros H; exfalso; lia);
        (intros [H|[]]; unfold streak_sentence in H; simpl in H; discriminate H).
    - rewrite (compute_insights_on_no_avg _ _ _ _ E Ha). simpl. split.
      + intros [H|[]]. unfold streak_sentence in H. simpl in H. discriminate H.
      + lia. }
  destruct (summarize r) as [summary actions]. simpl in Hshown.
  simpl in Hresp. injection Hresp as <-. cbn [kpis ai_summary].
  split; [reflexivity|]. rewrite Hshown, H3.
  split; intros H i Hi; apply (days_of_filed tz logs _ Hfiled), H, Hi.
Qed.

Lemma streak_sentence_shown_witness :
  compute_insights_on utc scenario_now scenario3_logs = Some scenario3_result
  /\ (In (streak_sentence (streak scenario3_result))
         ["You're maintaining a stable mood trend."%string;
          "Nice streak: 5 days in a row."%string]
      <-> forall i, 0 <= i < 3 ->
          exists l, l ∈ scenario3_logs /\ log_date utc l = Some (date scenario_now - i)).
Proof.
  apply (streak_sentence_shown utc (fun _ _ => scenario3_logs) scenario_now
           scenario_now (datetime_of 2026 10 28 10 30 0 0) "u1" "7d"
           (mk_InsightsResponse scenario3_result
              ["You're maintaining a stable mood trend."%string;
               "Nice streak: 5 days in a row."%string]
              ["Keep up the short check-ins and a micro-walk."%string])).
  - reflexivity.
  - vm_compute. reflexivity.
Defined.



(** X15: the number in the streak sentence reads back as the streak. *)
Theorem streak_sentence_reads_back (n : Z) :
  exists numeral d,
    streak_sentence n = ("Nice streak: " ++ numeral ++ " days in a row.")%string
    /\ NilZero.int_of_string numeral = Some d
    /\ Z.of_int d = n.
Proof.
  exists (str_of_int n), (Z.to_int n). split; [reflexivity|].
  split; [|apply DecimalZ.of_to].
  unfold str_of_int. apply NilZero.isi.
  - destruct n; simpl; try discriminate.
    intros H. injection H as H. exact (DecimalPos.Unsigned.to_uint_nonnil _ H).
  - destruct n; simpl; try discriminate.
    intros H. injection H as H. exact (DecimalPos.Unsigned.to_uint_nonnil _ H).
Qed.

Lemma filter_none {A : Type} (P : A -> Prop) `{forall x, Decision (P x)}
    (l : list A) :
  (forall x, x ∈ l -> ~ P x) -> filter P l = [].
Proof.
  induction l as [|x l IH]; intros Hall; [reflexivity|].
  rewrite filter_cons. destruct (decide (P x)) as [Hp|_].
  - destruct (Hall x ltac:(left) Hp).
  - apply IH. intros y Hy. apply Hall. right. exact Hy.
Qed.

(** X16: in every result on records no two of which are filed under the
    same day, [by_day] has one entry for each record. *)
Theorem distinct_days_by_day (tz : zone) (now : datetime)
    (logs : list MoodLog) (r : Insights) :
  compute_insights_on tz now logs = Some r ->
  NoDup (map (log_date tz) logs) ->
  len (by_day r) = entries r
  /\ forall l, l ∈ logs ->
     exists e d, e ∈ by_day r
                 /\ log_date tz l = Some d
                 /\ da_date e = isoformat d
                 /\ da_avg e = mean2 [mood l].
Proof.
  intros E Hnd.
  destruct (compute_insights_on_streak tz now logs r E)
    as (Hfiled & _ & Hent & _ & Hby).
  rewrite Hby, Hent.
  assert (Hinj : forall l l', l ∈ logs -> l' ∈ logs ->
                 day_key tz l = day_key tz l' ->
                 log_date tz l = log_date tz l').
  { intros l l' Hl Hl' Hk. rewrite Forall_forall in Hfiled.
    rewrite (log_day_filed tz l (Hfiled l Hl)), (log_day_filed tz l' (Hfiled l' Hl')).
    f_equal.
    apply isoformat_inj; [apply log_day_valid|apply log_day_valid|exact Hk]; auto. }
  split.
  - apply Z.le_antisymm; [apply len_by_day_le_entries|].
    unfold len.
    rewrite <- (length_map da_date (by_day_of tz logs)).
    rewrite <- (length_map (log_date tz) logs).
    rewrite <- (length_map (fun o => isoformat (default 0 o)) (map (log_date tz) logs)).
    apply inj_le, submseteq_length, NoDup_submseteq.
    + apply (NoDup_fmap_2_strong (fun o => isoformat (default 0 o))); [|exact Hnd].
      intros x y Hx Hy Hxy.
      apply list_elem_of_In, in_map_iff in Hx as (l & <- & Hl).
      apply list_elem_of_In, in_map_iff in Hy as (l' & <- & Hl').
      apply Hinj; [apply list_elem_of_In, Hl|apply list_elem_of_In, Hl'|exact Hxy].
    + intros k Hk.
      apply list_elem_of_In, in_map_iff in Hk as (x & <- & Hx).
      apply in_map_iff in Hx as (l & <- & Hl).
      apply by_day_of_date_elem. exists l.
      split; [apply list_elem_of_In, Hl|reflexivity].
  - intros l Hl.
    exists (mk_DayAvg (day_key tz l) (mean2 (moods_on tz (day_key tz l) logs))),
      (log_day tz l).
    split; [|split; [|split; [reflexivity|]]].
    + apply by_day_of_elem. simpl. split; [|reflexivity].
      exists l. split; [exact Hl|reflexivity].
    + rewrite Forall_forall in Hfiled. apply log_day_filed, Hfiled, Hl.
    + simpl. f_equal. unfold moods_on.
      assert (Hf : filter (fun l' => day_key tz l' = day_key tz l) logs = [l]).
      { clear Hby Hent E Hfiled. induction logs as [|a logs IH]; [inversion Hl|].
        simpl in Hnd. apply NoDup_cons in Hnd as [Hnotin Hnd'].
        rewrite filter_cons.
        assert (Hrest : forall x, x ∈ logs -> x ∈ a :: logs) by (intros; right; assumption).
        apply elem_of_cons in Hl as [->|Hl].
        - destruct (decide (day_key tz a = day_key tz a)); [|contradiction].
          f_equal. apply filter_none.
          intros x Hx Hkey. apply Hnotin.
          rewrite <- (Hinj x a (Hrest x Hx) ltac:(left) Hkey).
          apply list_elem_of_fmap_2, Hx.
        - destruct (decide (day_key tz a = day_key tz l)) as [Hkey|_].
          + exfalso. apply Hnotin.
            rewrite (Hinj a l ltac:(left) (Hrest l Hl) Hkey).
            apply list_elem_of_fmap_2, Hl.
          + apply IH; [exact Hnd'| |exact Hl].
            intros x y Hx Hy. apply Hinj; apply Hrest; assumption. }
      rewrite Hf. reflexivity.
Qed.

Lemma distinct_days_by_day_witness :
  compute_insights_on utc scenario_now scenario3_logs = Some scenario3_result
  /\ len (by_day scenario3_result) = entries scenario3_result
  /\ forall l, l ∈ scenario3_logs ->
     exists e d, e ∈ by_day scenario3_result
                 /\ log_date utc l = Some d
                 /\ da_date e = isoformat d
                 /\ da_avg e = mean2 [mood l].
Proof.
  assert (H : compute_insights_on utc scenario_now scenario3_logs
              = Some scenario3_result) by (vm_compute; reflexivity).
  split; [exact H|].
  apply (distinct_days_by_day utc scenario_now scenario3_logs scenario3_result H).
  apply (bool_decide_unpack _). vm_compute. exact I.
Defined.

(** X21: when [compute_insights] returns.  At a clock reading within
    Python's range, it returns on an answer exactly when the answer is
    empty, or every record is filed (none of [timestamp()], [int()] and
    [fromtimestamp()] raises on it) and some day from [date.min] to today
    has no record filed under it, so that the loop of the streak stops
    before it steps below [date.min]. *)
Theorem insights_returns_iff (tz : zone) (now : datetime) (logs : list MoodLog) :
  MINORDINAL <= date now ->
  is_Some (compute_insights_on tz now logs)
  <-> logs = []
      \/ (Forall (filed tz) logs
          /\ exists d, MINORDINAL <= d <= date now
                       /\ forall l, l ∈ logs -> log_date tz l <> Some d).
Proof.
  intros Hnow. split.
  - intros (r & E). destruct logs as [|l0 logs]; [left; reflexivity|right].
    destruct (compute_insights_on_streak tz now _ r E) as (Hfiled & _).
    split; [exact Hfiled|].
    rewrite (compute_insights_on_filed tz now (l0 :: logs)) in E
      by (discriminate || exact Hfiled).
    destruct (streak_loop _ _ _ _) as [k|] eqn:Hloop; [|discriminate].
    apply streak_loop_inv in Hloop as (k' & _ & (Hk & _ & Hout) & Hroom).
    exists (date now - k'). split; [lia|].
    intros l Hl Hd. apply Hout. apply (days_of_filed tz _ _ Hfiled).
    exists l. split; [exact Hl|exact Hd].
  - intros [->|(Hfiled & d & Hd & Hnone)]; [eexists; reflexivity|].
    destruct logs as [|l0 logs]; [eexists; reflexivity|].
    rewrite (compute_insights_on_filed tz now (l0 :: logs))
      by (discriminate || exact Hfiled).
    destruct (run_exists (map (log_day tz) (l0 :: logs)) (date now)) as (k & Hrun & _).
    fold (days_of tz (l0 :: logs)) in Hrun.
    assert (Hle : k <= date now - d).
    { destruct Hrun as (Hk & Hin & _).
      destruct (Z_le_gt_dec k (date now - d)) as [|Hgt]; [assumption|exfalso].
      specialize (Hin (date now - d) ltac:(lia)).
      replace (date now - (date now - d)) with d in Hin by lia.
      apply (days_of_filed tz _ _ Hfiled) in Hin as (l & Hl & E).
      apply (Hnone l Hl E). }
    rewrite (streak_loop_run _ _ _ 0 k Hrun) by (destruct Hrun; lia).
    eexists. reflexivity.
Qed.

Lemma insights_returns_iff_witness :
  is_Some (compute_insights_on utc scenario_now scenario3_logs)
  <-> scenario3_logs = []
      \/ (Forall (filed utc) scenario3_logs
          /\ exists d, MINORDINAL <= d <= date scenario_now
                       /\ forall l, l ∈ scenario3_logs -> log_date utc l <> Some d).
Proof.
  apply (insights_returns_iff utc scenario_now scenario3_logs).
  vm_compute. discriminate.
Defined.

(** ** The calendar date behind a key of [by_day] *)

Lemma month_day_inv_checked (leapyear : bool) :
  all_from (month_day_inv_ok leapyear) (Z.to_nat 365) 0 = true.
Proof. destruct leapyear; vm_compute; reflexivity. Qed.

Lemma month_day_inv (leapyear : bool) (n : Z) :
  0 <= n < 365 ->
  DAYS_BEFORE_MONTH (fst (month_day n leapyear))
  + (if (2 <? fst (month_day n leapyear)) && leapyear then 1 else 0)
  + snd (month_day n leapyear) = n + 1
  /\ snd (month_day n leapyear) <= days_in_month leapyear (fst (month_day n leapyear)).
Proof.
  intros Hn.
  pose proof (all_from_spec _ _ _ (month_day_inv_checked leapyear) n) as H.
  rewrite Z2Nat.id in H by lia. specialize (H ltac:(lia)).
  unfold month_day_inv_ok in H.
  destruct (month_day n leapyear) as [m d]. cbn [fst snd].
  apply andb_true_iff in H as [H1 H2].
  apply Z.eqb_eq in H1. apply Z.leb_le in H2. split; assumption.
Qed.

Lemma days_before_year_digits (q a b c : Z) :
  0 <= a <= 3 -> 0 <= b <= 24 -> 0 <= c <= 3 ->
  days_before_year (400 * q + 100 * a + 4 * b + c + 1)
  = 146097 * q + 36524 * a + 1461 * b + 365 * c.
Proof.
  intros Ha Hb Hc. unfold days_before_year. cbv zeta.
  replace (400 * q + 100 * a + 4 * b + c + 1 - 1)
    with (400 * q + 100 * a + 4 * b + c) by lia.
  set (y := 400 * q + 100 * a + 4 * b + c).
  assert (H4 : y / 4 = 100 * q + 25 * a + b).
  { symmetry. apply (Z.div_unique y 4 _ c); unfold y; lia. }
  assert (H100 : y / 100 = 4 * q + a).
  { symmetry. apply (Z.div_unique y 100 _ (4 * b + c)); unfold y; lia. }
  assert (H400 : y / 400 = q).
  { symmetry. apply (Z.div_unique y 400 _ (100 * a + 4 * b + c)); unfold y; lia. }
  rewrite H4, H100, H400. unfold y. lia.
Qed.

Lemma is_leap_digits (q a b c : Z) :
  0 <= a <= 3 -> 0 <= b <= 24 -> 0 <= c <= 3 ->
  is_leap (400 * q + 100 * a + 4 * b + c + 1)
  = (c =? 3) && (negb (b =? 24) || (a =? 3)).
Proof.
  intros Ha Hb Hc. unfold is_leap.
  remember (400 * q + 100 * a + 4 * b + c + 1) as y eqn:Hy.
  pose proof (Z.div_mod y 4 ltac:(lia)) as E4.
  pose proof (Z.mod_pos_bound y 4 ltac:(lia)) as B4.
  pose proof (Z.div_mod y 100 ltac:(lia)) as E100.
  pose proof (Z.mod_pos_bound y 100 ltac:(lia)) as B100.
  pose proof (Z.div_mod y 400 ltac:(lia)) as E400.
  pose proof (Z.mod_pos_bound y 400 ltac:(lia)) as B400.
  destruct (Z.eqb_spec (y mod 4) 0) as [M4|M4];
    destruct (Z.eqb_spec (y mod 100) 0) as [M100|M100];
    destruct (Z.eqb_spec (y mod 400) 0) as [M400|M400];
    destruct (Z.eqb_spec c 3) as [C3|C3];
    destruct (Z.eqb_spec b 24) as [B24|B24];
    destruct (Z.eqb_spec a 3) as [A3|A3];
    simpl; try reflexivity; exfalso; lia.
Qed.

(** [_ymd2ord] undoes [_ord2ymd], and the day found exists in its month. *)
Lemma ymd2ord_ord2ymd (n : Z) :
  let '(y, m, d) := ord2ymd n in
  ymd2ord y m d = n /\ d <= days_in_month (is_leap y) m.
Proof.
  rewrite ord2ymd_split.
  assert (HD : DI400Y = 146097) by reflexivity.
  assert (Hpos : 0 < DI400Y) by lia.
  pose proof (Z.mod_pos_bound (n - 1) DI400Y Hpos) as Hc.
  pose proof (Z.div_mod (n - 1) DI400Y ltac:(lia)) as Hn.
  set (q := (n - 1) / DI400Y) in *. set (k := (n - 1) mod DI400Y) in *.
  destruct (cycle_digits_exist k Hc)
    as (a & b & c & r & Hk & Hr & Hcr & Hbcr & Ha & Hb & Hcc & _).
  rewrite (ord2ymd_cycle_digits k a b c r Hk Hr Hcr Hbcr).
  unfold ymd2ord, days_before_month.
  destruct (Z.eqb_spec c 4) as [C4|C4]; [|destruct (Z.eqb_spec a 4) as [A4|A4]];
    cbn [orb].
  - assert (r = 0) by lia. assert (b <= 23) by lia. assert (a <= 3) by lia.
    subst c r.
    replace (q * 400 + (100 * a + 4 * b + 4))
      with (400 * q + 100 * a + 4 * b + 3 + 1) by lia.
    rewrite days_before_year_digits, is_leap_digits by lia.
    destruct (Z.eqb_spec b 24) as [|_]; [lia|].
    unfold days_in_month. simpl. lia.
  - assert (b = 0 /\ c = 0 /\ r = 0) as (-> & -> & ->) by lia. subst a.
    replace (q * 400 + (100 * 4 + 4 * 0 + 0))
      with (400 * q + 100 * 3 + 4 * 24 + 3 + 1) by lia.
    rewrite days_before_year_digits, is_leap_digits by lia.
    unfold days_in_month. simpl. lia.
  - cbv zeta.
    replace (q * 400 + (1 + 100 * a + 4 * b + c))
      with (400 * q + 100 * a + 4 * b + c + 1) by lia.
    rewrite days_before_year_digits, is_leap_digits by lia.
    destruct (month_day_inv ((c =? 3) && (negb (b =? 24) || (a =? 3))) r Hr)
      as [Hinv Hdim].
    split; [lia|exact Hdim].
Qed.

(** X17: the key of a day in [by_day] is the zero-padded year, month and
    day of the calendar date that has the day's ordinal. *)
Theorem isoformat_denotes_day (n : Z) :
  valid_ordinal n ->
  exists y m d,
    isoformat n
    = digits4 y (String "-" (digits2 m (String "-" (digits2 d EmptyString))))
    /\ 1 <= y <= 9999
    /\ 1 <= m <= 12
    /\ 1 <= d <= days_in_month (is_leap y) m
    /\ ymd2ord y m d = n.
Proof.
  intros Hn.
  pose proof (isoformat_digits n Hn) as Hiso.
  pose proof (ord2ymd_fields n Hn) as Hf.
  pose proof (ymd2ord_ord2ymd n) as Hinv.
  destruct (ord2ymd n) as [[y m] d].
  exists y, m, d. split; [exact Hiso|]. intuition lia.
Qed.

Lemma isoformat_denotes_day_witness :
  exists y m d,
    isoformat 738945
    = digits4 y (String "-" (digits2 m (String "-" (digits2 d EmptyString))))
    /\ 1 <= y <= 9999
    /\ 1 <= m <= 12
    /\ 1 <= d <= days_in_month (is_leap y) m
    /\ ymd2ord y m d = 738945.
Proof. apply isoformat_denotes_day. unfold valid_ordinal, MINORDINAL, MAXORDINAL. lia. Defined.

(** ** The write handlers *)

Lemma lstrip_nil (t : list Z) : lstrip t = [] <-> forallb py_isspace t = true.
Proof.
  induction t as [|c t IH]; simpl; [tauto|].
  destruct (py_isspace c); simpl; [exact IH|].
  split; discriminate.
Qed.

Lemma forallb_rev {A : Type} (f : A -> bool) (l : list A) :
  forallb f (rev l) = forallb f l.
Proof.
  induction l as [|x l IH]; simpl; [reflexivity|].
  rewrite forallb_app, IH. simpl. rewrite andb_true_r. apply andb_comm.
Qed.

Lemma lstrip_spaces (t : list Z) :
  forallb py_isspace (lstrip t) = forallb py_isspace t.
Proof.
  induction t as [|c t IH]; simpl; [reflexivity|].
  destruct (py_isspace c) eqn:E; simpl; [exact IH|].
  rewrite E. reflexivity.
Qed.

(** [t.strip()] is empty exactly when every character of [t] is white
    space. *)
Lemma strip_nil (t : list Z) : strip t = [] <-> forallb py_isspace t = true.
Proof.
  unfold strip, rstrip.
  rewrite <- (lstrip_spaces t), <- (forallb_rev py_isspace (lstrip t)), <- lstrip_nil.
  split; intros H.
  - apply (f_equal (@rev Z)) in H. rewrite rev_involutive in H. exact H.
  - rewrite H. reflexivity.
Qed.

Lemma len_nil {A : Type} (l : list A) : (len l =? 0) = true <-> l = [].
Proof.
  unfold len. destruct l; simpl; split; intros H; try reflexivity; discriminate.
Qed.

(** X18: [/api/journal] refuses a text exactly when all its characters are
    white space (an empty text too): it then answers 400 without a call of
    [create_document]; any other text is handed on untrimmed, as the first
    document. *)
Theorem add_journal_text_required (now : datetime) (payload : JournalEntry) :
  (forallb py_isspace (je_text payload) = true ->
   forall (DB Exn Id : Type)
          (create_document : string -> document -> DB -> (Exn + Id) * DB) (db : DB),
     add_journal create_document now payload db
     = (HTTPException 400 "Text required", db))
  /\ (forallb py_isspace (je_text payload) = false ->
      forall (Exn Id : Type) (answer : nat -> Exn + Id),
      exists out rest,
        add_journal (recording answer) now payload [] = (out, rest)
        /\ head rest = Some ("journalentry"%string, Dict (dump_JournalEntry payload))
        /\ dict_get (dump_JournalEntry payload) "text" VNone
           = VText (je_text payload)
        /\ forall detail, out <> HTTPException 400 detail).
Proof.
  split.
  - intros Hblank DB Exn Id create_document db.
    unfold add_journal. cbn [dump_JournalEntry dict_get String.eqb Ascii.eqb
                               Bool.eqb value_strip].
    apply strip_nil in Hblank. rewrite Hblank. reflexivity.
  - intros Htext Exn Id answer.
    unfold add_journal. cbn [dump_JournalEntry dict_get String.eqb Ascii.eqb
                               Bool.eqb value_strip].
    destruct (len (strip (je_text payload)) =? 0) eqn:E.
    { apply len_nil, strip_nil in E. congruence. }
    unfold recording at 1. cbn [length app].
    destruct (answer 0%nat) as [e|_id].
    + eexists. eexists. split; [reflexivity|]. repeat split. discriminate.
    + unfold recording. cbn [length app].
      destruct (answer 1%nat) as [e|_]; eexists; eexists;
        (split; [reflexivity|]); repeat split; discriminate.
Qed.

Lemma add_journal_text_required_witness :
  add_journal (recording (fun _ => inr 7)) scenario_now
    (journal_of [32; 9; 12288]) ([] : list (string * document))
  = (HTTPException (Exn := string) 400 "Text required", []).
Proof.
  apply (proj1 (add_journal_text_required scenario_now (journal_of [32; 9; 12288]))).
  reflexivity.
Defined.

(** X19: whatever the database answers, a request to a writing endpoint
    calls [create_document] at most twice, each time for a collection of
    [schemas], and every document it hands to the [appevent] collection
    carries an event that [AppEvent] allows. *)
Theorem analytics_events_allowed {Exn Id : Type} (str : Exn -> string)
    (answer : nat -> Exn + Id) (now : datetime) (rq : PostRequest) :
  valid_post rq ->
  let calls := snd (handle_post (recording answer) str now rq []) in
  (length calls <= 2)%nat
  /\ forall c doc, In (c, doc) calls ->
     In c COLLECTIONS
     /\ (c = "appevent"%string ->
         exists ev, event_of doc = Some ev /\ In ev APP_EVENTS).
Proof.
  intros Hvalid. destruct rq as [p|p|p|e]; cbn [handle_post].
  - unfold add_mood_log, recording. cbn [length app].
    destruct (answer 0%nat) as [e|_id]; [|destruct (answer 1%nat) as [e|_]];
      cbn [snd length]; (split; [lia|]);
      intros c doc Hin; simpl in Hin;
      repeat (destruct Hin as [Hin|Hin]; [injection Hin as <- <-|]);
      try contradiction;
      (split; [simpl; tauto|]); intros Hc; try discriminate Hc;
      (eexists; split; [reflexivity|simpl; tauto]).
  - unfold add_journal. cbn [dump_JournalEntry dict_get String.eqb Ascii.eqb
                               Bool.eqb value_strip].
    destruct (len (strip (je_text p)) =? 0).
    { cbn [snd length]. split; [lia|]. intros c doc []. }
    unfold recording. cbn [length app].
    destruct (answer 0%nat) as [e|_id]; [|destruct (answer 1%nat) as [e|_]];
      cbn [snd length]; (split; [lia|]);
      intros c doc Hin; simpl in Hin;
      repeat (destruct Hin as [Hin|Hin]; [injection Hin as <- <-|]);
      try contradiction;
      (split; [simpl; tauto|]); intros Hc; try discriminate Hc;
      (eexists; split; [reflexivity|simpl; tauto]).
  - unfold track_engagement, recording. cbn [length app].
    destruct (answer 0%nat) as [e|_id].
    { cbn [snd length]. split; [lia|].
      intros c doc Hin; simpl in Hin.
      destruct Hin as [Hin|[]]. injection Hin as <- <-.
      split; [simpl; tauto|]. discriminate. }
    cbn [existsb].
    destruct (String.eqb_spec (se_action p) "viewed") as [Ea|_];
      [|destruct (String.eqb_spec (se_action p) "completed") as [Ea|_]];
      cbn [orb]; try rewrite Ea;
      try (destruct (answer 1%nat) as [e|_]);
      cbn [snd length]; (split; [lia|]);
      intros c doc Hin; simpl in Hin;
      repeat (destruct Hin as [Hin|Hin]; [injection Hin as <- <-|]);
      try contradiction;
      (split; [simpl; tauto|]); intros Hc; try discriminate Hc;
      (eexists; split; [reflexivity|simpl; tauto]).
  - unfold track_event, recording. cbn [length app].
    destruct (answer 0%nat) as [e'|_id];
      cbn [snd length]; (split; [lia|]);
      intros c doc Hin; simpl in Hin;
      destruct Hin as [Hin|[]]; injection Hin as <- <-;
      (split; [simpl; tauto|]); intros _;
      (exists (ae_event e); split; [reflexivity|exact Hvalid]).
Qed.

Lemma analytics_events_allowed_witness :
  let calls :=
    snd (handle_post (recording (fun _ => inr 7)) (fun e : string => e)
           scenario_now (PostEvent event_dau) []) in
  (length calls <= 2)%nat
  /\ forall c doc, In (c, doc) calls ->
     In c COLLECTIONS
     /\ (c = "appevent"%string ->
         exists ev, event_of doc = Some ev /\ In ev APP_EVENTS).
Proof.
  apply (analytics_events_allowed (fun e : string => e) (fun _ => inr 7)
           scenario_now (PostEvent event_dau)).
  simpl. unfold valid_AppEvent. simpl. tauto.
Defined.

(** X20: for an identifier without a stored profile, [/api/profile] answers
    with the profile the schema gives a new user: the dump of
    [UserProfile(anonymous_id=...)] at its defaults, without the key
    [name]; a stored profile is returned as found. *)
Theorem get_profile_default {DB Exn : Type}
    (find_one : string -> dict -> dict -> DB -> option dict) (d : DB)
    (anonymous_id : string) :
  let found :=
    find_one "userprofile" [("anonymous_id", VStr anonymous_id)]%string
      [("_id", VInt 0)]%string d in
  (found = None \/ found = Some [] ->
   get_profile (Exn := Exn) find_one (Some d) anonymous_id
   = Return (dict_without "name" (dump_UserProfile (new_UserProfile anonymous_id))))
  /\ (forall doc, found = Some doc -> doc <> [] ->
      get_profile (Exn := Exn) find_one (Some d) anonymous_id = Return doc).
Proof.
  intros found. unfold get_profile. fold found. split.
  - intros [-> | ->]; reflexivity.
  - intros doc -> Hne. destruct doc; [contradiction|reflexivity].
Qed.

Lemma get_profile_default_witness :
  get_profile (Exn := string) no_document (Some tt) "u1"
  = Return (dict_without "name" (dump_UserProfile (new_UserProfile "u1"))).
Proof.
  apply (proj1 (get_profile_default no_document tt "u1")). left. reflexivity.
Defined.
